(** * Research planner: task parser, completion poller, phase orchestrator
      and document exporters

    A shallow embedding of
    [research_planner_executor_agent.py] (task parser, completion poller,
    Streamlit phase orchestrator) and of [research_agent_gemini/utils.py]
    (PDF and DOCX exporters), with the properties of their specification
    stated and settled against the embedded code. *)

From Stdlib Require Import String Ascii List ZArith NArith Bool Arith Lia DecimalString.
Import ListNotations.
Local Open Scope string_scope.
Local Open Scope list_scope.
Local Open Scope nat_scope.

Set Implicit Arguments.

(* ===================================================================== *)
(** * Regular expressions, as far as the two patterns of the program go  *)
(* ===================================================================== *)

(** Python's [re] is a backtracking matcher: of all the ways a pattern can
    match at a position it takes the first one in priority order (greedy
    quantifiers try the longest repetition first, lazy ones the shortest,
    alternatives left to right).  [run] returns every way the pattern
    matches from a state, in that order, so that the head of the list is
    the match [re] reports.  Quantifiers are applied to character classes
    only, which is all that the patterns of the program do
    ([\d+], [\s*], [.+?], [.*?]). *)
Module Re.
Section Engine.
Variable C : Type.
(** [is_nl c]: [c] is the line feed; [^] under [re.MULTILINE] matches at
    the start of the text and after each line feed. *)
Variable is_nl : C -> bool.

Inductive regex : Type :=
| Bol                                   (* ^   (re.MULTILINE)          *)
| EndZ                                  (* \Z                          *)
| Cls (p : C -> bool)                   (* one character of a class    *)
| Star (greedy : bool) (p : C -> bool)  (* p*  (greedy) or  p*? (lazy) *)
| Seq (r1 r2 : regex)
| Alt (r1 r2 : regex)                   (* r1|r2                       *)
| Group (n : nat) (r : regex)           (* capturing group number n    *)
| Look (r : regex).                     (* (?=r)                       *)

(** [p+] and [p+?]. *)
Definition plus (greedy : bool) (p : C -> bool) : regex :=
  Seq (Cls p) (Star greedy p).

(** A matcher state: the character before the current position (none at
    the start of the text), the text from the current position on, and
    the groups captured so far (latest first). *)
Record mstate : Type := MState {
  prev : option C;
  rest : list C;
  groups : list (nat * list C)
}.

Definition at_bol (z : mstate) : bool :=
  match prev z with
  | None => true
  | Some c => is_nl c
  end.

(** All ways of repeating class [p] from the position [(pr, l)]. *)
Fixpoint star (greedy : bool) (p : C -> bool) (pr : option C) (l : list C)
  : list (option C * list C) :=
  match l with
  | c :: l' =>
      if p c then
        if greedy then star greedy p (Some c) l' ++ [(pr, l)]
        else (pr, l) :: star greedy p (Some c) l'
      else [(pr, l)]
  | [] => [(pr, l)]
  end.

(** The text consumed between state [z] and a later state [z']. *)
Definition consumed (z z' : mstate) : list C :=
  firstn (length (rest z) - length (rest z')) (rest z).

Fixpoint run (r : regex) (z : mstate) : list mstate :=
  match r with
  | Bol => if at_bol z then [z] else []
  | EndZ => match rest z with [] => [z] | _ :: _ => [] end
  | Cls p =>
      match rest z with
      | c :: l => if p c then [MState (Some c) l (groups z)] else []
      | [] => []
      end
  | Star greedy p =>
      map (fun pl => MState (fst pl) (snd pl) (groups z))
          (star greedy p (prev z) (rest z))
  | Seq r1 r2 => flat_map (run r2) (run r1 z)
  | Alt r1 r2 => run r1 z ++ run r2 z
  | Group n r1 =>
      map (fun z' => MState (prev z') (rest z')
                            ((n, consumed z z') :: groups z'))
          (run r1 z)
  | Look r1 =>
      match run r1 z with
      | z' :: _ => [MState (prev z) (rest z) (groups z')]
      | [] => []
      end
  end.

(** [match.group(n)]. *)
Fixpoint lookup_group (n : nat) (gs : list (nat * list C)) : list C :=
  match gs with
  | (k, s) :: gs' => if Nat.eqb k n then s else lookup_group n gs'
  | [] => []
  end.

Definition group (n : nat) (z : mstate) : list C := lookup_group n (groups z).

(** The match of [r] starting exactly at the position [(pr, l)], if any. *)
Definition match_at (r : regex) (pr : option C) (l : list C) : option mstate :=
  hd_error (run r (MState pr l [])).

(** [re.finditer]: the non-overlapping matches from left to right.  The
    scan visits every position of the text; [skip] counts the positions
    that still lie inside the match found last, at which no match is
    attempted.  The patterns of the program never match the empty
    string; an empty match would simply be reported and the scan moved
    on by one character. *)
Fixpoint finditer_from (r : regex) (pr : option C) (l : list C) (skip : nat)
  : list mstate :=
  match skip with
  | S k =>
      match l with
      | c :: l' => finditer_from r (Some c) l' k
      | [] => []
      end
  | O =>
      match match_at r pr l with
      | Some z =>
          z :: match l with
               | c :: l' =>
                   finditer_from r (Some c) l'
                     (length l - length (rest z) - 1)
               | [] => []
               end
      | None =>
          match l with
          | c :: l' => finditer_from r (Some c) l' 0
          | [] => []
          end
      end
  end.

Definition finditer (r : regex) (text : list C) : list mstate :=
  finditer_from r None text 0.

(** [re.split] for a pattern with one capturing group: the pieces of text
    between the matches, with the text of group 1 of each match in
    between.  [piece] holds, reversed, the characters read since the last
    match.  A match of length zero does not split here (the pattern of
    the program matches four characters or more). *)
Fixpoint split_from (r : regex) (pr : option C) (l : list C) (skip : nat)
         (piece : list C) : list (list C) :=
  match skip with
  | S k =>
      match l with
      | c :: l' => split_from r (Some c) l' k piece
      | [] => [rev piece]
      end
  | O =>
      match l with
      | [] => [rev piece]
      | c :: l' =>
          match match_at r pr l with
          | Some z =>
              match length l - length (rest z) with
              | S k => rev piece :: group 1 z :: split_from r (Some c) l' k []
              | O => split_from r (Some c) l' 0 (c :: piece)
              end
          | None => split_from r (Some c) l' 0 (c :: piece)
          end
      end
  end.

Definition split (r : regex) (text : list C) : list (list C) :=
  split_from r None text 0 [].
End Engine.

Arguments Bol {C}.
Arguments EndZ {C}.
End Re.

(* ===================================================================== *)
(** * parse_tasks                                                         *)
(* ===================================================================== *)

(** A task, the dict [{"num": ..., "text": ...}]; [num] is the text of the
    first group, kept as a string. *)
Record Task : Type := mkTask { num : string; text : string }.

(** [parse_tasks] sees the characters of its text through four classes:
    the line feed (for [^] and [\n]), [\d], [\s] (which is also the
    white space of [str.strip]) and [[\.\)\-]].  It is written once for
    any characters with such classes, and read with two alphabets: the
    characters below U+0100, of which the texts of the script are made
    in this model, and all code points. *)
Unset Implicit Arguments.

Module Grammar.
Import Re.

Record Alphabet : Type := mkAlphabet {
  char : Type;
  newline : char -> bool;      (* the line feed *)
  digit : char -> bool;        (* \d *)
  whitespace : char -> bool;   (* \s, str.isspace *)
  separator : char -> bool;    (* [\.\)\-] *)
  line_feed : char;            (* '\n' *)
  blank : char                 (* ' ' *)
}.

Section Pattern.
Variable A : Alphabet.

(** [.] under [re.DOTALL]. *)
Definition any (_ : char A) : bool := true.

(** [s.strip()]. *)
Fixpoint lstrip (l : list (char A)) : list (char A) :=
  match l with
  | c :: l' => if whitespace A c then lstrip l' else l
  | [] => []
  end.

Definition rstrip (l : list (char A)) : list (char A) := rev (lstrip (rev l)).

Definition strip (l : list (char A)) : list (char A) := rstrip (lstrip l).

(** [s.replace('\n', ' ')]. *)
Definition join_lines (l : list (char A)) : list (char A) :=
  map (fun c => if newline A c then blank A else c) l.

(** [r'^(\d+)[\.\)\-]\s*(.+?)(?=\n\d+[\.\)\-]|\n\n|\Z)'] under
    [re.MULTILINE | re.DOTALL]. *)
Definition lookahead : regex (char A) :=
  Alt (Seq (Cls (newline A)) (Seq (plus true (digit A)) (Cls (separator A))))
      (Alt (Seq (Cls (newline A)) (Cls (newline A))) EndZ).

Definition pattern : regex (char A) :=
  Seq Bol
    (Seq (Group 1 (plus true (digit A)))
      (Seq (Cls (separator A))
        (Seq (Star true (whitespace A))
          (Seq (Group 2 (plus false any))
               (Look lookahead))))).

(** The [num] and the [text] of the task of a match. *)
Definition task_of_match (m : mstate (char A)) : list (char A) * list (char A) :=
  let num := group 1 m in
  let task_text := join_lines (strip (group 2 m)) in
  (num, task_text).

Definition parse_tasks (text : list (char A))
  : list (list (char A) * list (char A)) :=
  map task_of_match (finditer (newline A) pattern text).
End Pattern.
End Grammar.

Set Implicit Arguments.

(* ===================================================================== *)
(** * Text of the script: characters below U+0100                         *)
(* ===================================================================== *)

(** The texts of the script are modelled as [string]: sequences of
    characters with code points 0..255.  On that range Python's [\d] is
    [0-9], and [\s] and [str.strip] agree on the white space below. *)
Module Chars.
Definition nl : ascii := "010"%char.
Definition space : ascii := " "%char.

Definition is_nl (c : ascii) : bool := Ascii.eqb c nl.

(** [\d]: a decimal digit. *)
Definition is_digit (c : ascii) : bool :=
  let n := nat_of_ascii c in (48 <=? n) && (n <=? 57).

(** [\s], [str.isspace]: TAB LF VT FF CR, FS GS RS US, the space, NEL
    (U+0085) and the no-break space (U+00A0). *)
Definition is_space (c : ascii) : bool :=
  let n := nat_of_ascii c in
  ((9 <=? n) && (n <=? 13)) || ((28 <=? n) && (n <=? 32))
  || (n =? 133) || (n =? 160).

(** The class [[\.\)\-]]. *)
Definition is_sep (c : ascii) : bool :=
  Ascii.eqb c "."%char || Ascii.eqb c ")"%char || Ascii.eqb c "-"%char.

Definition alphabet : Grammar.Alphabet :=
  Grammar.mkAlphabet ascii is_nl is_digit is_space is_sep nl space.
End Chars.

(** [parse_tasks] on a text of the script. *)
Module Parser.
Definition task_of (t : list ascii * list ascii) : Task :=
  mkTask (string_of_list_ascii (fst t)) (string_of_list_ascii (snd t)).

Definition parse_tasks (text : string) : list Task :=
  map task_of (Grammar.parse_tasks Chars.alphabet (list_ascii_of_string text)).
End Parser.

(* ===================================================================== *)
(** * The remote service, the session and the effects of a script run    *)
(* ===================================================================== *)

Definition NL : string := String Chars.nl EmptyString.

(** Truth value of a [str] and of an optional value ([None] and the empty
    string are false). *)
Definition truthy (s : string) : bool :=
  match s with EmptyString => false | String _ _ => true end.

Definition truthy_opt (o : option string) : bool :=
  match o with Some s => truthy s | None => false end.

Definition bytes : Type := list Byte.byte.

Definition truthy_bytes (o : option bytes) : bool :=
  match o with Some (_ :: _) => true | _ => false end.

(** An output item of an interaction: its [text], [None] when the item has
    no such attribute or the attribute is [None]. *)
Definition Output : Type := option string.

Record Interaction : Type := mkInteraction {
  id : string;
  status : string;
  outputs : list Output
}.

(** The response of [client.models.generate_content]. *)
Record Blob : Type := mkBlob { data : bytes }.
Record Part : Type := mkPart { inline_data : option Blob }.
Record Content : Type := mkContent { parts : list Part }.
Record Candidate : Type := mkCandidate { content : option Content }.
Record Response : Type := mkResponse { candidates : list Candidate }.

(** The keyword arguments of [client.interactions.create]. *)
Record CreateRequest : Type := mkCreate {
  model : option string;
  agent : option string;
  input : string;
  tools : list string;
  previous_interaction_id : option string;
  background : bool;
  store : bool
}.

(** A call of the remote client returns or raises an [Exception]. *)
Inductive result (A : Type) : Type :=
| Ok (a : A)
| Failed (msg : string).
Arguments Failed {A}.

(** The remote client.  What [interactions.get] answers may depend on how
    often it has been asked before and on the time: its first argument is
    the number of earlier [get] calls of the run, the second the seconds
    the run has spent in [time.sleep]. *)
Record Client : Type := mkClient {
  interactions_create : CreateRequest -> result Interaction;
  interactions_get : nat -> Z -> string -> result Interaction;
  models_generate_content : string -> string -> result Response
}.

(** [st.session_state] once [init_session_state] has run: the seven keys. *)
Record SessionState : Type := mkSession {
  plan_id : option string;
  plan_text : option string;
  tasks : list Task;
  research_id : option string;
  research_text : option string;
  synthesis_text : option string;
  infographic : option bytes
}.

(** The value shown by the progress bar: a number, or the value
    [min(90, int((elapsed / timeout) * 100))] of the waiting branch, which
    Python computes in floating point and which is kept symbolic here. *)
Inductive Percent : Type :=
| Pct (n : Z)
| PctWaiting (elapsed timeout : Z).

(** What a run shows to the user.  Fixed labels that carry an emoji are
    events of their own or are written without it; spinners and the page
    configuration are not recorded. *)
Inductive UiEvent : Type :=
| UiProgress (p : Percent)
| UiStatusEmpty
| UiStatusText (elapsed : Z)
| UiError (msg : string)
| UiWarning (msg : string)
| UiInfo (msg : string)
| UiTitle
| UiHowItWorks
| UiDivider
| UiSubheader (s : string)
| UiCheckbox (label key : string)
| UiSelectedCount (selected total : nat)
| UiCaption (s : string)
| UiReportHeading
| UiTldrHeading
| UiMarkdown (s : string)
| UiImage (img : bytes)
| UiDownload (data file_name mime : string).

Record World : Type := mkWorld {
  session : SessionState;
  ui : list UiEvent;          (* latest first *)
  gets : nat;                 (* calls of client.interactions.get so far *)
  clock : Z                   (* seconds spent in time.sleep so far *)
}.

(** Python exceptions: the [Exception]s that [except Exception] catches,
    and Streamlit's script-control exceptions raised by [st.stop()] and
    [st.rerun()], which derive from [BaseException] and end the run. *)
Inductive exn : Type :=
| Error (msg : string)
| StopException
| RerunException.

(** [OutOfFuel] is not an outcome of the program: it is what the model of
    a loop answers when its fuel is used up (see
    [wait_for_completion_fuel_ok]). *)
Inductive outcome (A : Type) : Type :=
| Ret (a : A)
| Raise (e : exn)
| OutOfFuel.
Arguments Raise {A}.
Arguments OutOfFuel {A}.

Definition M (A : Type) : Type := World -> outcome A * World.

Definition ret {A} (a : A) : M A := fun w => (Ret a, w).

Definition bind {A B} (m : M A) (k : A -> M B) : M B :=
  fun w =>
    match m w with
    | (Ret a, w') => k a w'
    | (Raise e, w') => (Raise e, w')
    | (OutOfFuel, w') => (OutOfFuel, w')
    end.

Definition raise {A} (e : exn) : M A := fun w => (Raise e, w).

(** [try: m except Exception as e: handler e]. *)
Definition try_except {A} (m : M A) (handler : string -> M A) : M A :=
  fun w =>
    match m w with
    | (Raise (Error msg), w') => handler msg w'
    | r => r
    end.

Declare Scope py_scope.
Delimit Scope py_scope with py.
Notation "x <- m ;; k" := (bind m (fun x => k))
  (at level 61, m at next level, right associativity) : py_scope.
Notation "m ;; k" := (bind m (fun _ => k))
  (at level 61, right associativity) : py_scope.
Local Open Scope py_scope.

Definition emit (e : UiEvent) : M unit :=
  fun w => (Ret tt, mkWorld (session w) (e :: ui w) (gets w) (clock w)).

Definition sleep (secs : Z) : M unit :=
  fun w => (Ret tt, mkWorld (session w) (ui w) (gets w) (clock w + secs)%Z).

Definition get_session : M SessionState := fun w => (Ret (session w), w).

Definition modify_session (f : SessionState -> SessionState) : M unit :=
  fun w => (Ret tt, mkWorld (f (session w)) (ui w) (gets w) (clock w)).

Definition st_stop {A} : M A := raise StopException.
Definition st_rerun {A} : M A := raise RerunException.

Definition of_result {A} (r : result A) : M A :=
  match r with
  | Ok a => ret a
  | Failed msg => raise (Error msg)
  end.

(** [client.interactions.get(interaction_id)]. *)
Definition client_get (client : Client) (interaction_id : string) : M Interaction :=
  fun w =>
    of_result (interactions_get client (gets w) (clock w) interaction_id)
              (mkWorld (session w) (ui w) (S (gets w)) (clock w)).

Definition client_create (client : Client) (req : CreateRequest) : M Interaction :=
  of_result (interactions_create client req).

Definition client_generate_content (client : Client) (model contents : string)
  : M Response :=
  of_result (models_generate_content client model contents).

(* ===================================================================== *)
(** * Constants and get_text                                              *)
(* ===================================================================== *)

Definition MODEL_PLANNER : string := "gemini-3-flash-preview".
Definition MODEL_RESEARCH_AGENT : string := "deep-research-pro-preview-12-2025".
Definition MODEL_SYNTHESIS : string := "gemini-3-pro-preview".
Definition MODEL_IMAGE : string := "gemini-3-pro-image-preview".
Definition POLLING_INTERVAL : Z := 3.
Definition TIMEOUT : Z := 300.

Definition output_text (o : Output) : list string :=
  match o with
  | Some t => if truthy t then [t] else []
  | None => []
  end.

Definition get_text (outputs : list Output) : string :=
  match outputs with
  | [] => ""
  | _ :: _ =>
      let joined := String.concat NL (flat_map output_text outputs) in
      if truthy joined then joined else ""
  end.

(* ===================================================================== *)
(** * wait_for_completion                                                 *)
(* ===================================================================== *)

Module Poller.

(** How one pass through the body of the [while] loop ends. *)
Inductive body_exit : Type :=
| BReturn (interaction : Interaction)   (* return interaction *)
| BContinue (elapsed : Z)               (* next iteration *)
| BBreak.                               (* break *)

Definition loop_body (client : Client) (interaction_id : string)
           (timeout elapsed : Z) : M body_exit :=
  try_except
    (interaction <- client_get client interaction_id ;;
     if negb (String.eqb (status interaction) "in_progress") then
       emit (UiProgress (Pct 100)) ;;
       emit UiStatusEmpty ;;
       ret (BReturn interaction)
     else
       emit (UiProgress (PctWaiting elapsed timeout)) ;;
       emit (UiStatusText elapsed) ;;
       sleep POLLING_INTERVAL ;;
       ret (BContinue (elapsed + POLLING_INTERVAL)%Z))
    (fun e =>
       emit (UiError ("Error checking status: " ++ e)%string) ;;
       ret BBreak).

(** The [while elapsed < timeout] loop; [Some i] when the loop returned
    [i], [None] when it was left by its condition or by [break]. *)
Fixpoint while_loop (fuel : nat) (client : Client) (interaction_id : string)
         (timeout elapsed : Z) : M (option Interaction) :=
  if (elapsed <? timeout)%Z then
    match fuel with
    | O => fun w => (OutOfFuel, w)
    | S fuel' =>
        r <- loop_body client interaction_id timeout elapsed ;;
        match r with
        | BReturn interaction => ret (Some interaction)
        | BContinue elapsed' =>
            while_loop fuel' client interaction_id timeout elapsed'
        | BBreak => ret None
        end
    end
  else ret None.

Definition wait_for_completion_fuel (fuel : nat) (client : Client)
           (interaction_id : string) (timeout : Z) : M Interaction :=
  emit (UiProgress (Pct 0)) ;;
  emit UiStatusEmpty ;;
  r <- while_loop fuel client interaction_id timeout 0 ;;
  match r with
  | Some interaction => ret interaction
  | None => client_get client interaction_id
  end.

(** Every pass adds [POLLING_INTERVAL] = 3 to [elapsed], so [timeout]
    passes are more than the loop can make. *)
Definition wait_for_completion (client : Client) (interaction_id : string)
           (timeout : Z) : M Interaction :=
  wait_for_completion_fuel (Z.to_nat timeout) client interaction_id timeout.

End Poller.

(* ===================================================================== *)
(** * The Streamlit script: main                                          *)
(* ===================================================================== *)

Module Orchestrator.
Import Poller.

Inductive Button : Type :=
| BtnReset | BtnGeneratePlan | BtnStartResearch | BtnGenerateReport.

Definition Button_eqb (a b : Button) : bool :=
  match a, b with
  | BtnReset, BtnReset
  | BtnGeneratePlan, BtnGeneratePlan
  | BtnStartResearch, BtnStartResearch
  | BtnGenerateReport, BtnGenerateReport => true
  | _, _ => false
  end.

(** What the user did to start this run of the script: the contents of
    the two text widgets, the button pressed (a run is started by at
    most one), and the state of the check box of each key. *)
Record Inputs : Type := mkInputs {
  api_key : string;
  research_goal : string;
  clicked : option Button;
  checkbox : string -> bool
}.

(** [st.button(label, disabled=...)]: true in the run started by pressing
    it; a disabled button cannot be pressed. *)
Definition st_button (inp : Inputs) (b : Button) (disabled : bool) : bool :=
  match clicked inp with
  | Some b' => Button_eqb b b' && negb disabled
  | None => false
  end.

Definition defaults : SessionState :=
  mkSession None None [] None None None None.

(** [st.session_state] is empty ([None]) in the first run of a session;
    afterwards it holds the seven keys.  A key that is present is left
    as it is. *)
Definition init_session_state (store : option SessionState) : SessionState :=
  match store with
  | None => defaults
  | Some s => s
  end.

Definition set_plan_id v (s : SessionState) : SessionState :=
  mkSession v (plan_text s) (tasks s) (research_id s) (research_text s)
            (synthesis_text s) (infographic s).
Definition set_plan_text v (s : SessionState) : SessionState :=
  mkSession (plan_id s) v (tasks s) (research_id s) (research_text s)
            (synthesis_text s) (infographic s).
Definition set_tasks v (s : SessionState) : SessionState :=
  mkSession (plan_id s) (plan_text s) v (research_id s) (research_text s)
            (synthesis_text s) (infographic s).
Definition set_research_id v (s : SessionState) : SessionState :=
  mkSession (plan_id s) (plan_text s) (tasks s) v (research_text s)
            (synthesis_text s) (infographic s).
Definition set_research_text v (s : SessionState) : SessionState :=
  mkSession (plan_id s) (plan_text s) (tasks s) (research_id s) v
            (synthesis_text s) (infographic s).
Definition set_synthesis_text v (s : SessionState) : SessionState :=
  mkSession (plan_id s) (plan_text s) (tasks s) (research_id s)
            (research_text s) v (infographic s).
Definition set_infographic v (s : SessionState) : SessionState :=
  mkSession (plan_id s) (plan_text s) (tasks s) (research_id s)
            (research_text s) (synthesis_text s) v.

Definition reset_session_state : M unit :=
  modify_session (set_plan_id None) ;;
  modify_session (set_plan_text None) ;;
  modify_session (set_tasks []) ;;
  modify_session (set_research_id None) ;;
  modify_session (set_research_text None) ;;
  modify_session (set_synthesis_text None) ;;
  modify_session (set_infographic None) ;;
  st_rerun.

(** [str(x)] of a session value inside an f-string. *)
Definition fmt (o : option string) : string :=
  match o with
  | Some s => s
  | None => "None"
  end.

(** Phase 1: Plan. *)
Definition plan_prompt (research_goal : string) : string :=
  ("Create a numbered research plan for: " ++ research_goal ++ NL ++ NL
   ++ "Format: 1. [Task] - [Details]" ++ NL ++ NL
   ++ "Include 5-8 specific tasks.")%string.

Definition phase_plan (inp : Inputs) (client : Client) : M unit :=
  let research_goal := research_goal inp in
  if st_button inp BtnGeneratePlan (negb (truthy research_goal)) then
    try_except
      (interaction <- client_create client
         (mkCreate (Some MODEL_PLANNER) None (plan_prompt research_goal)
                   ["google_search"%string] None false true) ;;
       modify_session (set_plan_id (Some (id interaction))) ;;
       modify_session (set_plan_text (Some (get_text (outputs interaction)))) ;;
       s <- get_session ;;
       modify_session (set_tasks (Parser.parse_tasks (fmt (plan_text s)))))
      (fun e => emit (UiError ("Error during planning: " ++ e)%string))
  else ret tt.

(** [st.checkbox(label, value=True, key=key)]: the state of the check
    box.  [keys] are the keys of the widgets made so far in the run:
    Streamlit raises [DuplicateWidgetID] for a key that is already taken. *)
Definition st_checkbox (inp : Inputs) (label key : string) (keys : list string)
  : M bool :=
  if existsb (String.eqb key) keys then raise (Error "DuplicateWidgetID")
  else emit (UiCheckbox label key) ;; ret (checkbox inp key).

(** The check boxes of the task selection: the loop over
    [st.session_state.tasks] that builds [selected_tasks]. *)
Fixpoint select_tasks (inp : Inputs) (tasks : list Task) (keys : list string)
         (selected_tasks : list string) : M (list string) :=
  match tasks with
  | [] => ret selected_tasks
  | task :: tasks' =>
      let key := ("t" ++ num task)%string in
      is_selected <- st_checkbox inp
                       ("**" ++ num task ++ ".** " ++ text task)%string
                       key keys ;;
      select_tasks inp tasks' (key :: keys)
        (if is_selected
         then selected_tasks ++ [(num task ++ ". " ++ text task)%string]
         else selected_tasks)
  end.

Definition is_empty {A} (l : list A) : bool :=
  match l with [] => true | _ :: _ => false end.

Definition research_prompt (tasks_str : string) : string :=
  ("Research these tasks thoroughly with sources:" ++ NL ++ NL ++ tasks_str)%string.

(** Phase 2: Select & Research. *)
Definition phase_research (inp : Inputs) (client : Client) : M unit :=
  s <- get_session ;;
  if truthy_opt (plan_text s) then
    emit UiDivider ;;
    emit (UiSubheader "Select Tasks & Research") ;;
    selected_tasks <- select_tasks inp (tasks s) [] [] ;;
    emit (UiSelectedCount (length selected_tasks) (length (tasks s))) ;;
    if st_button inp BtnStartResearch (is_empty selected_tasks) then
      try_except
        (let tasks_str := String.concat (NL ++ NL)%string selected_tasks in
         s <- get_session ;;
         interaction <- client_create client
           (mkCreate None (Some MODEL_RESEARCH_AGENT) (research_prompt tasks_str)
                     [] (plan_id s) true true) ;;
         interaction <- wait_for_completion client (id interaction) TIMEOUT ;;
         modify_session (set_research_id (Some (id interaction))) ;;
         modify_session (set_research_text
           (Some (let t := get_text (outputs interaction) in
                  if truthy t then t
                  else ("Status: " ++ status interaction)%string))) ;;
         st_rerun)
        (fun e => emit (UiError ("Error during research: " ++ e)%string))
    else ret tt
  else ret tt.

Definition show_research : M unit :=
  s <- get_session ;;
  if truthy_opt (research_text s) then
    emit UiDivider ;;
    emit (UiSubheader "Research Results") ;;
    emit (UiMarkdown (fmt (research_text s)))
  else ret tt.

Definition synthesis_prompt (research_text : option string) : string :=
  ("Create executive report with Summary, Findings, Recommendations, Risks:"
   ++ NL ++ NL ++ fmt research_text)%string.

Definition infographic_prompt (synthesis_text : option string) : string :=
  ("Create a whiteboard summary infographic for the following: "
   ++ fmt synthesis_text)%string.

(** The loop over the parts: the data of the first part that carries
    inline data. *)
Fixpoint first_inline_data (parts : list Part) : option bytes :=
  match parts with
  | [] => None
  | part :: parts' =>
      match inline_data part with
      | Some blob => Some (data blob)
      | None => first_inline_data parts'
      end
  end.

(** The parts that the infographic step scans:
    [response.candidates[0].content.parts], when all three are there. *)
Definition response_parts (response : Response) : list Part :=
  match candidates response with
  | [] => []
  | candidate :: _ =>
      match content candidate with
      | Some c => parts c
      | None => []
      end
  end.

(** Phase 3: Synthesis + Infographic. *)
Definition phase_report (inp : Inputs) (client : Client) : M unit :=
  s <- get_session ;;
  if truthy_opt (research_id s) then
    if st_button inp BtnGenerateReport false then
      try_except
        (s <- get_session ;;
         interaction <- client_create client
           (mkCreate (Some MODEL_SYNTHESIS) None
                     (synthesis_prompt (research_text s))
                     [] (research_id s) false true) ;;
         modify_session (set_synthesis_text (Some (get_text (outputs interaction)))))
        (fun e => emit (UiError ("Error during synthesis: " ++ e)%string) ;;
                  st_stop) ;;
      try_except
        (s <- get_session ;;
         response <- client_generate_content client MODEL_IMAGE
                       (infographic_prompt (synthesis_text s)) ;;
         match first_inline_data (response_parts response) with
         | Some d => modify_session (set_infographic (Some d))
         | None => ret tt
         end)
        (fun e => emit (UiWarning
                    ("Infographic generation failed (optional step): " ++ e)%string)) ;;
      st_rerun
    else ret tt
  else ret tt.

Definition show_report : M unit :=
  s <- get_session ;;
  if truthy_opt (synthesis_text s) then
    emit UiDivider ;;
    emit UiReportHeading ;;
    (if truthy_bytes (infographic s) then
       emit UiTldrHeading ;;
       emit (UiImage (match infographic s with Some b => b | None => [] end)) ;;
       emit UiDivider
     else ret tt) ;;
    emit (UiMarkdown (fmt (synthesis_text s))) ;;
    emit (UiDownload (fmt (synthesis_text s)) "research_report.md" "text/markdown")
  else ret tt.

(** The body of [main] after [init_session_state()]. *)
Definition script (inp : Inputs) (client : Client) : M unit :=
  (if st_button inp BtnReset false then reset_session_state else ret tt) ;;
  emit UiHowItWorks ;;
  (if negb (truthy (api_key inp)) then
     emit (UiInfo "Enter API key to start") ;; st_stop
   else ret tt) ;;
  phase_plan inp client ;;
  phase_research inp client ;;
  show_research ;;
  phase_report inp client ;;
  show_report ;;
  emit UiDivider ;;
  emit (UiCaption "[Gemini Interactions API](https://ai.google.dev/gemini-api/docs/interactions)").

(** One run of the script on the session store it finds ([None]: the
    first run of a session).  [client] is the [genai.Client] that the
    run creates from the API key. *)
Definition main (inp : Inputs) (client : Client) (store : option SessionState)
  : outcome unit * World :=
  (emit UiTitle ;; script inp client)
    (mkWorld (init_session_state store) [] 0 0%Z).

(** The session store that a run leaves behind. *)
Definition run (inp : Inputs) (client : Client) (store : option SessionState)
  : SessionState :=
  session (snd (main inp client store)).

(** The states of the session store that runs of the script can produce. *)
Inductive reachable : SessionState -> Prop :=
| reach_first inp client : reachable (run inp client None)
| reach_next s inp client :
    reachable s -> reachable (run inp client (Some s)).

End Orchestrator.

(* ===================================================================== *)
(** * utils.py: the document exporters                                    *)
(* ===================================================================== *)

(** The exporters take any Python [str]: a text is a list of Unicode code
    points. *)
Module Utils.
Local Open Scope N_scope.

Definition text : Type := list N.

Definition of_string (s : string) : text :=
  map N_of_ascii (list_ascii_of_string s).

Definition LF : N := 10.

Definition is_nl (c : N) : bool := c =? LF.

(** [str.isspace] of one character, as [str.strip] uses it. *)
Definition is_space (c : N) : bool :=
  ((9 <=? c) && (c <=? 13)) || ((28 <=? c) && (c <=? 32))
  || (c =? 133) || (c =? 160) || (c =? 5760)
  || ((8192 <=? c) && (c <=? 8202))
  || (c =? 8232) || (c =? 8233) || (c =? 8239) || (c =? 8287)
  || (c =? 12288).

Fixpoint lstrip (l : text) : text :=
  match l with
  | c :: l' => if is_space c then lstrip l' else l
  | [] => []
  end.

Definition strip (l : text) : text := rev (lstrip (rev (lstrip l))).

(** [s.split('\n')]. *)
Fixpoint split_lines (l : text) : list text :=
  match l with
  | [] => [[]]
  | c :: l' =>
      match split_lines l' with
      | line :: lines => if is_nl c then [] :: line :: lines
                         else (c :: line) :: lines
      | [] => [[c]]
      end
  end.

Fixpoint startswith (prefix l : text) : bool :=
  match prefix, l with
  | [], _ => true
  | p :: prefix', c :: l' => (p =? c) && startswith prefix' l'
  | _ :: _, [] => false
  end.

Definition endswith (suffix l : text) : bool :=
  startswith (rev suffix) (rev l).

(** [s.replace(cc, '')] for a two-character [cc] made of [c] twice. *)
Fixpoint remove_pairs (c : N) (l : text) : text :=
  match l with
  | x :: ((y :: l') as t) =>
      if (x =? c) && (y =? c) then remove_pairs c l'
      else x :: remove_pairs c t
  | _ => l
  end.

Definition is_empty (l : text) : bool :=
  match l with [] => true | _ :: _ => false end.

(** ** clean_text *)

Definition latin1 (c : N) : bool := c <=? 255.

Definition QUESTION_MARK : N := 63.

(** [text.encode('latin-1', 'replace').decode('latin-1')]: a character
    without a latin-1 code becomes [?]. *)
Definition clean_text (t : text) : text :=
  map (fun c => if latin1 c then c else QUESTION_MARK) t.

(** A text that can be written in latin-1. *)
Definition encodable (t : text) : Prop := forallb latin1 t = true.

(** ** generate_pdf *)

(** The calls that the code of the repository makes on the [FPDF]
    object: [generate_pdf] itself, and [PDF.header] and [PDF.footer] when
    the library calls them. *)
Inductive PdfCall : Type :=
| AddPage
| SetAutoPageBreak (margin : Z)
| SetFont (style : string) (size : Z)   (* family Helvetica *)
| SetX (x : Z)
| SetY (y : Z)
| Ln (h : Z)
| Cell (w h : Z) (txt : text)
| MultiCell (w h : Z) (txt : text)
| Output.

Definition call_text (c : PdfCall) : text :=
  match c with
  | Cell _ _ txt | MultiCell _ _ txt => txt
  | _ => []
  end.

(** What happens on the object, in the order in which it begins: a call
    that [generate_pdf] makes, or a call of [PDF.header] or [PDF.footer]
    by the library, with the calls that the method makes.  What the
    library does inside itself is not recorded. *)
Inductive Event : Type :=
| Call (c : PdfCall)
| Header (calls : list PdfCall)
| Footer (calls : list PdfCall).

(** The object: what has happened on it, and [self.page], the number of
    the current page (0 before the first page). *)
Record Pdf : Type := mkPdf { events : list Event; page : nat }.

(** [PDF.header] and [PDF.footer]; [page_no] is [self.page_no()]. *)
Definition header : list PdfCall :=
  [SetFont "B" 12; Cell 0 10 (of_string "Research Report"); Ln 5].

Definition decimal (n : nat) : string :=
  DecimalString.NilZero.string_of_uint (Nat.to_uint n).

Definition footer (page_no : nat) : list PdfCall :=
  [SetY (-15); SetFont "I" 8;
   Cell 0 10 (of_string ("Page " ++ decimal page_no))].

Definition and_then {A B} (r : result A) (k : A -> result B) : result B :=
  match r with
  | Ok a => k a
  | Failed msg => Failed msg
  end.

(** The library behind the calls.  Three things are modelled of fpdf2.

    - With a core font such as Helvetica it writes the text of a cell in
      latin-1 and raises [FPDFUnicodeEncodingException], before it
      writes anything, for a text with a character that has no latin-1
      code.
    - It calls [header()] on every page it starts and [footer()] on
      every page it ends: [add_page] ends the current page, if there is
      one, and starts the next; [output] ends the last page.
    - While it writes a [multi_cell] it starts a new page whenever the
      next line of the cell does not fit on the current one (the
      automatic page break).  Where that happens depends on the fonts
      and on the page geometry, which are not modelled: [page_breaks]
      tells how many pages the library starts during a call, given what
      happened on the object before.  The properties below hold for
      every such function.  The cell of [header] is written at the top
      of a page and that of [footer] with page breaks switched off, so
      neither starts a page. *)
Section Library.
Variable page_breaks : list Event -> PdfCall -> nat.

Definition accepted (c : PdfCall) : bool := forallb latin1 (call_text c).

Definition unicode_error {A} : result A :=
  Failed "FPDFUnicodeEncodingException".

(** The library calls [self.footer()] on the current page, and
    [self.header()] on the page it has just started. *)
Definition call_footer (pdf : Pdf) : result Pdf :=
  if forallb accepted (footer (page pdf))
  then Ok (mkPdf (events pdf ++ [Footer (footer (page pdf))]) (page pdf))
  else unicode_error.

Definition call_header (pdf : Pdf) : result Pdf :=
  if forallb accepted header
  then Ok (mkPdf (events pdf ++ [Header header]) (page pdf))
  else unicode_error.

(** What [FPDF.add_page] does: the footer of the page that ends, the
    new page, its header. *)
Definition new_page (pdf : Pdf) : result Pdf :=
  and_then (match page pdf with
            | O => Ok pdf
            | S _ => call_footer pdf
            end) (fun pdf =>
  call_header (mkPdf (events pdf) (S (page pdf)))).

Fixpoint new_pages (k : nat) (pdf : Pdf) : result Pdf :=
  match k with
  | O => Ok pdf
  | S k' => and_then (new_page pdf) (new_pages k')
  end.

(** [fpdf pdf c]: [generate_pdf] makes the call [c] on the object. *)
Definition fpdf (pdf : Pdf) (c : PdfCall) : result Pdf :=
  if accepted c then
    let pdf' := mkPdf (events pdf ++ [Call c]) (page pdf) in
    match c with
    | AddPage => new_page pdf'
    | MultiCell _ _ _ => new_pages (page_breaks (events pdf) c) pdf'
    | Output => call_footer pdf'
    | _ => Ok pdf'
    end
  else unicode_error.

Fixpoint fpdf_all (pdf : Pdf) (cs : list PdfCall) : result Pdf :=
  match cs with
  | [] => Ok pdf
  | c :: cs' => and_then (fpdf pdf c) (fun pdf' => fpdf_all pdf' cs')
  end.
End Library.

Definition BULLET : N := 149.   (* "\x95" *)
Definition SPACE : N := 32.
Definition HASH : N := 35.
Definition ASTERISK : N := 42.
Definition HYPHEN : N := 45.
Definition UNDERSCORE : N := 95.

(** The body of the [for line in lines] loop of [generate_pdf]: the calls
    it makes for one line. *)
Definition pdf_line (line0 : text) : list PdfCall :=
  let line := clean_text line0 in
  if is_empty (strip line) then [Ln 5]
  else if startswith [HASH; SPACE] line then
    [SetFont "B" 16; MultiCell 0 10 (strip (skipn 2 line)); SetFont "" 12]
  else if startswith [HASH; HASH; SPACE] line then
    [SetFont "B" 14; MultiCell 0 10 (strip (skipn 3 line)); SetFont "" 12]
  else if startswith [HASH; HASH; HASH; SPACE] line then
    [SetFont "B" 13; MultiCell 0 10 (strip (skipn 4 line)); SetFont "" 12]
  else if startswith [ASTERISK; SPACE] line || startswith [HYPHEN; SPACE] line then
    [SetX 20; MultiCell 0 8 (BULLET :: SPACE :: strip (skipn 2 line))]
  else
    let clean_line := remove_pairs UNDERSCORE (remove_pairs ASTERISK line) in
    [MultiCell 0 8 clean_line].

(** [generate_pdf]: what has happened on the object when [pdf.output()]
    returns the bytes of the document, or the exception of the library. *)
Definition generate_pdf (page_breaks : list Event -> PdfCall -> nat) (t : text)
  : result (list Event) :=
  and_then (fpdf_all page_breaks (mkPdf [] 0)
              [AddPage; SetAutoPageBreak 15; SetFont "" 12]) (fun pdf =>
  and_then (fold_left
              (fun r line =>
                 and_then r (fun pdf => fpdf_all page_breaks pdf (pdf_line line)))
              (split_lines t) (Ok pdf)) (fun pdf =>
  and_then (fpdf page_breaks pdf Output) (fun pdf =>
  Ok (events pdf)))).

(** ** generate_docx *)

Record Run : Type := mkRun { run_text : text; bold : bool }.

Inductive Block : Type :=
| Heading (level : nat) (txt : text)
| Paragraph (style : option string) (runs : list Run).

(** [doc.add_paragraph(text, style=...)]: a paragraph, with one run when
    the text is not empty. *)
Definition add_paragraph (txt : text) (style : option string) : Block :=
  Paragraph style (if is_empty txt then [] else [mkRun txt false]).

(** [.] without [re.DOTALL]. *)
Definition not_nl (c : N) : bool := negb (is_nl c).

Definition is_asterisk (c : N) : bool := c =? ASTERISK.

(** The pattern of [re.split]: one capturing group around two asterisks,
    any characters (as few as possible) and two asterisks again. *)
Definition bold_pattern : Re.regex N :=
  Re.Group 1
    (Re.Seq (Re.Cls is_asterisk) (Re.Seq (Re.Cls is_asterisk)
      (Re.Seq (Re.Star false not_nl)
        (Re.Seq (Re.Cls is_asterisk) (Re.Cls is_asterisk))))).

(** [part[2:-2]]. *)
Definition slice_2_m2 (part : text) : text :=
  firstn (length part - 2 - 2) (skipn 2 part).

(** One [p.add_run(...)] per part. *)
Definition run_of_part (part : text) : Run :=
  if startswith [ASTERISK; ASTERISK] part && endswith [ASTERISK; ASTERISK] part
  then mkRun (slice_2_m2 part) true
  else mkRun part false.

Definition docx_line (line : text) : list Block :=
  if is_empty (strip line) then []
  else if startswith [HASH; SPACE] line then
    [Heading 1 (strip (skipn 2 line))]
  else if startswith [HASH; HASH; SPACE] line then
    [Heading 2 (strip (skipn 3 line))]
  else if startswith [HASH; HASH; HASH; SPACE] line then
    [Heading 3 (strip (skipn 4 line))]
  else if startswith [ASTERISK; SPACE] line || startswith [HYPHEN; SPACE] line then
    [add_paragraph (strip (skipn 2 line)) (Some "List Bullet"%string)]
  else
    let parts := Re.split is_nl bold_pattern line in
    [Paragraph None (map run_of_part parts)].

(** [generate_docx]: the blocks of the document ([doc.save] serialises
    them into the stream). *)
Definition generate_docx (t : text) : list Block :=
  Heading 0 (of_string "Research Report")
  :: flat_map docx_line (split_lines t).

End Utils.

(* ===================================================================== *)
(** * Text in general: code points                                        *)
(* ===================================================================== *)

(** A Python [str] is a sequence of code points.  For them [\d] is the
    class of the decimal digits of every script (the characters of
    general category Nd; below are those of Unicode 14, each of the
    zeros listed followed by its digits one to nine), and [\s] is the
    white space of [str.isspace], which [Utils] has for [str.strip]. *)
Module Unicode.
Import Utils.
Local Open Scope N_scope.

Definition digit_zeros : list N :=
  [48; 1632; 1776; 1984; 2406; 2534; 2662; 2790; 2918; 3046; 3174; 3302;
   3430; 3558; 3664; 3792; 3872; 4160; 4240; 6112; 6160; 6470; 6608; 6784;
   6800; 6992; 7088; 7232; 7248; 42528; 43216; 43264; 43472; 43504; 43600;
   44016; 65296; 66720; 68912; 69734; 69872; 69942; 70096; 70384; 70736;
   70864; 71248; 71360; 71472; 71904; 72016; 72784; 73040; 73120; 92768;
   92864; 93008; 120782; 120792; 120802; 120812; 120822; 123200; 123632;
   125264; 130032].

Definition is_digit (c : N) : bool :=
  existsb (fun zero => (zero <=? c) && (c <=? zero + 9)) digit_zeros.

(** The class [[\.\)\-]]. *)
Definition is_sep (c : N) : bool := (c =? 46) || (c =? 41) || (c =? 45).

Definition alphabet : Grammar.Alphabet :=
  Grammar.mkAlphabet N is_nl is_digit is_space is_sep LF SPACE.

(** [parse_tasks] on any text: the [num] and the [text] of each task. *)
Definition parse_tasks (t : text) : list (text * text) :=
  Grammar.parse_tasks alphabet t.
End Unicode.

(* ===================================================================== *)
(** * Vocabulary of the properties                                        *)
(* ===================================================================== *)

Unset Implicit Arguments.

Module PollerSpec.
Import Poller.
Local Open Scope Z_scope.

(** [ceil(a / b)] for a positive [b]. *)
Definition ceil_div (a b : Z) : Z := (a + b - 1) / b.

(** What the status client answers to its [n]-th query made at time [u]. *)
Definition in_progress_at (client : Client) (job : string) (n : nat) (u : Z)
  : Prop :=
  exists i, interactions_get client n u job = Ok i
            /\ status i = "in_progress"%string.

Definition done_at (client : Client) (job : string) (n : nat) (u : Z) : Prop :=
  exists i, interactions_get client n u job = Ok i
            /\ status i <> "in_progress"%string.

(** The job leaves [in_progress] at time [t]: queried before [t] the
    client reports [in_progress], queried at [t] or later it reports
    another status. *)
Definition completes_at (client : Client) (job : string) (t : Z) : Prop :=
  (forall n u, u < t -> in_progress_at client job n u)
  /\ (forall n u, t <= u -> done_at client job n u).

Definition always_in_progress (client : Client) (job : string) : Prop :=
  forall n u, in_progress_at client job n u.

(** The number of status queries of one call of the poller. *)
Definition queries_made (client : Client) (job : string) (timeout : Z)
           (w : World) : nat :=
  (gets (snd (wait_for_completion client job timeout w)) - gets w)%nat.

(** The seconds one call of the poller spends waiting. *)
Definition time_waited (client : Client) (job : string) (timeout : Z)
           (w : World) : Z :=
  clock (snd (wait_for_completion client job timeout w)) - clock w.

(** The world after [k] passes of the loop that found the job in
    progress, the first of them at [elapsed]. *)
Fixpoint waited (timeout : Z) (k : nat) (elapsed : Z) (w : World) : World :=
  match k with
  | O => w
  | S k' =>
      waited timeout k' (elapsed + POLLING_INTERVAL)
        (mkWorld (session w)
                 (UiStatusText elapsed
                  :: UiProgress (PctWaiting elapsed timeout) :: ui w)
                 (S (gets w)) (clock w + POLLING_INTERVAL))
  end.

(** The world in which the loop starts: progress bar and status text are
    in place. *)
Definition started (w : World) : World :=
  mkWorld (session w) (UiStatusEmpty :: UiProgress (Pct 0) :: ui w)
          (gets w) (clock w).

Definition is_error (e : UiEvent) : bool :=
  match e with UiError _ => true | _ => false end.

(** A status client for examples: in progress before time [t], then
    completed. *)
Definition job_in_progress : Interaction := mkInteraction "job" "in_progress" [].
Definition job_completed : Interaction :=
  mkInteraction "job" "completed" [Some "done"%string].

Definition client_done_from (t : Z) : Client :=
  mkClient (fun _ => Failed "unused")
           (fun _ u _ => if u <? t then Ok job_in_progress else Ok job_completed)
           (fun _ _ => Failed "unused").

Definition client_never_done : Client :=
  mkClient (fun _ => Failed "unused")
           (fun _ _ _ => Ok job_in_progress)
           (fun _ _ => Failed "unused").

(** A status client whose third query fails; [recovers] tells whether
    the query after it succeeds. *)
Definition client_failing_once (recovers : bool) : Client :=
  mkClient (fun _ => Failed "unused")
           (fun n _ _ =>
              if (n <? 2)%nat then Ok job_in_progress
              else if (n =? 2)%nat then Failed "503"
              else if recovers then Ok job_in_progress
              else Failed "504")
           (fun _ _ => Failed "unused").

Definition world0 : World :=
  mkWorld Orchestrator.defaults [] 0 0.
End PollerSpec.

Module ParserSpec.
Import Re Grammar.

(** What the properties use of the classes of an alphabet: a separator
    is neither a digit nor white space, a digit is not white space, a
    line feed is white space; [line_feed] is a line feed and [blank] is
    not. *)
Record Lawful (A : Alphabet) : Prop := mkLawful {
  sep_not_digit : forall c, separator A c = true -> digit A c = false;
  sep_not_space : forall c, separator A c = true -> whitespace A c = false;
  digit_not_space : forall c, digit A c = true -> whitespace A c = false;
  nl_is_space : forall c, newline A c = true -> whitespace A c = true;
  line_feed_is_nl : newline A (line_feed A) = true;
  blank_not_nl : newline A (blank A) = false
}.

Definition nonempty {X} (l : list X) : bool :=
  match l with [] => false | _ :: _ => true end.

(** The character before the position reached after reading [a]. *)
Definition prev_after {C} (pr : option C) (a : list C) : option C :=
  fold_left (fun _ c => Some c) a pr.

(** [z] is the first way in [zs], the one [re] takes. *)
Definition first_is {X} (zs : list X) (z : X) : Prop :=
  exists others, zs = z :: others.

(** The regular expression has no capturing group. *)
Fixpoint groupless {C} (r : regex C) : bool :=
  match r with
  | Seq r1 r2 | Alt r1 r2 => groupless r1 && groupless r2
  | Group _ _ => false
  | Look r1 => groupless r1
  | _ => true
  end.

Section Items.
Variable A : Alphabet.

(** A numbered item as it is written in a plan: the digits of its
    number, the separator, the body (all that follows the separator up
    to the line feed before the next item, to a blank line, or to the
    end of the text), and what stands between a blank line after the
    item and the next item. *)
Record Item : Type := mkItem {
  item_num : list (char A);
  item_sep : char A;
  item_body : list (char A);
  item_after : list (char A)
}.

Definition item_text (it : Item) : list (char A) :=
  item_num it ++ item_sep it :: item_body it.

(** [l] goes on with digits, none or some, and a separator; [l] starts
    with a number and a separator; [l] starts with a line feed. *)
Fixpoint digits_then_sep (l : list (char A)) : bool :=
  match l with
  | c :: l' => separator A c || (digit A c && digits_then_sep l')
  | [] => false
  end.

Definition starts_item (l : list (char A)) : bool :=
  match l with
  | c :: l' => digit A c && digits_then_sep l'
  | [] => false
  end.

Definition starts_nl (l : list (char A)) : bool :=
  match l with
  | c :: _ => newline A c
  | [] => false
  end.

(** At the start of [l] stands a line feed followed by a number and a
    separator, or by a second line feed: a new item or a blank line. *)
Definition breaks (l : list (char A)) : bool :=
  match l with
  | c :: l' => newline A c && (starts_item l' || starts_nl l')
  | [] => false
  end.

(** The text of a task can end before [l]: [l] is empty or breaks. *)
Definition ends_here (l : list (char A)) : bool :=
  match l with
  | [] => true
  | _ :: _ => breaks l
  end.

(** A text without a blank line and without a later line that starts
    with a number and a separator. *)
Fixpoint continues (b : list (char A)) : bool :=
  match b with
  | _ :: t => negb (breaks b) && continues t
  | [] => true
  end.

(** A text with a first and a last character, neither of them white
    space. *)
Definition trimmed (b : list (char A)) : bool :=
  match b with
  | c :: _ => negb (whitespace A c) && negb (whitespace A (last b c))
  | [] => false
  end.

(** A text of lines none of which starts with a number and a
    separator.  [bol] tells whether [l] starts at the start of a line.
    A quiet text, in addition, ends with the line feed of its last
    line, so that what follows it starts a line. *)
Fixpoint silent_from (bol : bool) (l : list (char A)) : bool :=
  match l with
  | c :: l' => negb (bol && starts_item l) && silent_from (newline A c) l'
  | [] => true
  end.

Fixpoint quiet_from (bol : bool) (l : list (char A)) : bool :=
  match l with
  | c :: l' => negb (bol && starts_item l) && quiet_from (newline A c) l'
  | [] => bol
  end.

Definition quiet (l : list (char A)) : bool := quiet_from true l.

(** What may stand between the line of an item and the next item:
    nothing, or a blank line and quiet lines. *)
Definition interlude (l : list (char A)) : bool :=
  match l with
  | [] => true
  | c :: _ => newline A c && quiet l
  end.

(** What may stand behind the last item: nothing, or a blank line and a
    text without a line that starts with a number and a separator. *)
Definition closing (l : list (char A)) : bool :=
  match l with
  | [] => true
  | c :: q => newline A c && starts_nl q && silent_from true q
  end.

(** A well-formed item: one digit or more, at once a separator, and a
    body that is not only white space and that, trimmed, holds neither a
    blank line nor a later line that starts with a number and a
    separator. *)
Definition well_formed (it : Item) : bool :=
  nonempty (item_num it) && forallb (digit A) (item_num it)
  && separator A (item_sep it)
  && nonempty (strip A (item_body it))
  && continues (strip A (item_body it))
  && interlude (item_after it).

(** The text of a plan: its items, each from the start of a line, with
    what stands between them, and [post] behind the last. *)
Fixpoint render (items : list Item) (post : list (char A)) : list (char A) :=
  match items with
  | [] => post
  | it :: more =>
      item_text it
      ++ match more with
         | [] => post
         | _ :: _ => line_feed A :: item_after it ++ render more post
         end
  end.

(** The task that an item stands for: its number as written, and its
    body trimmed, with its lines joined by spaces. *)
Definition expected (it : Item) : list (char A) * list (char A) :=
  (item_num it, join_lines A (strip A (item_body it))).
End Items.

Arguments item_num {A}.
Arguments item_sep {A}.
Arguments item_body {A}.
Arguments item_after {A}.
Arguments item_text {A}.

(** The plan of the specification's example. *)
Definition plan_example : string :=
  ("1. Find data - details" ++ NL ++ "2) Check sources" ++ NL ++ NL
   ++ "3 - Summarize")%string.

(** The same plan with the separator of the third item next to its
    number, after a line of introduction, with white space at the end of
    a line, a remark between two items and a last line behind them; the
    bodies hold what stands between the separators and the next line
    feed that ends them. *)
Definition plan_intro : list ascii :=
  list_ascii_of_string ("Here is the plan:" ++ NL ++ NL)%string.

Definition plan_items : list (Item Chars.alphabet) :=
  [mkItem Chars.alphabet ["1"%char] "."%char
          (list_ascii_of_string " Find data - details  ") [];
   mkItem Chars.alphabet ["2"%char] ")"%char
          (list_ascii_of_string " Check sources")
          (list_ascii_of_string (NL ++ "(see the notes)" ++ NL)%string);
   mkItem Chars.alphabet ["3"%char] "-"%char
          (list_ascii_of_string " Summarize") []].

Definition plan_end : list ascii :=
  list_ascii_of_string (NL ++ NL ++ "Good luck")%string.

(** A plan numbered with Arabic-Indic digits (U+0661, U+0660), whose
    first item goes on with a line that starts with a number but has no
    separator. *)
Definition plan_items_unicode : list (Item Unicode.alphabet) :=
  [mkItem Unicode.alphabet [1633%N] 46%N
          (Utils.of_string (" first" ++ NL ++ "2 more")%string) [];
   mkItem Unicode.alphabet [1633%N; 1632%N] 41%N
          (Utils.of_string "second  ") []].
End ParserSpec.

Module OrchestratorSpec.
Import Orchestrator.

(** A field of the session store is set when it is not [None]. *)
Definition is_set {A} (o : option A) : Prop := o <> None.

(** The tasks whose check boxes are ticked, as [selected_tasks] lists
    them for the research prompt. *)
Fixpoint selected (inp : Inputs) (tasks : list Task) (acc : list string)
  : list string :=
  match tasks with
  | [] => acc
  | task :: tasks' =>
      selected inp tasks'
        (if checkbox inp ("t" ++ num task)%string
         then acc ++ [(num task ++ ". " ++ text task)%string]
         else acc)
  end.

(** The check boxes of the tasks get distinct keys, none of them in
    [keys]. *)
Fixpoint keys_distinct (tasks : list Task) (keys : list string) : bool :=
  match tasks with
  | [] => true
  | task :: tasks' =>
      negb (existsb (String.eqb ("t" ++ num task)%string) keys)
      && keys_distinct tasks' (("t" ++ num task)%string :: keys)
  end.

(** The script gets past the task selection: there is no plan to select
    from, or the check boxes can all be made. *)
Definition widgets_ok (s : SessionState) : bool :=
  negb (truthy_opt (plan_text s)) || keys_distinct (tasks s) [].

(** The requests of the three phases. *)
Definition plan_request (research_goal : string) : CreateRequest :=
  mkCreate (Some MODEL_PLANNER) None (plan_prompt research_goal)
           ["google_search"%string] None false true.

Definition research_request (inp : Inputs) (s : SessionState) : CreateRequest :=
  mkCreate None (Some MODEL_RESEARCH_AGENT)
           (research_prompt
              (String.concat (NL ++ NL)%string (selected inp (tasks s) [])))
           [] (plan_id s) true true.

Definition synthesis_request (s : SessionState) : CreateRequest :=
  mkCreate (Some MODEL_SYNTHESIS) None (synthesis_prompt (research_text s))
           [] (research_id s) false true.

(** The session store after a plan, after a research and after a
    synthesis that succeeded. *)
Definition planned (i : Interaction) (s : SessionState) : SessionState :=
  mkSession (Some (id i)) (Some (get_text (outputs i)))
            (Parser.parse_tasks (get_text (outputs i)))
            (research_id s) (research_text s) (synthesis_text s)
            (infographic s).

Definition research_result (i : Interaction) : string :=
  let t := get_text (outputs i) in
  if truthy t then t else ("Status: " ++ status i)%string.

Definition researched (i : Interaction) (s : SessionState) : SessionState :=
  mkSession (plan_id s) (plan_text s) (tasks s)
            (Some (id i)) (Some (research_result i))
            (synthesis_text s) (infographic s).

Definition synthesized (i : Interaction) (s : SessionState) : SessionState :=
  mkSession (plan_id s) (plan_text s) (tasks s)
            (research_id s) (research_text s)
            (Some (get_text (outputs i))) (infographic s).

(** The image that the infographic step stores: the inline data of the
    first part that has some, when the call succeeds. *)
Definition new_infographic (r : result Response) : option bytes :=
  match r with
  | Ok response => first_inline_data (response_parts response)
  | Failed _ => None
  end.

Definition with_infographic (img : option bytes) (s : SessionState)
  : SessionState :=
  match img with
  | Some d => set_infographic (Some d) s
  | None => s
  end.

(** What phase 1 does to the session store: nothing, unless the plan
    button is pressed and the planning call succeeds. *)
Definition plan_effect (inp : Inputs) (client : Client) (s : SessionState)
  : SessionState :=
  if st_button inp BtnGeneratePlan (negb (truthy (research_goal inp))) then
    match interactions_create client (plan_request (research_goal inp)) with
    | Ok i => planned i s
    | Failed _ => s
    end
  else s.

(** What phase 2 does to the session store: nothing, or the result [j]
    of polling the research interaction [i] that the service created. *)
Definition research_effect (inp : Inputs) (client : Client)
           (s s' : SessionState) : Prop :=
  s' = s
  \/ (clicked inp = Some BtnStartResearch
      /\ truthy_opt (plan_text s) = true
      /\ keys_distinct (tasks s) [] = true
      /\ selected inp (tasks s) [] <> []
      /\ exists i j w,
           interactions_create client (research_request inp s) = Ok i
           /\ fst (Poller.wait_for_completion client (id i) TIMEOUT w) = Ret j
           /\ s' = researched j s).

(** What phase 3 does to the session store and how it ends. *)
Definition report_pressed (inp : Inputs) (s : SessionState) : bool :=
  truthy_opt (research_id s) && st_button inp BtnGenerateReport false.

Definition image_request (client : Client) (i : Interaction) : result Response :=
  models_generate_content client MODEL_IMAGE
    (infographic_prompt (Some (get_text (outputs i)))).

Definition report_effect (inp : Inputs) (client : Client) (s : SessionState)
  : SessionState :=
  if report_pressed inp s then
    match interactions_create client (synthesis_request s) with
    | Ok i => with_infographic (new_infographic (image_request client i))
                               (synthesized i s)
    | Failed _ => s
    end
  else s.

Definition report_outcome (inp : Inputs) (client : Client) (s : SessionState)
  : outcome unit :=
  if report_pressed inp s then
    match interactions_create client (synthesis_request s) with
    | Ok _ => Raise RerunException
    | Failed _ => Raise StopException
    end
  else Ret tt.

(** The message that phase 3 shows when one of its two calls fails. *)
Definition report_messages (inp : Inputs) (client : Client) (s : SessionState)
  : list UiEvent :=
  if report_pressed inp s then
    match interactions_create client (synthesis_request s) with
    | Ok i =>
        match image_request client i with
        | Ok _ => []
        | Failed msg =>
            [UiWarning
               ("Infographic generation failed (optional step): " ++ msg)%string]
        end
    | Failed msg => [UiError ("Error during synthesis: " ++ msg)%string]
    end
  else [].

(** What one run of the script does to the session store. *)
Definition run_effect (inp : Inputs) (client : Client) (s s' : SessionState)
  : Prop :=
  match clicked inp with
  | Some BtnReset => s' = defaults
  | c =>
      if truthy (api_key inp) then
        match c with
        | Some BtnGeneratePlan => s' = plan_effect inp client s
        | Some BtnStartResearch => research_effect inp client s s'
        | Some BtnGenerateReport =>
            s' = if widgets_ok s then report_effect inp client s else s
        | _ => s' = s
        end
      else s' = s
  end.

(** The Start Research button can be pressed and is pressed. *)
Definition research_triggered (inp : Inputs) (s : SessionState) : Prop :=
  clicked inp = Some BtnStartResearch
  /\ truthy (api_key inp) = true
  /\ truthy_opt (plan_text s) = true
  /\ selected inp (tasks s) [] <> [].

(** The phase-order invariant of the session store, with the link
    between the two plan fields that the script relies on. *)
Definition phase_order (s : SessionState) : Prop :=
  (is_set (research_id s) -> is_set (plan_id s))
  /\ (is_set (synthesis_text s) -> is_set (research_id s)).

Definition plan_fields_linked (s : SessionState) : Prop :=
  is_set (plan_text s) -> is_set (plan_id s).

Definition well_ordered (s : SessionState) : Prop :=
  plan_fields_linked s /\ phase_order s.

(** A store that a run can find: the empty one, or one that runs made. *)
Definition found (store : option SessionState) : Prop :=
  match store with
  | None => True
  | Some s => reachable s
  end.

(** What the report section of a run shows: the events between the
    report heading and the download button. *)
Definition report_shown (s : SessionState) : list UiEvent :=
  if truthy_opt (synthesis_text s) then
    [UiDownload (fmt (synthesis_text s)) "research_report.md" "text/markdown";
     UiMarkdown (fmt (synthesis_text s))]
    ++ (if truthy_bytes (infographic s)
        then [UiDivider;
              UiImage (match infographic s with Some b => b | None => [] end);
              UiTldrHeading]
        else [])
    ++ [UiReportHeading; UiDivider]
  else [].

(** Inputs and clients for examples. *)
Definition all_ticked (_ : string) : bool := true.

Definition press (b : Button) : Inputs :=
  mkInputs "key" "Research the market" (Some b) all_ticked.

Definition plan_answer : Interaction :=
  mkInteraction "plan-1" "completed"
    [Some ("1. Find data - details" ++ NL ++ "2) Check sources")%string].

Definition research_answer : Interaction :=
  mkInteraction "research-1" "completed" [Some "findings"%string].

Definition report_answer : Interaction :=
  mkInteraction "report-1" "completed" [Some "the report"%string].

Definition image_answer : Response :=
  mkResponse [mkCandidate (Some (mkContent
    [mkPart None; mkPart (Some (mkBlob [Byte.x89; Byte.x50]))]))].

(** A service that answers every request; [image] is what the image
    model does. *)
Definition service (image : result Response) : Client :=
  mkClient
    (fun req =>
       match model req with
       | Some m =>
           if String.eqb m MODEL_PLANNER then Ok plan_answer
           else Ok report_answer
       | None => Ok research_answer
       end)
    (fun _ _ _ => Ok research_answer)
    (fun _ _ => image).

(** A service that is down. *)
Definition service_down : Client :=
  mkClient (fun _ => Failed "unavailable")
           (fun _ _ _ => Failed "unavailable")
           (fun _ _ => Failed "unavailable").

(** The session store after a plan, after the research and after a
    report with its infographic, each made with [service]. *)
Definition session_planned : SessionState :=
  mkSession (Some "plan-1"%string)
            (Some ("1. Find data - details" ++ NL ++ "2) Check sources")%string)
            [mkTask "1" "Find data - details"; mkTask "2" "Check sources"]
            None None None None.

Definition session_researched : SessionState :=
  mkSession (Some "plan-1"%string)
            (Some ("1. Find data - details" ++ NL ++ "2) Check sources")%string)
            [mkTask "1" "Find data - details"; mkTask "2" "Check sources"]
            (Some "research-1"%string) (Some "findings"%string) None None.

(** A store whose plan numbers two tasks alike. *)
Definition session_twins : SessionState :=
  mkSession (Some "plan-2"%string)
            (Some ("1. Find data" ++ NL ++ "1. Check sources")%string)
            [mkTask "1" "Find data"; mkTask "1" "Check sources"]
            (Some "research-2"%string) (Some "findings"%string) None None.

Definition session_reported : SessionState :=
  mkSession (Some "plan-1"%string)
            (Some ("1. Find data - details" ++ NL ++ "2) Check sources")%string)
            [mkTask "1" "Find data - details"; mkTask "2" "Check sources"]
            (Some "research-1"%string) (Some "findings"%string)
            (Some "the report"%string) (Some [Byte.x89; Byte.x50]).
End OrchestratorSpec.

Module UtilsSpec.
Import Utils.









(** A library that starts a new page during every second cell of
    running text. *)
Definition break_at_b (_ : list Event) (c : PdfCall) : nat :=
  match c with
  | MultiCell _ _ [98%N] => 1
  | _ => 0
  end.
End UtilsSpec.

(* ===================================================================== *)
(** * Vocabulary of further properties                                    *)
(* ===================================================================== *)

Module Shapes.
Import Re Chars Grammar.

(** The regular expression has a capturing group with number [n]. *)
Fixpoint captures {C} (n : nat) (r : regex C) : bool :=
  match r with
  | Seq r1 r2 | Alt r1 r2 => captures n r1 || captures n r2
  | Group k r1 => Nat.eqb k n || captures n r1
  | Look r1 => captures n r1
  | _ => false
  end.

(** A number as [parse_tasks] reports it: one character or more, all of
    them decimal digits. *)
Definition digits_only (A : Alphabet) (l : list (char A)) : Prop :=
  ParserSpec.nonempty l = true /\ forallb (digit A) l = true.

(** A text on one line, without white space at its ends. *)
Definition single_line (A : Alphabet) (l : list (char A)) : Prop :=
  forallb (fun c => negb (newline A c)) l = true.

Definition no_outer_space (A : Alphabet) (l : list (char A)) : Prop :=
  l = [] \/ ParserSpec.trimmed A l = true.

(** The shape of a task. *)
Definition task_shaped (A : Alphabet) (t : list (char A) * list (char A))
  : Prop :=
  digits_only A (fst t) /\ single_line A (snd t) /\ no_outer_space A (snd t).

(** The number of line feeds of a text. *)
Definition line_feeds (l : list ascii) : nat := length (filter is_nl l).

End Shapes.

Module StoreShapes.
Import Orchestrator OrchestratorSpec.

(** The check box of a task is ticked, and the line that stands for a
    task in the research prompt. *)
Definition ticked (inp : Inputs) (task : Task) : bool :=
  checkbox inp ("t" ++ num task)%string.

Definition listed (task : Task) : string :=
  (num task ++ ". " ++ text task)%string.

(** The fields of the session store fit together: the tasks are those of
    the stored plan, the two fields of a phase are set together, a stored
    research text is not empty, and an infographic comes with a report. *)
Definition coherent (s : SessionState) : Prop :=
  tasks s = match plan_text s with
            | Some t => Parser.parse_tasks t
            | None => []
            end
  /\ (is_set (plan_id s) <-> is_set (plan_text s))
  /\ (is_set (research_id s) <-> is_set (research_text s))
  /\ (is_set (research_text s) -> truthy_opt (research_text s) = true)
  /\ (is_set (infographic s) -> is_set (synthesis_text s)).

(** A status client whose every answer about [job] is a failure. *)
Definition status_unavailable (client : Client) (job : string) : Prop :=
  forall n t, exists msg, interactions_get client n t job = Failed msg.

(** A service that plans and starts jobs but cannot be asked for their
    status. *)
Definition service_without_status : Client :=
  mkClient (interactions_create (service (Failed "no image")))
           (fun _ _ _ => Failed "unavailable")
           (fun _ _ => Failed "no image").

End StoreShapes.

Module ExportShapes.
Import Utils.

(** A character that is not the asterisk of the bold markers, and one
    that is neither asterisk nor underscore. *)
Definition plain (c : N) : bool := negb (N.eqb c ASTERISK).

Definition unmarked (c : N) : bool :=
  negb (N.eqb c ASTERISK) && negb (N.eqb c UNDERSCORE).

(** A line that the exporters treat as blank. *)
Definition blank (line : text) : bool := is_empty (strip line).

(** The texts of the runs of a paragraph, one after the other. *)
Definition runs_text (runs : list Run) : text := concat (map run_text runs).

End ExportShapes.

(* ===================================================================== *)
(** * Properties of wait_for_completion                                   *)
(* ===================================================================== *)

Module PollerFacts.
Import Poller PollerSpec.
Local Open Scope Z_scope.

Section Loop.
Variable client : Client.
Variable job : string.
Variable timeout : Z.

Lemma loop_body_in_progress elapsed w i :
  interactions_get client (gets w) (clock w) job = Ok i ->
  status i = "in_progress"%string ->
  loop_body client job timeout elapsed w
  = (Ret (BContinue (elapsed + POLLING_INTERVAL)), waited timeout 1 elapsed w).
Proof.
  intros Hget Hst.
  unfold loop_body, try_except, bind, client_get, of_result.
  rewrite Hget. cbn. rewrite Hst. reflexivity.
Qed.

Lemma loop_body_done elapsed w i :
  interactions_get client (gets w) (clock w) job = Ok i ->
  status i <> "in_progress"%string ->
  loop_body client job timeout elapsed w
  = (Ret (BReturn i),
     mkWorld (session w) (UiStatusEmpty :: UiProgress (Pct 100) :: ui w)
             (S (gets w)) (clock w)).
Proof.
  intros Hget Hst.
  unfold loop_body, try_except, bind, client_get, of_result.
  rewrite Hget. cbn.
  destruct (String.eqb_spec (status i) "in_progress"); [contradiction|].
  reflexivity.
Qed.

Lemma loop_body_failed elapsed w msg :
  interactions_get client (gets w) (clock w) job = Failed msg ->
  loop_body client job timeout elapsed w
  = (Ret BBreak,
     mkWorld (session w)
             (UiError ("Error checking status: " ++ msg)%string :: ui w)
             (S (gets w)) (clock w)).
Proof.
  intros Hget.
  unfold loop_body, try_except, bind, client_get, of_result.
  rewrite Hget. reflexivity.
Qed.

Lemma waited_gets k : forall elapsed w,
  gets (waited timeout k elapsed w) = (gets w + k)%nat.
Proof.
  induction k as [|k IH]; intros; cbn [waited].
  - lia.
  - rewrite IH. cbn. lia.
Qed.

Lemma waited_clock k : forall elapsed w,
  clock (waited timeout k elapsed w) = clock w + POLLING_INTERVAL * Z.of_nat k.
Proof.
  induction k as [|k IH]; intros; cbn [waited].
  - lia.
  - rewrite IH. cbn [clock]. lia.
Qed.

Lemma waited_session k : forall elapsed w,
  session (waited timeout k elapsed w) = session w.
Proof.
  induction k as [|k IH]; intros; cbn [waited]; [reflexivity|].
  rewrite IH. reflexivity.
Qed.

Lemma waited_errors k : forall elapsed w,
  existsb is_error (ui (waited timeout k elapsed w)) = existsb is_error (ui w).
Proof.
  induction k as [|k IH]; intros; cbn [waited]; [reflexivity|].
  rewrite IH. reflexivity.
Qed.

(** [k] passes that all find the job in progress. *)
Lemma while_loop_waits k : forall fuel elapsed w,
  (forall j, (j < k)%nat ->
     elapsed + POLLING_INTERVAL * Z.of_nat j < timeout
     /\ in_progress_at client job (gets w + j)
                       (clock w + POLLING_INTERVAL * Z.of_nat j)) ->
  while_loop (k + fuel) client job timeout elapsed w
  = while_loop fuel client job timeout
               (elapsed + POLLING_INTERVAL * Z.of_nat k)
               (waited timeout k elapsed w).
Proof.
  induction k as [|k IH]; intros fuel elapsed w H.
  - cbn [waited Nat.add]. f_equal. lia.
  - destruct (H 0%nat ltac:(lia)) as [Hlt (i & Hget & Hst)].
    rewrite Z.mul_0_r, Z.add_0_r in Hlt, Hget. rewrite Nat.add_0_r in Hget.
    cbn [Nat.add while_loop].
    apply Z.ltb_lt in Hlt. rewrite Hlt.
    unfold bind at 1.
    rewrite (loop_body_in_progress elapsed w i Hget Hst).
    rewrite IH.
    + cbn [waited]. f_equal. lia.
    + intros j Hj. destruct (H (S j) ltac:(lia)) as [Hlt' Hin].
      cbn [waited gets clock]. split.
      * lia.
      * replace (S (gets w) + j)%nat with (gets w + S j)%nat by lia.
        replace (clock w + POLLING_INTERVAL + POLLING_INTERVAL * Z.of_nat j)
          with (clock w + POLLING_INTERVAL * Z.of_nat (S j)) by lia.
        exact Hin.
Qed.

(** The loop never uses up a fuel of [timeout - elapsed] passes. *)
Lemma while_loop_fuel_ok fuel : forall elapsed w,
  timeout - elapsed <= Z.of_nat fuel ->
  fst (while_loop fuel client job timeout elapsed w) <> OutOfFuel.
Proof.
  induction fuel as [|fuel IH]; intros elapsed w Hfuel; cbn [while_loop].
  - destruct (Z.ltb_spec elapsed timeout); [lia|]. discriminate.
  - destruct (Z.ltb_spec elapsed timeout); [|discriminate].
    unfold bind at 1.
    destruct (interactions_get client (gets w) (clock w) job) as [i|msg] eqn:Hget.
    + destruct (String.eqb_spec (status i) "in_progress") as [Hst|Hst].
      * rewrite (loop_body_in_progress elapsed w i Hget Hst).
        apply IH. unfold POLLING_INTERVAL. lia.
      * rewrite (loop_body_done elapsed w i Hget Hst). discriminate.
    + rewrite (loop_body_failed elapsed w msg Hget). discriminate.
Qed.

Lemma while_loop_exit fuel elapsed w :
  timeout <= elapsed ->
  while_loop fuel client job timeout elapsed w = (Ret None, w).
Proof.
  intros H. destruct fuel; cbn [while_loop];
    destruct (Z.ltb_spec elapsed timeout); try lia; reflexivity.
Qed.

(** The call of the poller in terms of its loop. *)
Lemma wait_for_completion_unfold w :
  wait_for_completion client job timeout w
  = match while_loop (Z.to_nat timeout) client job timeout 0 (started w) with
    | (Ret (Some i), w') => (Ret i, w')
    | (Ret None, w') => client_get client job w'
    | (Raise e, w') => (Raise e, w')
    | (OutOfFuel, w') => (OutOfFuel, w')
    end.
Proof.
  unfold wait_for_completion, wait_for_completion_fuel, bind, emit, started.
  cbn [session ui gets clock].
  destruct (while_loop _ _ _ _ _ _) as [[[i|]|e|] w']; reflexivity.
Qed.
End Loop.

Lemma ceil_div_bounds a :
  POLLING_INTERVAL * (ceil_div a POLLING_INTERVAL - 1) < a
  /\ a <= POLLING_INTERVAL * ceil_div a POLLING_INTERVAL.
Proof.
  unfold ceil_div, POLLING_INTERVAL.
  pose proof (Z.div_mod (a + 3 - 1) 3 ltac:(lia)).
  pose proof (Z.mod_pos_bound (a + 3 - 1) 3 ltac:(lia)).
  lia.
Qed.

(** The model of the loop always has fuel enough: the poller returns or
    raises. *)
Lemma wait_for_completion_fuel_ok client job timeout w :
  fst (wait_for_completion client job timeout w) <> OutOfFuel.
Proof.
  rewrite wait_for_completion_unfold.
  pose proof (while_loop_fuel_ok client job timeout (Z.to_nat timeout) 0
                (started w)) as H.
  specialize (H ltac:(lia)).
  destruct (while_loop _ _ _ _ _ _) as [[[i|]|e|] w']; cbn in *;
    try discriminate; try congruence.
  unfold client_get, of_result.
  destruct (interactions_get _ _ _ _); discriminate.
Qed.

(** The poller changes nothing in the session store. *)
Lemma while_loop_session client job timeout fuel : forall elapsed w,
  session (snd (while_loop fuel client job timeout elapsed w)) = session w.
Proof.
  induction fuel as [|fuel IH]; intros elapsed w; cbn [while_loop];
    destruct (Z.ltb_spec elapsed timeout); try reflexivity.
  unfold bind at 1.
  destruct (interactions_get client (gets w) (clock w) job) as [i|msg] eqn:Hget.
  - destruct (String.eqb_spec (status i) "in_progress") as [Hst|Hst].
    + rewrite (loop_body_in_progress client job timeout elapsed w i Hget Hst).
      rewrite IH. reflexivity.
    + rewrite (loop_body_done client job timeout elapsed w i Hget Hst). reflexivity.
  - rewrite (loop_body_failed client job timeout elapsed w msg Hget). reflexivity.
Qed.

Lemma wait_for_completion_session client job timeout w :
  session (snd (wait_for_completion client job timeout w)) = session w.
Proof.
  rewrite wait_for_completion_unfold.
  pose proof (while_loop_session client job timeout (Z.to_nat timeout) 0
                                 (started w)) as H.
  destruct (while_loop _ _ _ _ _ _) as [[[i|]|e|] w']; cbn in *; try exact H.
  unfold client_get, of_result.
  destruct (interactions_get _ _ _ _); exact H.
Qed.

(** The poller raises [Exception]s only: it neither stops nor reruns the
    script. *)
Lemma while_loop_outcome client job timeout fuel : forall elapsed w,
  match fst (while_loop fuel client job timeout elapsed w) with
  | Raise _ => False
  | _ => True
  end.
Proof.
  induction fuel as [|fuel IH]; intros elapsed w; cbn [while_loop];
    destruct (Z.ltb_spec elapsed timeout); try exact I.
  unfold bind at 1.
  destruct (interactions_get client (gets w) (clock w) job) as [i|msg] eqn:Hget.
  - destruct (String.eqb_spec (status i) "in_progress") as [Hst|Hst].
    + rewrite (loop_body_in_progress client job timeout elapsed w i Hget Hst). apply IH.
    + rewrite (loop_body_done client job timeout elapsed w i Hget Hst). exact I.
  - rewrite (loop_body_failed client job timeout elapsed w msg Hget). exact I.
Qed.

Lemma wait_for_completion_outcome client job timeout w :
  (exists i, fst (wait_for_completion client job timeout w) = Ret i)
  \/ (exists msg, fst (wait_for_completion client job timeout w) = Raise (Error msg)).
Proof.
  pose proof (wait_for_completion_fuel_ok client job timeout w) as Hfuel.
  rewrite wait_for_completion_unfold in *.
  pose proof (while_loop_outcome client job timeout (Z.to_nat timeout) 0
                                 (started w)) as H.
  destruct (while_loop _ _ _ _ _ _) as [[[i|]|e|] w']; cbn in *;
    try contradiction; try congruence.
  - left. eauto.
  - unfold client_get, of_result.
    destruct (interactions_get _ _ _ _); cbn; eauto.
Qed.

(** The answer to the final query, as the caller sees it. *)
Lemma client_get_answer client job w :
  client_get client job w
  = (match interactions_get client (gets w) (clock w) job with
     | Ok i => Ret i
     | Failed msg => Raise (Error msg)
     end,
     mkWorld (session w) (ui w) (S (gets w)) (clock w)).
Proof.
  unfold client_get, of_result.
  destruct (interactions_get _ _ _ _); reflexivity.
Qed.

(** C3, as the specification states it, fails: a job that is already
    completed when the poller starts (t = 0) costs one status query, not
    ceil(0 / 3) = 0 of them; and a job completing at time 4 costs three
    (at 0, 3 and 6), not ceil(4 / 3) = 2. *)
Lemma poll_count_counterexample :
  ~ (forall client job timeout t w,
        0 <= t <= timeout ->
        completes_at client job (clock w + t) ->
        Z.of_nat (queries_made client job timeout w)
        = ceil_div t POLLING_INTERVAL).
Proof.
  intros H.
  specialize (H (client_done_from 0) "job"%string TIMEOUT 0 world0).
  assert (Hc : completes_at (client_done_from 0) "job" (clock world0 + 0)).
  { split; intros n u Hu; cbn in Hu.
    - exists job_in_progress. cbn.
      destruct (Z.ltb_spec u 0); [split; reflexivity | lia].
    - exists job_completed. cbn.
      destruct (Z.ltb_spec u 0); [lia | split; [reflexivity | discriminate]]. }
  specialize (H ltac:(unfold TIMEOUT; lia) Hc).
  vm_compute in H. discriminate.
Qed.

(** C3 (amended): when the job leaves [in_progress] at time [t] after the
    start of the poller, no later than the poller's last query, the
    poller makes its queries at times 0, 3, 6, ... and returns the first
    answer that is not [in_progress], the one to the query at time
    [3 * ceil(t / 3)]; that query is its last, and it has made
    [ceil(t / 3) + 1] queries in all. *)
Theorem poll_count_amended client job timeout t w :
  0 <= t <= POLLING_INTERVAL * ceil_div timeout POLLING_INTERVAL ->
  completes_at client job (clock w + t) ->
  let k := Z.to_nat (ceil_div t POLLING_INTERVAL) in
  exists i,
    interactions_get client (gets w + k)
                     (clock w + POLLING_INTERVAL * Z.of_nat k) job = Ok i
    /\ status i <> "in_progress"%string
    /\ fst (wait_for_completion client job timeout w) = Ret i
    /\ gets (snd (wait_for_completion client job timeout w)) = (gets w + k + 1)%nat
    /\ Z.of_nat (queries_made client job timeout w)
       = ceil_div t POLLING_INTERVAL + 1
    /\ time_waited client job timeout w
       = POLLING_INTERVAL * ceil_div t POLLING_INTERVAL.
Proof.
  intros Ht [Hbefore Hafter] k.
  pose proof (ceil_div_bounds t) as [Hk1 Hk2].
  pose proof (ceil_div_bounds timeout) as [HK1 HK2].
  assert (Hk0 : 0 <= ceil_div t POLLING_INTERVAL).
  { unfold POLLING_INTERVAL in *. lia. }
  assert (Hk : Z.of_nat k = ceil_div t POLLING_INTERVAL) by (subst k; lia).
  assert (Hwaits : forall j, (j < k)%nat ->
     0 + POLLING_INTERVAL * Z.of_nat j < timeout
     /\ in_progress_at client job (gets (started w) + j)
          (clock (started w) + POLLING_INTERVAL * Z.of_nat j)).
  { intros j Hj. split.
    - unfold POLLING_INTERVAL in *. lia.
    - apply Hbefore. cbn [started clock]. unfold POLLING_INTERVAL in *. lia. }
  destruct (Hafter (gets w + k)%nat (clock w + POLLING_INTERVAL * Z.of_nat k))
    as (i & Hget & Hst).
  { unfold POLLING_INTERVAL in *. lia. }
  exists i. split; [exact Hget|]. split; [exact Hst|].
  assert (Hrun : exists shown,
             wait_for_completion client job timeout w
             = (Ret i,
                mkWorld (session w) shown (gets w + k + 1)
                        (clock w + POLLING_INTERVAL * Z.of_nat k))).
  { rewrite wait_for_completion_unfold.
    destruct (Z.lt_ge_cases (POLLING_INTERVAL * Z.of_nat k) timeout) as [Hin|Hout].
    - (* the answer comes inside the loop *)
      replace (Z.to_nat timeout) with (k + S (Z.to_nat timeout - k - 1))%nat
        by (unfold POLLING_INTERVAL in *; lia).
      rewrite (while_loop_waits client job timeout k _ 0 (started w) Hwaits).
      cbn [while_loop]. rewrite Z.add_0_l.
      apply Z.ltb_lt in Hin. rewrite Hin.
      unfold bind at 1.
      rewrite (loop_body_done client job timeout (POLLING_INTERVAL * Z.of_nat k)
                 (waited timeout k 0 (started w)) i).
      + cbn [ret fst snd ui]. rewrite waited_session, waited_gets, waited_clock.
        cbn [started session gets clock]. eexists. f_equal. f_equal; try reflexivity; lia.
      + rewrite waited_gets, waited_clock. exact Hget.
      + exact Hst.
    - (* the loop runs to its end; the final query gets the answer *)
      replace (Z.to_nat timeout) with (k + (Z.to_nat timeout - k))%nat
        by (unfold POLLING_INTERVAL in *; lia).
      rewrite (while_loop_waits client job timeout k _ 0 (started w) Hwaits).
      rewrite while_loop_exit by lia.
      rewrite client_get_answer.
      rewrite waited_session, waited_gets, waited_clock.
      cbn [started session gets clock]. rewrite Hget.
      eexists. f_equal. f_equal; try reflexivity; lia. }
  destruct Hrun as [shown Hrun].
  unfold queries_made, time_waited.
  rewrite Hrun. cbn [fst snd gets clock].
  repeat split; lia.
Qed.

Lemma client_done_from_completes t w :
  clock w = 0 -> completes_at (client_done_from t) "job" (clock w + t).
Proof.
  intros Hw. rewrite Hw, Z.add_0_l.
  split; intros n u Hu; unfold in_progress_at, done_at, client_done_from;
    cbn [interactions_get].
  - exists job_in_progress.
    destruct (Z.ltb_spec u t); [split; reflexivity | lia].
  - exists job_completed.
    destruct (Z.ltb_spec u t); [lia | split; [reflexivity | discriminate]].
Qed.

(** The amended C3 at a job that completes four seconds after the start:
    three queries, at 0, 3 and 6 seconds. *)
Lemma poll_count_amended_witness :
  completes_at (client_done_from 4) "job" (clock world0 + 4)
  /\ fst (wait_for_completion (client_done_from 4) "job" TIMEOUT world0)
     = Ret job_completed
  /\ queries_made (client_done_from 4) "job" TIMEOUT world0 = 3%nat.
Proof.
  pose proof (client_done_from_completes 4 world0 eq_refl) as Hc.
  split; [exact Hc|].
  destruct (poll_count_amended (client_done_from 4) "job" TIMEOUT 4 world0
              ltac:(vm_compute; split; discriminate) Hc)
    as (i & Hget & _ & Hret & _ & Hq & _).
  split.
  - rewrite Hret. f_equal. vm_compute in Hget. inversion Hget. reflexivity.
  - apply Nat2Z.inj. rewrite Hq. reflexivity.
Defined.

(** C4: with a status client that always reports [in_progress] and never
    fails, the poller returns (it does not raise, and reports no error):
    it makes [ceil(timeout / 3)] queries in its loop and one final query,
    has then waited [3 * ceil(timeout / 3) < timeout + 3] seconds, and
    returns the answer to the final query, whose status is still
    [in_progress]. *)
Theorem never_done_returns_in_progress client job timeout w :
  0 <= timeout ->
  always_in_progress client job ->
  let K := Z.to_nat (ceil_div timeout POLLING_INTERVAL) in
  exists i w',
    wait_for_completion client job timeout w = (Ret i, w')
    /\ status i = "in_progress"%string
    /\ interactions_get client (gets w + K)
         (clock w + POLLING_INTERVAL * Z.of_nat K) job = Ok i
    /\ fst (while_loop (Z.to_nat timeout) client job timeout 0 (started w))
       = Ret None
    /\ gets (snd (while_loop (Z.to_nat timeout) client job timeout 0 (started w)))
       = (gets w + K)%nat
    /\ Z.of_nat (queries_made client job timeout w)
       = ceil_div timeout POLLING_INTERVAL + 1
    /\ time_waited client job timeout w
       = POLLING_INTERVAL * ceil_div timeout POLLING_INTERVAL
    /\ time_waited client job timeout w < timeout + POLLING_INTERVAL
    /\ existsb is_error (ui w') = existsb is_error (ui w).
Proof.
  intros Htimeout Hnever K.
  pose proof (ceil_div_bounds timeout) as [HK1 HK2].
  assert (HK : Z.of_nat K = ceil_div timeout POLLING_INTERVAL).
  { subst K. unfold POLLING_INTERVAL in *. lia. }
  assert (Hwaits : forall j, (j < K)%nat ->
     0 + POLLING_INTERVAL * Z.of_nat j < timeout
     /\ in_progress_at client job (gets (started w) + j)
          (clock (started w) + POLLING_INTERVAL * Z.of_nat j)).
  { intros j Hj. split; [unfold POLLING_INTERVAL in *; lia | apply Hnever]. }
  assert (Hloop : while_loop (Z.to_nat timeout) client job timeout 0 (started w)
                  = (Ret None, waited timeout K 0 (started w))).
  { replace (Z.to_nat timeout) with (K + (Z.to_nat timeout - K))%nat
      by (unfold POLLING_INTERVAL in *; lia).
    rewrite (while_loop_waits client job timeout K _ 0 (started w) Hwaits).
    apply while_loop_exit. lia. }
  destruct (Hnever (gets w + K)%nat (clock w + POLLING_INTERVAL * Z.of_nat K))
    as (i & Hget & Hst).
  assert (Hrun : wait_for_completion client job timeout w
                 = (Ret i,
                    mkWorld (session w) (ui (waited timeout K 0 (started w)))
                            (S (gets w + K))
                            (clock w + POLLING_INTERVAL * Z.of_nat K))).
  { rewrite wait_for_completion_unfold, Hloop, client_get_answer.
    rewrite waited_session, waited_gets, waited_clock.
    cbn [started session gets clock]. rewrite Hget. reflexivity. }
  exists i. eexists. split; [exact Hrun|].
  unfold queries_made, time_waited. rewrite Hrun, Hloop.
  cbn [fst snd gets clock ui]. rewrite waited_gets, waited_errors.
  cbn [started gets ui existsb is_error orb].
  repeat split; try assumption; try reflexivity; unfold POLLING_INTERVAL in *; lia.
Qed.

Lemma never_done_witness :
  always_in_progress client_never_done "job"
  /\ fst (wait_for_completion client_never_done "job" TIMEOUT world0)
     = Ret job_in_progress
  /\ queries_made client_never_done "job" TIMEOUT world0 = 101%nat
  /\ time_waited client_never_done "job" TIMEOUT world0 = 300.
Proof.
  assert (Hc : always_in_progress client_never_done "job").
  { intros n u. exists job_in_progress. split; reflexivity. }
  split; [exact Hc|].
  destruct (never_done_returns_in_progress client_never_done "job" TIMEOUT world0
              ltac:(vm_compute; discriminate) Hc)
    as (i & w' & Hrun & _ & Hget & _ & _ & Hq & Ht & _).
  rewrite Hrun. cbn [fst]. split; [|split].
  - f_equal. vm_compute in Hget. inversion Hget. reflexivity.
  - apply Nat2Z.inj. rewrite Hq. reflexivity.
  - rewrite Ht. reflexivity.
Defined.

(** C5: when the first [k] queries find the job in progress and the next
    query, still inside the loop, fails, the poller reports the error,
    leaves the loop and makes exactly one more query, at once: its answer
    is returned when it succeeds, and its failure is raised to the caller
    when it fails.  The poller has then made [k + 2] queries. *)
Theorem one_failure_one_final_query client job timeout w k msg :
  (forall j, (j < k)%nat ->
     in_progress_at client job (gets w + j)
                    (clock w + POLLING_INTERVAL * Z.of_nat j)) ->
  POLLING_INTERVAL * Z.of_nat k < timeout ->
  interactions_get client (gets w + k)
                   (clock w + POLLING_INTERVAL * Z.of_nat k) job = Failed msg ->
  exists w',
    wait_for_completion client job timeout w
    = (match interactions_get client (gets w + k + 1)
               (clock w + POLLING_INTERVAL * Z.of_nat k) job with
       | Ok i => Ret i
       | Failed msg' => Raise (Error msg')
       end, w')
    /\ gets w' = (gets w + k + 2)%nat
    /\ queries_made client job timeout w = (k + 2)%nat
    /\ hd_error (ui w') = Some (UiError ("Error checking status: " ++ msg)%string)
    /\ session w' = session w.
Proof.
  intros Hbefore Hin Hfail.
  assert (Hwaits : forall j, (j < k)%nat ->
     0 + POLLING_INTERVAL * Z.of_nat j < timeout
     /\ in_progress_at client job (gets (started w) + j)
          (clock (started w) + POLLING_INTERVAL * Z.of_nat j)).
  { intros j Hj. split; [unfold POLLING_INTERVAL in *; lia | apply Hbefore, Hj]. }
  assert (Hrun : wait_for_completion client job timeout w
    = (match interactions_get client (gets w + k + 1)
               (clock w + POLLING_INTERVAL * Z.of_nat k) job with
       | Ok i => Ret i
       | Failed msg' => Raise (Error msg')
       end,
       mkWorld (session w)
               (UiError ("Error checking status: " ++ msg)%string
                :: ui (waited timeout k 0 (started w)))
               (gets w + k + 2)
               (clock w + POLLING_INTERVAL * Z.of_nat k))).
  { rewrite wait_for_completion_unfold.
    replace (Z.to_nat timeout) with (k + S (Z.to_nat timeout - k - 1))%nat
      by (unfold POLLING_INTERVAL in *; lia).
    rewrite (while_loop_waits client job timeout k _ 0 (started w) Hwaits).
    cbn [while_loop]. rewrite Z.add_0_l.
    apply Z.ltb_lt in Hin. rewrite Hin.
    unfold bind at 1.
    rewrite (loop_body_failed client job timeout (POLLING_INTERVAL * Z.of_nat k)
               (waited timeout k 0 (started w)) msg).
    - cbn [ret]. rewrite client_get_answer. cbn [session ui gets clock].
      rewrite waited_session, waited_gets, waited_clock.
      cbn [started session gets clock].
      replace (S (gets w + k)) with (gets w + k + 1)%nat by lia.
      replace (S (gets w + k + 1)) with (gets w + k + 2)%nat by lia.
      reflexivity.
    - rewrite waited_gets, waited_clock. exact Hfail. }
  eexists. split; [exact Hrun|].
  unfold queries_made. rewrite Hrun. cbn [snd gets ui hd_error session].
  repeat split; lia.
Qed.

Lemma one_failure_witness :
  fst (wait_for_completion (client_failing_once true) "job" TIMEOUT world0)
    = Ret job_in_progress
  /\ queries_made (client_failing_once true) "job" TIMEOUT world0 = 4%nat
  /\ fst (wait_for_completion (client_failing_once false) "job" TIMEOUT world0)
    = Raise (Error "504")
  /\ queries_made (client_failing_once false) "job" TIMEOUT world0 = 4%nat.
Proof.
  assert (Hb : forall r j, (j < 2)%nat ->
    in_progress_at (client_failing_once r) "job" (gets world0 + j)
                   (clock world0 + POLLING_INTERVAL * Z.of_nat j)).
  { intros r j Hj. exists job_in_progress.
    unfold client_failing_once; cbn [interactions_get world0 gets Nat.add].
    destruct (Nat.ltb_spec j 2); [split; reflexivity | lia]. }
  destruct (one_failure_one_final_query (client_failing_once true) "job" TIMEOUT
              world0 2 "503" (Hb true) eq_refl eq_refl)
    as (w1 & Hrun1 & _ & Hq1 & _).
  destruct (one_failure_one_final_query (client_failing_once false) "job" TIMEOUT
              world0 2 "503" (Hb false) eq_refl eq_refl)
    as (w2 & Hrun2 & _ & Hq2 & _).
  rewrite Hrun1, Hrun2, Hq1, Hq2.
  repeat split; reflexivity.
Defined.

End PollerFacts.

(* ===================================================================== *)
(** * Properties of the script                                            *)
(* ===================================================================== *)

Module OrchestratorFacts.
Import Poller Orchestrator OrchestratorSpec.

(** Running the monad: unfold its operations, not the data they carry. *)
Ltac run_monad :=
  cbv [bind try_except ret raise emit sleep get_session modify_session
       st_stop st_rerun client_create client_generate_content of_result];
  cbn [session ui gets clock fst snd].

Ltac session_fields :=
  cbv [planned researched synthesized with_infographic
       set_plan_id set_plan_text set_tasks set_research_id set_research_text
       set_synthesis_text set_infographic research_result defaults];
  cbn [plan_id plan_text tasks research_id research_text synthesis_text
       infographic fmt].

(** ** The phases, one by one *)

Lemma select_tasks_run inp tasks : forall keys acc w,
  exists shown,
    select_tasks inp tasks keys acc w
    = (if keys_distinct tasks keys then Ret (selected inp tasks acc)
       else Raise (Error "DuplicateWidgetID"),
       mkWorld (session w) shown (gets w) (clock w)).
Proof.
  induction tasks as [|task tasks IH]; intros keys acc w;
    cbn [select_tasks selected keys_distinct].
  - exists (ui w). destruct w; reflexivity.
  - unfold st_checkbox. run_monad.
    destruct (existsb (String.eqb ("t" ++ num task)%string) keys);
      cbn [negb andb].
    + exists (ui w). destruct w; reflexivity.
    + run_monad.
      match goal with |- context [select_tasks inp tasks ?k ?a ?w'] =>
        destruct (IH k a w') as [shown Hrun] end.
      rewrite Hrun. cbn [session gets clock].
      destruct (keys_distinct tasks _); eauto.
Qed.

Lemma phase_plan_run inp client w :
  exists shown,
    phase_plan inp client w
    = (Ret tt, mkWorld (plan_effect inp client (session w)) shown (gets w) (clock w)).
Proof.
  unfold phase_plan, plan_effect.
  destruct (st_button inp BtnGeneratePlan _).
  - unfold plan_request. run_monad.
    destruct (interactions_create client _) as [i|msg]; run_monad;
      session_fields; eauto.
  - exists (ui w). destruct w; reflexivity.
Qed.

Lemma phase_research_run inp client w :
  exists o w',
    phase_research inp client w = (o, w')
    /\ research_effect inp client (session w) (session w')
    /\ (o = Ret tt \/ o = Raise RerunException
        \/ o = Raise (Error "DuplicateWidgetID")).
Proof.
  unfold phase_research. run_monad.
  destruct (truthy_opt (plan_text (session w))) eqn:Hplan.
  2:{ do 2 eexists. split; [reflexivity|]. split; [left; reflexivity | auto]. }
  match goal with |- context [select_tasks inp ?ts ?k ?a ?w'] =>
    destruct (select_tasks_run inp ts k a w') as [shown Hsel] end.
  rewrite Hsel.
  destruct (keys_distinct (tasks (session w)) []) eqn:Hkeys; run_monad.
  2:{ do 2 eexists. split; [reflexivity|]. split; [left; reflexivity | auto]. }
  unfold st_button.
  destruct (clicked inp) as [[]|] eqn:Hclick; cbn [Button_eqb andb];
    try (do 2 eexists; split; [reflexivity|];
         split; [left; reflexivity | auto]).
  destruct (selected inp (tasks (session w)) []) as [|t ts] eqn:Hselected;
    cbn [is_empty negb].
  { do 2 eexists. split; [reflexivity|]. split; [left; reflexivity | auto]. }
  run_monad.
  assert (Hreq : mkCreate None (Some MODEL_RESEARCH_AGENT)
                   (research_prompt (String.concat (NL ++ NL)%string (t :: ts)))
                   [] (plan_id (session w)) true true
                 = research_request inp (session w)).
  { unfold research_request. rewrite Hselected. reflexivity. }
  rewrite Hreq.
  destruct (interactions_create client (research_request inp (session w)))
    as [i|msg] eqn:Hcreate; run_monad.
  2:{ do 2 eexists. split; [reflexivity|]. split; [left; reflexivity | auto]. }
  match goal with |- context [wait_for_completion client (id i) TIMEOUT ?w1] =>
    pose proof (PollerFacts.wait_for_completion_session client (id i) TIMEOUT w1)
      as Hsess;
    destruct (PollerFacts.wait_for_completion_outcome client (id i) TIMEOUT w1)
      as [[j Hret]|[msg Hraise]];
    destruct (wait_for_completion client (id i) TIMEOUT w1) as [o1 w2] eqn:Hwait
  end; cbn [fst snd session] in *; subst o1.
  - do 2 eexists. split; [reflexivity|]. split; [|auto].
    right. split; [exact Hclick|]. split; [exact Hplan|].
    split; [exact Hkeys|].
    split; [rewrite Hselected; discriminate|].
    exists i, j. eexists. split; [exact Hcreate|].
    split; [rewrite Hwait; reflexivity|].
    cbn [session]. rewrite Hsess. reflexivity.
  - do 2 eexists. split; [reflexivity|]. split; [|auto].
    left. cbn [session]. exact Hsess.
Qed.

(** Phase 2 in a run started by another button or by none: the check
    boxes are made, or the run ends at a key that is taken. *)
Lemma phase_research_idle inp client w :
  clicked inp <> Some BtnStartResearch ->
  exists shown,
    phase_research inp client w
    = (if widgets_ok (session w) then Ret tt
       else Raise (Error "DuplicateWidgetID"),
       mkWorld (session w) shown (gets w) (clock w)).
Proof.
  intros Hclick. unfold phase_research, widgets_ok. run_monad.
  destruct (truthy_opt (plan_text (session w))); cbn [negb orb].
  2:{ exists (ui w). destruct w; reflexivity. }
  match goal with |- context [select_tasks inp ?ts ?k ?a ?w'] =>
    destruct (select_tasks_run inp ts k a w') as [shown Hsel] end.
  rewrite Hsel.
  destruct (keys_distinct (tasks (session w)) []); run_monad; [|eauto].
  unfold st_button.
  destruct (clicked inp) as [[]|]; cbn [Button_eqb andb]; try congruence; eauto.
Qed.

Lemma show_research_run w :
  exists shown,
    show_research w = (Ret tt, mkWorld (session w) shown (gets w) (clock w)).
Proof.
  unfold show_research. run_monad.
  destruct (truthy_opt (research_text (session w))); [eauto|].
  exists (ui w). destruct w; reflexivity.
Qed.

Lemma phase_report_run inp client w :
  phase_report inp client w
  = (report_outcome inp client (session w),
     mkWorld (report_effect inp client (session w))
             (report_messages inp client (session w) ++ ui w)
             (gets w) (clock w)).
Proof.
  unfold phase_report, report_outcome, report_effect, report_messages,
    report_pressed.
  run_monad.
  destruct (truthy_opt (research_id (session w))); cbn [andb].
  2:{ destruct w; reflexivity. }
  destruct (st_button inp BtnGenerateReport false).
  2:{ destruct w; reflexivity. }
  fold (synthesis_request (session w)).
  destruct (interactions_create client (synthesis_request (session w)))
    as [i|msg]; run_monad.
  2:{ reflexivity. }
  unfold image_request, new_infographic. session_fields.
  destruct (models_generate_content client MODEL_IMAGE _) as [response|msg];
    run_monad.
  - destruct (first_inline_data (response_parts response)) as [d|];
      run_monad; session_fields; reflexivity.
  - session_fields. reflexivity.
Qed.

(** The report section shows the stored text under the stored image. *)
Lemma show_report_run w :
  show_report w
  = (Ret tt,
     mkWorld (session w) (report_shown (session w) ++ ui w) (gets w) (clock w)).
Proof.
  unfold show_report, report_shown. run_monad.
  destruct (truthy_opt (synthesis_text (session w))).
  - destruct (truthy_bytes (infographic (session w))); reflexivity.
  - destruct w; reflexivity.
Qed.

(** ** A whole run *)

Ltac step_script inp client :=
  match goal with
  | |- context [phase_plan inp client ?w] =>
      let shown := fresh "shown" in let H := fresh "Hplan" in
      destruct (phase_plan_run inp client w) as [shown H]; rewrite H; clear H
  | |- context [show_research ?w] =>
      let shown := fresh "shown" in let H := fresh "Hshow" in
      destruct (show_research_run w) as [shown H]; rewrite H; clear H
  | |- context [phase_report inp client ?w] =>
      rewrite (phase_report_run inp client w)
  | |- context [show_report ?w] => rewrite (show_report_run w)
  end; cbn [session ui gets clock fst snd].

Ltac step_research_idle inp client :=
  match goal with
  | |- context [phase_research inp client ?w] =>
      let shown := fresh "shown" in let H := fresh "Hresearch" in
      destruct (phase_research_idle inp client w ltac:(congruence)) as [shown H];
      rewrite H; clear H
  end; cbn [session ui gets clock fst snd].

(** Phases 1 and 3 leave the store alone in a run that their button did
    not start. *)
Lemma plan_effect_idle inp client s :
  clicked inp <> Some BtnGeneratePlan -> plan_effect inp client s = s.
Proof.
  intros H. unfold plan_effect, st_button.
  destruct (clicked inp) as [[]|]; cbn [Button_eqb andb]; congruence.
Qed.

Lemma report_idle inp client s :
  clicked inp <> Some BtnGenerateReport ->
  report_effect inp client s = s /\ report_outcome inp client s = Ret tt.
Proof.
  intros H. unfold report_effect, report_outcome, report_pressed, st_button.
  destruct (clicked inp) as [[]|]; cbn [Button_eqb andb]; try congruence;
    rewrite Bool.andb_false_r; auto.
Qed.

Lemma report_outcome_cases inp client s :
  report_outcome inp client s = Ret tt
  \/ report_outcome inp client s = Raise RerunException
  \/ report_outcome inp client s = Raise StopException.
Proof.
  unfold report_outcome.
  destruct (report_pressed inp s); [|auto].
  destruct (interactions_create client _); auto.
Qed.

(** What a run does to the session store, whatever button started it. *)
Theorem run_effect_holds inp client store :
  run_effect inp client (init_session_state store) (run inp client store).
Proof.
  unfold run, main, script, run_effect, reset_session_state.
  set (s := init_session_state store).
  unfold st_button.
  destruct (clicked inp) as [[]|] eqn:Hclick; cbn [Button_eqb andb negb];
    run_monad; session_fields; try reflexivity;
    (destruct (truthy (api_key inp)) eqn:Hkey; cbn [negb session snd];
     [|reflexivity]).
  - (* Generate Plan *)
    step_script inp client.
    step_research_idle inp client.
    destruct (widgets_ok (plan_effect inp client s)); [|reflexivity].
    step_script inp client. step_script inp client.
    destruct (report_idle inp client (plan_effect inp client s)
                ltac:(congruence)) as [-> ->].
    step_script inp client. reflexivity.
  - (* Start Deep Research *)
    step_script inp client.
    rewrite (plan_effect_idle inp client s) by congruence.
    match goal with |- context [phase_research inp client ?w] =>
      destruct (phase_research_run inp client w) as (o & w' & Hrun & Heff & Ho);
      rewrite Hrun
    end.
    cbn [session] in Heff.
    destruct Ho as [-> | [-> | ->]]; cbn [snd]; try exact Heff.
    step_script inp client. step_script inp client.
    destruct (report_idle inp client (session w') ltac:(congruence)) as [-> ->].
    step_script inp client. exact Heff.
  - (* Generate Executive Report *)
    step_script inp client.
    rewrite (plan_effect_idle inp client s) by congruence.
    step_research_idle inp client.
    destruct (widgets_ok s); [|reflexivity].
    step_script inp client. step_script inp client.
    destruct (report_outcome_cases inp client s) as [-> | [-> | ->]];
      cbn [snd session]; try reflexivity.
    step_script inp client. reflexivity.
  - (* no button *)
    step_script inp client.
    rewrite (plan_effect_idle inp client s) by congruence.
    step_research_idle inp client.
    destruct (widgets_ok s); [|reflexivity].
    step_script inp client. step_script inp client.
    destruct (report_idle inp client s ltac:(congruence)) as [-> ->].
    step_script inp client. reflexivity.
Qed.

(** ** The phase order *)

Lemma truthy_opt_is_set o : truthy_opt o = true -> is_set o.
Proof. destruct o; [discriminate | discriminate]. Qed.

Lemma with_infographic_fields img s :
  plan_id (with_infographic img s) = plan_id s
  /\ plan_text (with_infographic img s) = plan_text s
  /\ research_id (with_infographic img s) = research_id s
  /\ synthesis_text (with_infographic img s) = synthesis_text s.
Proof. destruct img; repeat split; reflexivity. Qed.

Lemma report_pressed_research_id inp s :
  report_pressed inp s = true -> is_set (research_id s).
Proof.
  unfold report_pressed. intros H. apply Bool.andb_true_iff in H.
  apply truthy_opt_is_set, H.
Qed.

Lemma well_ordered_defaults : well_ordered defaults.
Proof.
  unfold well_ordered, plan_fields_linked, phase_order, is_set, defaults.
  cbn. repeat split; intros H; exact H.
Qed.

Lemma run_effect_well_ordered inp client s s' :
  well_ordered s -> run_effect inp client s s' -> well_ordered s'.
Proof.
  intros Hs Heff. unfold run_effect in Heff.
  assert (Hsame : s' = s -> well_ordered s') by (intros ->; exact Hs).
  assert (Hplan : s' = plan_effect inp client s -> well_ordered s').
  { unfold plan_effect. intros ->.
    destruct (st_button _ _ _); [|exact Hs].
    destruct (interactions_create _ _) as [i|]; [|exact Hs].
    destruct Hs as [_ [_ Hsyn]].
    unfold well_ordered, plan_fields_linked, phase_order, is_set, planned in *.
    cbn [plan_id plan_text research_id synthesis_text].
    repeat split; try discriminate. exact Hsyn. }
  assert (Hresearch : research_effect inp client s s' -> well_ordered s').
  { intros [-> | (_ & Htext & _ & _ & i & j & w & _ & _ & ->)]; [exact Hs|].
    destruct Hs as [Hlink _]. apply truthy_opt_is_set in Htext.
    unfold well_ordered, plan_fields_linked, phase_order, is_set, researched in *.
    cbn [plan_id plan_text research_id synthesis_text].
    repeat split; auto; discriminate. }
  assert (Hreport : s' = (if widgets_ok s then report_effect inp client s else s)
                    -> well_ordered s').
  { unfold report_effect. intros ->.
    destruct (widgets_ok s); [|exact Hs].
    destruct (report_pressed inp s) eqn:Hpressed; [|exact Hs].
    destruct (interactions_create _ _) as [i|]; [|exact Hs].
    apply report_pressed_research_id in Hpressed.
    destruct Hs as [Hlink [Hres _]].
    unfold well_ordered, plan_fields_linked, phase_order.
    destruct (with_infographic_fields
                (new_infographic (image_request client i)) (synthesized i s))
      as (-> & -> & -> & ->).
    unfold is_set, synthesized in *.
    cbn [plan_id plan_text research_id synthesis_text].
    repeat split; auto. }
  destruct (clicked inp) as [[]|];
    [subst s'; exact well_ordered_defaults | ..];
    destruct (truthy (api_key inp)); auto.
Qed.

Lemma reachable_well_ordered s : reachable s -> well_ordered s.
Proof.
  induction 1 as [inp client | s inp client _ IH].
  - apply (run_effect_well_ordered inp client defaults _ well_ordered_defaults).
    exact (run_effect_holds inp client None).
  - apply (run_effect_well_ordered inp client s _ IH).
    exact (run_effect_holds inp client (Some s)).
Qed.

(** C1: in every state of the session store that runs of the script can
    produce, the research id is set only if the plan id is, and the
    synthesis text only if the research id is.  And a run sets them only
    in phase order: a run after which the research id is set and is not
    the one found was started by the Start Research button, with the plan
    id already set and at least one task ticked; a run after which the
    synthesis text is set and is not the one found found the research id
    set. *)
Theorem phase_order_invariant :
  (forall s, reachable s -> phase_order s)
  /\ (forall store inp client,
        found store ->
        let s := init_session_state store in
        let s' := run inp client store in
        (is_set (research_id s') -> research_id s' <> research_id s ->
         is_set (plan_id s) /\ research_triggered inp s)
        /\ (is_set (synthesis_text s') -> synthesis_text s' <> synthesis_text s ->
            is_set (research_id s))).
Proof.
  split.
  - intros s Hs. apply reachable_well_ordered, Hs.
  - intros store inp client Hfound s s'.
    assert (Hs : well_ordered s).
    { subst s. destruct store as [s0|]; cbn [init_session_state].
      - apply reachable_well_ordered, Hfound.
      - exact well_ordered_defaults. }
    pose proof (run_effect_holds inp client store) as Heff.
    fold s s' in Heff. clearbody s s'. unfold run_effect in Heff.
    assert (Hsame : s' = s ->
      (is_set (research_id s') -> research_id s' <> research_id s ->
       is_set (plan_id s) /\ research_triggered inp s)
      /\ (is_set (synthesis_text s') -> synthesis_text s' <> synthesis_text s ->
          is_set (research_id s))).
    { intros ->. split; intros _ Hne; contradiction Hne; reflexivity. }
    destruct (clicked inp) as [[]|] eqn:Hclick.
    + (* Reset *)
      subst s'. unfold is_set, defaults. cbn [research_id synthesis_text].
      split; intros Hset; contradiction Hset; reflexivity.
    + (* Generate Plan *)
      destruct (truthy (api_key inp)); [|auto].
      unfold plan_effect in Heff.
      destruct (st_button _ _ _); [|auto].
      destruct (interactions_create _ _) as [i|]; [|auto].
      subst s'. unfold planned. cbn [research_id synthesis_text].
      split; intros _ Hne; contradiction Hne; reflexivity.
    + (* Start Deep Research *)
      destruct (truthy (api_key inp)) eqn:Hkey; [|auto].
      destruct Heff as [Heq | (_ & Htext & _ & Hsel & i & j & w & _ & _ & ->)];
        [auto|].
      unfold researched. cbn [research_id synthesis_text].
      split.
      * intros _ _. split.
        -- apply (proj1 Hs), truthy_opt_is_set, Htext.
        -- unfold research_triggered. auto.
      * intros _ Hne. contradiction Hne. reflexivity.
    + (* Generate Executive Report *)
      destruct (truthy (api_key inp)); [|auto].
      unfold report_effect in Heff.
      destruct (widgets_ok s); [|auto].
      destruct (report_pressed inp s) eqn:Hpressed; [|auto].
      destruct (interactions_create _ _) as [i|]; [|auto].
      subst s'.
      destruct (with_infographic_fields
                  (new_infographic (image_request client i)) (synthesized i s))
        as (_ & _ & -> & ->).
      unfold synthesized. cbn [research_id synthesis_text].
      split.
      * intros _ Hne. contradiction Hne. reflexivity.
      * intros _ _. apply report_pressed_research_id with inp, Hpressed.
    + destruct (truthy (api_key inp)); auto.
Qed.

(** ** Runs started by the report button, and runs started by none *)

Lemma st_button_clicked inp b disabled :
  st_button inp b disabled = true -> clicked inp = Some b.
Proof.
  unfold st_button. destruct (clicked inp) as [b'|]; [|discriminate].
  destruct b, b'; cbn [Button_eqb andb]; congruence.
Qed.

Lemma report_pressed_clicked inp s :
  report_pressed inp s = true -> clicked inp = Some BtnGenerateReport.
Proof.
  unfold report_pressed. intros H. apply Bool.andb_true_iff in H.
  apply st_button_clicked with false, H.
Qed.

Lemma main_report_run inp client store :
  clicked inp = Some BtnGenerateReport ->
  truthy (api_key inp) = true ->
  widgets_ok (init_session_state store) = true ->
  let s := init_session_state store in
  exists pre post,
    main inp client store
    = (report_outcome inp client s,
       mkWorld (report_effect inp client s)
               (post ++ report_messages inp client s ++ pre) 0 0%Z).
Proof.
  intros Hclick Hkey Hwidgets s.
  unfold main, script. fold s. fold s in Hwidgets.
  unfold st_button. rewrite Hclick. cbn [Button_eqb andb negb].
  run_monad. rewrite Hkey. cbn [negb session snd].
  step_script inp client.
  rewrite (plan_effect_idle inp client s) by congruence.
  step_research_idle inp client. rewrite Hwidgets.
  step_script inp client. step_script inp client.
  destruct (report_outcome_cases inp client s) as [Ho | [Ho | Ho]]; rewrite Ho.
  - step_script inp client.
    eexists shown1, (_ :: _ :: report_shown _). reflexivity.
  - exists shown1, []. reflexivity.
  - exists shown1, []. reflexivity.
Qed.

(** A run that no button started, such as the rerun after a report:
    it shows the report section and leaves the store as it is. *)
Lemma main_idle_run inp client s :
  clicked inp = None ->
  truthy (api_key inp) = true ->
  widgets_ok s = true ->
  exists pre post,
    main inp client (Some s)
    = (Ret tt, mkWorld s (post ++ report_shown s ++ pre) 0 0%Z).
Proof.
  intros Hclick Hkey Hwidgets.
  unfold main, script. cbn [init_session_state].
  unfold st_button. rewrite Hclick.
  run_monad. rewrite Hkey. cbn [negb session snd].
  step_script inp client.
  rewrite (plan_effect_idle inp client s) by congruence.
  step_research_idle inp client. rewrite Hwidgets.
  step_script inp client. step_script inp client.
  destruct (report_idle inp client s ltac:(congruence)) as [He Ho].
  rewrite He, Ho.
  step_script inp client.
  eexists _, [_; _]. reflexivity.
Qed.

(** ** Failures of the remote calls *)

(** C2: when the planning call of Generate Plan raises, or the synthesis
    call of Generate Report raises, the run leaves every field of the
    session store as it found it. *)
Theorem failed_call_leaves_session inp client store msg :
  (clicked inp = Some BtnGeneratePlan
   /\ interactions_create client (plan_request (research_goal inp)) = Failed msg)
  \/ (clicked inp = Some BtnGenerateReport
      /\ interactions_create client (synthesis_request (init_session_state store))
         = Failed msg) ->
  run inp client store = init_session_state store.
Proof.
  intros H.
  pose proof (run_effect_holds inp client store) as Heff.
  unfold run_effect in Heff.
  destruct H as [[Hclick Hfail] | [Hclick Hfail]]; rewrite Hclick in Heff;
    destruct (truthy (api_key inp)); try exact Heff; rewrite Heff.
  - unfold plan_effect. rewrite Hfail. destruct (st_button _ _ _); reflexivity.
  - unfold report_effect. rewrite Hfail.
    destruct (widgets_ok _); [destruct (report_pressed _ _)|]; reflexivity.
Qed.

(** The failed synthesis call, seen by the user: the error is shown and
    the script stops. *)
Lemma failed_synthesis_stops inp client store msg :
  truthy (api_key inp) = true ->
  widgets_ok (init_session_state store) = true ->
  report_pressed inp (init_session_state store) = true ->
  interactions_create client (synthesis_request (init_session_state store))
    = Failed msg ->
  fst (main inp client store) = Raise StopException
  /\ In (UiError ("Error during synthesis: " ++ msg)%string)
        (ui (snd (main inp client store))).
Proof.
  intros Hkey Hwidgets Hpressed Hfail.
  destruct (main_report_run inp client store
              (report_pressed_clicked inp _ Hpressed) Hkey Hwidgets)
    as (pre & post & Hrun).
  rewrite Hrun. unfold report_outcome, report_messages.
  rewrite Hpressed, Hfail. cbn [fst snd ui]. split; [reflexivity|].
  apply in_or_app. right. left. reflexivity.
Qed.

Lemma failed_call_witness :
  run (press BtnGeneratePlan) service_down (Some session_researched)
    = init_session_state (Some session_researched)
  /\ run (press BtnGenerateReport) service_down (Some session_researched)
     = init_session_state (Some session_researched).
Proof.
  split.
  - exact (failed_call_leaves_session (press BtnGeneratePlan) service_down
             (Some session_researched) "unavailable"
             (or_introl (conj eq_refl eq_refl))).
  - exact (failed_call_leaves_session (press BtnGenerateReport) service_down
             (Some session_researched) "unavailable"
             (or_intror (conj eq_refl eq_refl))).
Defined.

(** With two tasks of one number the second check box cannot be made: the
    run ends there, before phase 3, and the store stays as it is. *)
Example duplicate_keys_stop_the_script :
  widgets_ok session_twins = false
  /\ fst (main (press BtnGenerateReport) (service (Ok image_answer))
               (Some session_twins))
     = Raise (Error "DuplicateWidgetID")
  /\ run (press BtnGenerateReport) (service (Ok image_answer))
         (Some session_twins)
     = session_twins.
Proof. vm_compute. repeat split. Qed.

(** The example stores are what the runs of the script make. *)
Lemma session_planned_run :
  run (press BtnGeneratePlan) (service (Ok image_answer)) None = session_planned.
Proof. vm_compute. reflexivity. Qed.

Lemma session_researched_run :
  run (press BtnStartResearch) (service (Ok image_answer)) (Some session_planned)
  = session_researched.
Proof. vm_compute. reflexivity. Qed.

Lemma session_reported_run :
  run (press BtnGenerateReport) (service (Ok image_answer))
      (Some session_researched)
  = session_reported.
Proof. vm_compute. reflexivity. Qed.

Lemma reachable_session_reported : reachable session_reported.
Proof.
  rewrite <- session_reported_run. apply reach_next.
  rewrite <- session_researched_run. apply reach_next.
  rewrite <- session_planned_run. apply reach_first.
Qed.

Lemma phase_order_witness :
  reachable session_reported /\ phase_order session_reported.
Proof.
  split.
  - exact reachable_session_reported.
  - exact (proj1 phase_order_invariant session_reported
                 reachable_session_reported).
Defined.

Lemma report_shown_text_only s :
  truthy_bytes (infographic s) = false ->
  forall img, ~ In (UiImage img) (report_shown s).
Proof.
  intros Himg img. unfold report_shown. rewrite Himg.
  destruct (truthy_opt (synthesis_text s)); cbn [app In]; [|tauto].
  intros [H | [H | [H | [H | []]]]]; discriminate.
Qed.

Lemma truthy_not_empty t : t <> ""%string -> truthy t = true.
Proof. destruct t; [congruence | reflexivity]. Qed.

(** C7, as the specification states it, fails: when an earlier report
    stored an infographic and the infographic step of a new report fails,
    the report shown is not text-only; it carries the old image. *)
Lemma text_only_counterexample :
  ~ (forall inp client s i msg,
        reachable s ->
        truthy (api_key inp) = true ->
        widgets_ok s = true ->
        report_pressed inp s = true ->
        interactions_create client (synthesis_request s) = Ok i ->
        image_request client i = Failed msg ->
        synthesis_text (run inp client (Some s)) = Some (get_text (outputs i))
        /\ forall img, ~ In (UiImage img) (report_shown (run inp client (Some s)))).
Proof.
  intros H.
  destruct (H (press BtnGenerateReport) (service (Failed "no image"))
              session_reported report_answer "no image"
              reachable_session_reported eq_refl
              ltac:(vm_compute; reflexivity)
              ltac:(vm_compute; reflexivity) ltac:(vm_compute; reflexivity)
              ltac:(vm_compute; reflexivity))
    as [_ Hno].
  apply (Hno [Byte.x89; Byte.x50]).
  vm_compute. tauto.
Qed.

(** C7 (amended): when the synthesis call of Generate Report succeeds and
    the infographic step raises, the failure is caught there: a warning
    is shown, the run ends in the rerun as after a full success, the
    synthesis text is stored and the infographic field is left as it was.
    The report shown from that store has the synthesis text, and it is
    text-only when no infographic was stored before. *)
Theorem infographic_failure_nonfatal inp client s i msg :
  truthy (api_key inp) = true ->
  widgets_ok s = true ->
  report_pressed inp s = true ->
  interactions_create client (synthesis_request s) = Ok i ->
  image_request client i = Failed msg ->
  fst (main inp client (Some s)) = Raise RerunException
  /\ In (UiWarning ("Infographic generation failed (optional step): " ++ msg)%string)
        (ui (snd (main inp client (Some s))))
  /\ run inp client (Some s) = synthesized i s
  /\ synthesis_text (run inp client (Some s)) = Some (get_text (outputs i))
  /\ infographic (run inp client (Some s)) = infographic s
  /\ (get_text (outputs i) <> ""%string ->
      In (UiMarkdown (get_text (outputs i)))
         (report_shown (run inp client (Some s))))
  /\ (truthy_bytes (infographic s) = false ->
      forall img, ~ In (UiImage img) (report_shown (run inp client (Some s)))).
Proof.
  intros Hkey Hwidgets Hpressed Hcreate Himage.
  destruct (main_report_run inp client (Some s)
              (report_pressed_clicked inp s Hpressed) Hkey Hwidgets)
    as (pre & post & Hrun).
  cbn [init_session_state] in Hrun.
  unfold run. rewrite Hrun.
  unfold report_outcome, report_effect, report_messages.
  rewrite Hpressed, Hcreate, Himage.
  cbn [fst snd ui session new_infographic with_infographic].
  split; [reflexivity|].
  split; [apply in_or_app; right; left; reflexivity|].
  split; [reflexivity|]. split; [reflexivity|]. split; [reflexivity|].
  split.
  - intros Htext. unfold report_shown, synthesized.
    cbn [synthesis_text infographic fmt truthy_opt].
    rewrite (truthy_not_empty _ Htext). right. left. reflexivity.
  - intros Hnone. apply report_shown_text_only. exact Hnone.
Qed.

Lemma infographic_failure_witness :
  run (press BtnGenerateReport) (service (Failed "no image"))
      (Some session_researched)
  = synthesized report_answer session_researched
  /\ report_shown (run (press BtnGenerateReport) (service (Failed "no image"))
                       (Some session_researched))
     = [UiDownload "the report" "research_report.md" "text/markdown";
        UiMarkdown "the report"; UiReportHeading; UiDivider].
Proof.
  destruct (infographic_failure_nonfatal
              (press BtnGenerateReport) (service (Failed "no image"))
              session_researched report_answer "no image"
              eq_refl ltac:(vm_compute; reflexivity)
              ltac:(vm_compute; reflexivity)
              ltac:(vm_compute; reflexivity) ltac:(vm_compute; reflexivity))
    as (_ & _ & Hrun & _).
  split; [exact Hrun|].
  rewrite Hrun. vm_compute. reflexivity.
Defined.

(** C10: Generate Report does not clear the stored infographic.  When the
    store holds an infographic [b] from an earlier report and the
    infographic step of a new report fails or finds no part with inline
    data, the run stores the new synthesis text and leaves [b] in the
    store; with [b] and the new text not empty, the run that follows
    shows [b] in the report section, above the new text. *)
Theorem stale_infographic_kept inp client s i b :
  truthy (api_key inp) = true ->
  widgets_ok s = true ->
  report_pressed inp s = true ->
  infographic s = Some b ->
  interactions_create client (synthesis_request s) = Ok i ->
  ((exists msg, image_request client i = Failed msg)
   \/ (exists response,
         image_request client i = Ok response
         /\ first_inline_data (response_parts response) = None)) ->
  let s' := run inp client (Some s) in
  infographic s' = Some b
  /\ synthesis_text s' = Some (get_text (outputs i))
  /\ (b <> [] ->
      get_text (outputs i) <> ""%string ->
      report_shown s'
      = [UiDownload (get_text (outputs i)) "research_report.md" "text/markdown";
         UiMarkdown (get_text (outputs i));
         UiDivider; UiImage b; UiTldrHeading; UiReportHeading; UiDivider]
      /\ forall inp' client',
           clicked inp' = None ->
           truthy (api_key inp') = true ->
           exists pre post,
             ui (snd (main inp' client' (Some s')))
             = post ++ report_shown s' ++ pre).
Proof.
  intros Hkey Hwidgets Hpressed Hstored Hcreate Himage s'.
  assert (Hs' : s' = synthesized i s).
  { pose proof (run_effect_holds inp client (Some s)) as Heff.
    unfold run_effect in Heff.
    rewrite (report_pressed_clicked inp s Hpressed), Hkey in Heff.
    cbn [init_session_state] in Heff. rewrite Hwidgets in Heff.
    fold s' in Heff. rewrite Heff.
    unfold report_effect. rewrite Hpressed, Hcreate.
    destruct Himage as [[msg ->] | (response & -> & Hnone)];
      cbn [new_infographic]; [|rewrite Hnone]; reflexivity. }
  rewrite Hs'. unfold synthesized at 1 2. cbn [infographic synthesis_text].
  split; [exact Hstored|]. split; [reflexivity|].
  intros Hb Htext. split.
  - unfold report_shown, synthesized.
    cbn [synthesis_text infographic fmt truthy_opt].
    rewrite (truthy_not_empty _ Htext), Hstored.
    destruct b as [|x b]; [congruence|]. reflexivity.
  - intros inp' client' Hclick' Hkey'.
    destruct (main_idle_run inp' client' (synthesized i s) Hclick' Hkey'
                Hwidgets)
      as (pre & post & Hrun).
    rewrite Hrun. exists pre, post. reflexivity.
Qed.

Lemma stale_infographic_witness :
  infographic (run (press BtnGenerateReport) (service (Failed "no image"))
                   (Some session_reported))
    = Some [Byte.x89; Byte.x50]
  /\ In (UiImage [Byte.x89; Byte.x50])
        (report_shown (run (press BtnGenerateReport) (service (Failed "no image"))
                           (Some session_reported))).
Proof.
  destruct (stale_infographic_kept
              (press BtnGenerateReport) (service (Failed "no image"))
              session_reported report_answer [Byte.x89; Byte.x50]
              eq_refl ltac:(vm_compute; reflexivity)
              ltac:(vm_compute; reflexivity)
              ltac:(vm_compute; reflexivity)
              ltac:(vm_compute; reflexivity)
              ltac:(left; exists "no image"%string; vm_compute; reflexivity))
    as (Himg & _ & Hshown).
  split; [exact Himg|].
  destruct (Hshown ltac:(discriminate) ltac:(vm_compute; discriminate))
    as [-> _].
  cbn [In]. tauto.
Defined.

End OrchestratorFacts.

(* ===================================================================== *)
(** * Properties of the exporters                                         *)
(* ===================================================================== *)

Module UtilsFacts.
Import Utils UtilsSpec.
Local Open Scope N_scope.

(** ** generate_docx *)

(** C8, as the specification states it, fails: the paragraph made for
    the line has three runs, not two.  [re.split] answers with an empty
    first piece when the text starts with a match, and that piece
    becomes a run of its own. *)
Lemma docx_two_runs_counterexample :
  ~ (tl (generate_docx (of_string "**bold** and plain"))
     = [Paragraph None [mkRun (of_string "bold") true;
                        mkRun (of_string " and plain") false]]).
Proof. vm_compute. discriminate. Qed.

(** C8 (amended): for the line [**bold** and plain] the document is the
    title heading and one paragraph with three runs: an empty run that is
    not bold, the run [bold] in bold, and the run [ and plain] that is
    not bold.  The runs with text are those two. *)
Theorem docx_bold_runs :
  generate_docx (of_string "**bold** and plain")
  = [Heading 0 (of_string "Research Report");
     Paragraph None [mkRun [] false;
                     mkRun (of_string "bold") true;
                     mkRun (of_string " and plain") false]]
  /\ Re.split is_nl bold_pattern (of_string "**bold** and plain")
     = [[]; of_string "**bold**"; of_string " and plain"]
  /\ filter (fun r => negb (is_empty (run_text r)))
            (map run_of_part
                 (Re.split is_nl bold_pattern (of_string "**bold** and plain")))
     = [mkRun (of_string "bold") true; mkRun (of_string " and plain") false].
Proof. vm_compute. repeat split. Qed.

(** ** generate_pdf *)









Lemma remove_pairs_cons2 c x y a :
  remove_pairs c (x :: y :: a)
  = if ((x =? c) && (y =? c))%bool then remove_pairs c a
    else x :: remove_pairs c (y :: a).
Proof. reflexivity. Qed.




(** *** White space and markers *)

Lemma lstrip_nil l : lstrip l = [] <-> forallb is_space l = true.
Proof.
  induction l as [|c l IH]; cbn [lstrip forallb]; [split; reflexivity|].
  destruct (is_space c); cbn [andb]; [exact IH|].
  split; discriminate.
Qed.

Lemma lstrip_head_not_space l c q : lstrip l = c :: q -> is_space c = false.
Proof.
  induction l as [|x l IH]; cbn [lstrip]; [discriminate|].
  destruct (is_space x) eqn:Hx; [exact IH|].
  intros H. injection H as <- _. exact Hx.
Qed.

(** [not line.strip()]: all the characters of the line are white space. *)
Lemma strip_empty_spec l :
  is_empty (strip l) = true <-> forallb is_space l = true.
Proof.
  unfold strip. rewrite <- lstrip_nil.
  destruct (lstrip l) as [|c q] eqn:Hl.
  - cbn. split; reflexivity.
  - split; [|discriminate]. intros H. exfalso.
    assert (Hnil : lstrip (rev (c :: q)) = []).
    { destruct (lstrip (rev (c :: q))) as [|y ys] eqn:Hr; [reflexivity|].
      cbn [rev] in H. destruct (rev ys); discriminate. }
    apply lstrip_nil in Hnil. rewrite forallb_forall in Hnil.
    pose proof (lstrip_head_not_space l c q Hl) as Hc.
    rewrite (Hnil c) in Hc; [discriminate|].
    apply -> in_rev. left. reflexivity.
Qed.





Lemma remove_pairs_filter (p : N -> bool) c :
  p c = false ->
  forall n a, (length a <= n)%nat -> filter p (remove_pairs c a) = filter p a.
Proof.
  intros Hc. induction n as [|n IH]; intros a Hlen.
  - destruct a; [reflexivity | cbn [length] in Hlen; lia].
  - destruct a as [|x [|y a]]; try reflexivity.
    rewrite remove_pairs_cons2. cbn [length] in Hlen.
    destruct ((x =? c) && (y =? c))%bool eqn:Hxy.
    + apply Bool.andb_true_iff in Hxy. destruct Hxy as [Hx Hy].
      apply N.eqb_eq in Hx, Hy. subst x y.
      cbn [filter]. rewrite Hc. apply IH. lia.
    + cbn [filter]. rewrite (IH (y :: a)) by (cbn [length]; lia).
      reflexivity.
Qed.





(** *** The library *)





















(** The check of the library is not idle: a cell with a character beyond
    latin-1, such as the euro sign, makes it raise. *)
Lemma fpdf_rejects_unencodable page_breaks :
  fpdf page_breaks (mkPdf [] 0) (MultiCell 0 8 [8364])
  = Failed "FPDFUnicodeEncodingException".
Proof. reflexivity. Qed.

(** A text of two lines with a library that starts the second page
    during the second cell: the footer of the first page and the header
    of the second come with that cell, the last footer with [output]. *)
Example generate_pdf_two_pages :
  generate_pdf break_at_b (of_string ("a" ++ NL ++ "b"))
  = Ok [Call AddPage; Header header;
        Call (SetAutoPageBreak 15); Call (SetFont "" 12);
        Call (MultiCell 0 8 (of_string "a"));
        Call (MultiCell 0 8 (of_string "b"));
        Footer (footer 1); Header header;
        Call Output; Footer (footer 2)].
Proof. vm_compute. reflexivity. Qed.


End UtilsFacts.

(* ===================================================================== *)
(** * Properties of parse_tasks                                           *)
(* ===================================================================== *)

Module ParserFacts.
Import Re Grammar ParserSpec.

(** ** Ways of matching and the first of them *)

Lemma first_is_app {X} (xs ys : list X) x :
  first_is xs x -> first_is (xs ++ ys) x.
Proof. intros [tl ->]. exists (tl ++ ys). reflexivity. Qed.

Lemma first_is_map {X Y} (f : X -> Y) xs x :
  first_is xs x -> first_is (map f xs) (f x).
Proof. intros [tl ->]. exists (map f tl). reflexivity. Qed.

Lemma first_is_flat_map {X Y} (f : X -> list Y) xs x y :
  first_is xs x -> first_is (f x) y -> first_is (flat_map f xs) y.
Proof.
  intros [tl ->] Hy. cbn [flat_map]. apply first_is_app, Hy.
Qed.

Lemma first_is_one {X} (x : X) : first_is [x] x.
Proof. exists []. reflexivity. Qed.

Lemma prev_after_app {C} (pr : option C) a b :
  prev_after pr (a ++ b) = prev_after (prev_after pr a) b.
Proof. apply fold_left_app. Qed.

Lemma prev_after_cons {C} (pr : option C) c a :
  prev_after pr (c :: a) = prev_after (Some c) a.
Proof. reflexivity. Qed.

Lemma prev_after_last {C} (pr : option C) a c :
  prev_after pr (a ++ [c]) = Some c.
Proof. rewrite prev_after_app. reflexivity. Qed.

(** The longest repetition is the first way of a greedy star. *)
Lemma star_greedy_first {C} (p : C -> bool) a : forall b pr,
  forallb p a = true ->
  match b with c :: _ => p c = false | [] => True end ->
  first_is (star true p pr (a ++ b)) (prev_after pr a, b).
Proof.
  induction a as [|c a IH]; intros b pr Ha Hb.
  - cbn [app prev_after fold_left].
    destruct b as [|c b]; cbn [star]; [|rewrite Hb]; apply first_is_one.
  - cbn [forallb] in Ha. apply Bool.andb_true_iff in Ha. destruct Ha as [Hc Ha].
    cbn [app star]. rewrite Hc. apply first_is_app.
    exact (IH b (Some c) Ha Hb).
Qed.

(** A lazy star tries the positions from left to right: the positions
    at which what follows fails are passed over. *)
Lemma star_lazy_skip {C Y} (f : option C * list C -> list Y) a :
  forall rest pr,
    (forall a1 c a2, a = a1 ++ c :: a2 ->
                     f (prev_after pr a1, c :: a2 ++ rest) = []) ->
    flat_map f (star false (fun _ => true) pr (a ++ rest))
    = flat_map f (star false (fun _ => true) (prev_after pr a) rest).
Proof.
  induction a as [|c a IH]; intros rest pr Hfail; [reflexivity|].
  cbn [app star flat_map].
  pose proof (Hfail [] c a eq_refl) as Hhere.
  cbn [prev_after fold_left] in Hhere. rewrite Hhere. cbn [app].
  apply (IH rest (Some c)).
  intros a1 c' a2 Ha. apply (Hfail (c :: a1) c' a2). rewrite Ha. reflexivity.
Qed.

Lemma star_lazy_first {C} (p : C -> bool) (pr : option C) l :
  first_is (star false p pr l) (pr, l).
Proof.
  destruct l as [|c l]; cbn [star]; [|destruct (p c)]; eexists; reflexivity.
Qed.

Lemma consumed_app {C} (a b : list C) pr pr' g g' :
  consumed (MState pr (a ++ b) g) (MState pr' b g') = a.
Proof.
  unfold consumed. cbn [rest]. rewrite length_app.
  replace (length a + length b - length b) with (length a) by lia.
  rewrite firstn_app, Nat.sub_diag, firstn_all. cbn [firstn].
  apply app_nil_r.
Qed.

Lemma flat_map_map {X Y Z} (f : Y -> list Z) (g : X -> Y) l :
  flat_map f (map g l) = flat_map (fun x => f (g x)) l.
Proof.
  induction l as [|x l IH]; [reflexivity|].
  cbn [map flat_map]. rewrite IH. reflexivity.
Qed.

(** A regular expression without groups leaves the captures alone. *)
Lemma run_groupless {C} (is_nl : C -> bool) (r : regex C) : forall z z',
  groupless r = true ->
  In z' (run is_nl r z) -> groups z' = groups z.
Proof.
  induction r as [ | | p | greedy p | r1 IH1 r2 IH2 | r1 IH1 r2 IH2
                 | k r1 IH1 | r1 IH1]; intros z z' Hg Hin;
    cbn [run] in Hin; cbn [groupless] in Hg.
  - destruct (at_bol is_nl z); [|contradiction].
    destruct Hin as [<- | []]. reflexivity.
  - destruct (rest z); [|contradiction].
    destruct Hin as [<- | []]. reflexivity.
  - destruct (rest z) as [|c l]; [contradiction|].
    destruct (p c); [|contradiction].
    destruct Hin as [<- | []]. reflexivity.
  - apply in_map_iff in Hin. destruct Hin as (pl & <- & _). reflexivity.
  - apply Bool.andb_true_iff in Hg. destruct Hg as [Hg1 Hg2].
    apply in_flat_map in Hin. destruct Hin as (z1 & H1 & H2).
    rewrite (IH2 _ _ Hg2 H2). apply (IH1 _ _ Hg1 H1).
  - apply Bool.andb_true_iff in Hg. destruct Hg as [Hg1 Hg2].
    apply in_app_or in Hin. destruct Hin as [H | H]; auto.
  - discriminate.
  - destruct (run is_nl r1 z) as [|z1 zs] eqn:Hrun; [contradiction|].
    destruct Hin as [<- | []]. cbn [groups].
    apply (IH1 z z1 Hg). rewrite Hrun. left. reflexivity.
Qed.

(** ** The scan, for any pattern *)

Lemma finditer_skip {C} (is_nl : C -> bool) r a : forall rest pr,
  finditer_from is_nl r pr (a ++ rest) (length a)
  = finditer_from is_nl r (prev_after pr a) rest 0.
Proof.
  induction a as [|c a IH]; intros rest pr; [reflexivity|].
  cbn [app length finditer_from]. rewrite IH. reflexivity.
Qed.

(** After a match the scan goes on behind it. *)
Lemma finditer_match {C} (is_nl : C -> bool) r pr c m rest z :
  match_at is_nl r pr ((c :: m) ++ rest) = Some z ->
  Re.rest z = rest ->
  finditer_from is_nl r pr ((c :: m) ++ rest) 0
  = z :: finditer_from is_nl r (prev_after pr (c :: m)) rest 0.
Proof.
  intros Hmatch Hrest. cbn [app] in *.
  cbn [finditer_from]. rewrite Hmatch. f_equal.
  rewrite Hrest. cbn [length]. rewrite length_app.
  replace (S (length m + length rest) - length rest - 1) with (length m) by lia.
  rewrite finditer_skip. reflexivity.
Qed.

Lemma run_seq_in {C} (is_nl : C -> bool) (r1 r2 : regex C) z0 z :
  In z (run is_nl (Seq r1 r2) z0) ->
  exists z1, In z1 (run is_nl r1 z0) /\ In z (run is_nl r2 z1).
Proof. intros H. cbn [run] in H. apply in_flat_map in H. exact H. Qed.

Lemma match_at_in {C} (is_nl : C -> bool) (r : regex C) pr l z :
  match_at is_nl r pr l = Some z -> In z (run is_nl r (MState pr l [])).
Proof.
  unfold match_at. intros Hm.
  destruct (run is_nl r (MState pr l [])); [discriminate|].
  inversion Hm. left. reflexivity.
Qed.

Lemma finditer_step {C} (is_nl : C -> bool) (r : regex C) pr c l :
  match_at is_nl r pr (c :: l) = None ->
  finditer_from is_nl r pr (c :: l) 0 = finditer_from is_nl r (Some c) l 0.
Proof. intros H. cbn [finditer_from]. rewrite H. reflexivity. Qed.

Section Classes.
Variable A : Alphabet.
Hypothesis HA : Lawful A.

(** ** The character classes *)

Lemma digit_not_sep c : digit A c = true -> separator A c = false.
Proof.
  intros H. destruct (separator A c) eqn:Hs; [|reflexivity].
  rewrite (sep_not_digit A HA c Hs) in H. discriminate.
Qed.

Lemma space_not_digit c : whitespace A c = true -> digit A c = false.
Proof.
  intros H. destruct (digit A c) eqn:Hd; [|reflexivity].
  rewrite (digit_not_space A HA c Hd) in H. discriminate.
Qed.

Lemma space_not_sep c : whitespace A c = true -> separator A c = false.
Proof.
  intros H. destruct (separator A c) eqn:Hs; [|reflexivity].
  rewrite (sep_not_space A HA c Hs) in H. discriminate.
Qed.

Lemma not_space_not_nl c : whitespace A c = false -> newline A c = false.
Proof.
  intros H. destruct (newline A c) eqn:Hnl; [|reflexivity].
  rewrite (nl_is_space A HA c Hnl) in H. discriminate.
Qed.

Lemma digit_not_nl c : digit A c = true -> newline A c = false.
Proof. intros H. apply not_space_not_nl, (digit_not_space A HA), H. Qed.

Lemma nl_not_digit c : newline A c = true -> digit A c = false.
Proof. intros H. apply space_not_digit, (nl_is_space A HA), H. Qed.

(** ** Numbers and separators *)

Lemma dts_digits ds s l :
  forallb (digit A) ds = true -> separator A s = true ->
  digits_then_sep A (ds ++ s :: l) = true.
Proof.
  intros Hds Hs. induction ds as [|d ds IH]; cbn [app digits_then_sep].
  - rewrite Hs. reflexivity.
  - cbn [forallb] in Hds. apply Bool.andb_true_iff in Hds.
    destruct Hds as [Hd Hds]. rewrite Hd, (IH Hds). apply Bool.orb_true_r.
Qed.

(** Whether a number and a separator stand at the start of a text is
    settled before its first character that is no digit. *)
Lemma dts_app_stop q X :
  match X with [] => True | x :: _ => whitespace A x = true end ->
  digits_then_sep A (q ++ X) = digits_then_sep A q.
Proof.
  intros HX. induction q as [|c q IH]; cbn [app digits_then_sep].
  - destruct X as [|x X]; [reflexivity|]. cbn [digits_then_sep].
    rewrite (space_not_sep x HX), (space_not_digit x HX). reflexivity.
  - rewrite IH. reflexivity.
Qed.

Lemma dts_app_nondigit q X :
  existsb (fun c => negb (digit A c)) q = true ->
  digits_then_sep A (q ++ X) = digits_then_sep A q.
Proof.
  induction q as [|c q IH]; cbn [app digits_then_sep existsb];
    [discriminate|].
  destruct (digit A c) eqn:Hd; cbn [negb orb andb].
  - intros H. rewrite (IH H). reflexivity.
  - intros _. reflexivity.
Qed.

(** After digits a separator is found exactly when digits and a
    separator stand there. *)
Lemma star_digits_sep_none l :
  forall pr (mk : option (char A) * list (char A) -> mstate (char A)),
    (forall pl, rest (mk pl) = snd pl) ->
    digits_then_sep A l = false ->
    flat_map (fun pl => run (newline A) (Cls (separator A)) (mk pl))
             (star true (digit A) pr l) = [].
Proof.
  induction l as [|c l IH]; intros pr mk Hmk Hdts; cbn [star].
  - cbn [flat_map run]. rewrite Hmk. reflexivity.
  - cbn [digits_then_sep] in Hdts. apply Bool.orb_false_iff in Hdts.
    destruct Hdts as [Hs Hrest].
    assert (Hhere : run (newline A) (Cls (separator A)) (mk (pr, c :: l)) = []).
    { cbn [run]. rewrite Hmk. cbn [snd]. rewrite Hs. reflexivity. }
    destruct (digit A c) eqn:Hd.
    + rewrite flat_map_app. cbn [flat_map]. rewrite Hhere.
      rewrite (IH (Some c) mk Hmk Hrest). reflexivity.
    + cbn [flat_map]. rewrite Hhere. reflexivity.
Qed.

Lemma star_digits_sep_some l :
  forall pr (mk : option (char A) * list (char A) -> mstate (char A)),
    (forall pl, rest (mk pl) = snd pl) ->
    digits_then_sep A l = true ->
    flat_map (fun pl => run (newline A) (Cls (separator A)) (mk pl))
             (star true (digit A) pr l) <> [].
Proof.
  induction l as [|c l IH]; intros pr mk Hmk Hdts; cbn [star];
    cbn [digits_then_sep] in Hdts; [discriminate|].
  destruct (digit A c) eqn:Hd.
  - rewrite (digit_not_sep c Hd) in Hdts. cbn [orb andb] in Hdts.
    rewrite flat_map_app. intros Hnil. apply app_eq_nil in Hnil.
    exact (IH (Some c) mk Hmk Hdts (proj1 Hnil)).
  - rewrite Bool.andb_false_l, Bool.orb_false_r in Hdts.
    cbn [flat_map run]. rewrite Hmk. cbn [snd]. rewrite Hdts. discriminate.
Qed.

(** ** The lookahead *)

(** The lookahead fails where the text does not end and does not break,
    and succeeds where it does. *)
Lemma lookahead_none pr l g :
  ends_here A l = false ->
  run (newline A) (lookahead A) (MState pr l g) = [].
Proof.
  unfold lookahead, plus. cbn [run rest prev groups].
  destruct l as [|c l]; [discriminate|]. cbn [ends_here breaks].
  destruct (newline A c) eqn:Hc; cbn [andb flat_map app]; [|reflexivity].
  intros H. apply Bool.orb_false_iff in H. destruct H as [Hitem Hnl].
  cbn [run rest prev groups]. rewrite !app_nil_r.
  destruct l as [|d l]; [reflexivity|].
  cbn [starts_item starts_nl] in Hitem, Hnl. rewrite Hnl.
  destruct (digit A d) eqn:Hd; cbn [flat_map app]; [|reflexivity].
  cbn [andb] in Hitem. cbn [run rest prev groups]. rewrite !app_nil_r.
  rewrite flat_map_map.
  exact (star_digits_sep_none l (Some d)
           (fun pl => MState (fst pl) (snd pl) g) (fun _ => eq_refl) Hitem).
Qed.

Lemma lookahead_some pr l g :
  ends_here A l = true ->
  run (newline A) (lookahead A) (MState pr l g) <> [].
Proof.
  unfold lookahead, plus. cbn [run rest prev groups].
  destruct l as [|c l].
  { intros _. cbn [flat_map app]. discriminate. }
  cbn [ends_here breaks].
  destruct (newline A c) eqn:Hc; cbn [andb flat_map app]; [|discriminate].
  intros H. cbn [run rest prev groups]. rewrite !app_nil_r.
  destruct l as [|d l]; [discriminate|].
  cbn [starts_item starts_nl] in H.
  destruct (digit A d) eqn:Hd; cbn [flat_map app].
  - rewrite (digit_not_nl d Hd) in H. rewrite Bool.orb_false_r in H.
    cbn [andb] in H. cbn [run rest prev groups]. rewrite !app_nil_r.
    rewrite flat_map_map. intros Hnil. apply app_eq_nil in Hnil.
    exact (star_digits_sep_some l (Some d)
             (fun pl => MState (fst pl) (snd pl) g) (fun _ => eq_refl) H
             (proj1 Hnil)).
  - cbn [andb orb] in H. rewrite H. discriminate.
Qed.

Lemma look_run pr l g :
  run (newline A) (Look (lookahead A)) (MState pr l g)
  = if ends_here A l then [MState pr l g] else [].
Proof.
  cbn [run]. destruct (ends_here A l) eqn:He.
  - pose proof (lookahead_some pr l g He) as Hsome.
    destruct (run (newline A) (lookahead A) (MState pr l g)) as [|z zs] eqn:Hrun;
      [contradiction|].
    rewrite (run_groupless (newline A) (lookahead A) (MState pr l g) z eq_refl).
    + reflexivity.
    + rewrite Hrun. left. reflexivity.
  - rewrite (lookahead_none pr l g He). reflexivity.
Qed.

(** ** Trimming *)

Lemma lstrip_head l :
  match lstrip A l with
  | c :: _ => whitespace A c = false
  | [] => True
  end.
Proof.
  induction l as [|c l IH]; cbn [lstrip]; [exact I|].
  destruct (whitespace A c) eqn:Hc; [exact IH | exact Hc].
Qed.

Lemma lstrip_split l :
  exists p, l = p ++ lstrip A l /\ forallb (whitespace A) p = true.
Proof.
  induction l as [|c l IH]; cbn [lstrip]; [exists []; split; reflexivity|].
  destruct (whitespace A c) eqn:Hc.
  - destruct IH as (p & Hp & Hsp). exists (c :: p). cbn [app forallb].
    rewrite <- Hp, Hc, Hsp. split; reflexivity.
  - exists []. split; reflexivity.
Qed.

Lemma lstrip_spaces_app a b :
  forallb (whitespace A) a = true -> lstrip A (a ++ b) = lstrip A b.
Proof.
  induction a as [|c a IH]; cbn [forallb app lstrip]; [reflexivity|].
  intros H. apply Bool.andb_true_iff in H. destruct H as [Hc Ha].
  rewrite Hc. apply IH, Ha.
Qed.

Lemma forallb_rev {X} (p : X -> bool) l :
  forallb p l = true -> forallb p (rev l) = true.
Proof.
  rewrite !forallb_forall. intros H x Hx. apply H, in_rev, Hx.
Qed.

Lemma trimmed_first c b :
  trimmed A (c :: b) = true -> whitespace A c = false.
Proof.
  unfold trimmed. intros H. apply Bool.andb_true_iff in H.
  apply Bool.negb_true_iff, H.
Qed.

Lemma trimmed_last b c :
  trimmed A (b ++ [c]) = true -> whitespace A c = false.
Proof.
  intros H. unfold trimmed in H.
  destruct (b ++ [c]) as [|x l] eqn:Hb; [discriminate|].
  apply Bool.andb_true_iff in H. destruct H as [_ H].
  rewrite <- Hb, last_last in H. apply Bool.negb_true_iff, H.
Qed.

(** A trimmed text followed by white space is trimmed to itself. *)
Lemma strip_app_spaces b w :
  trimmed A b = true -> forallb (whitespace A) w = true ->
  strip A (b ++ w) = b.
Proof.
  intros Hb Hw. unfold strip, rstrip.
  destruct b as [|c b']; [discriminate|].
  pose proof (trimmed_first c b' Hb) as Hc.
  cbn [app lstrip]. rewrite Hc.
  change (c :: b' ++ w) with ((c :: b') ++ w).
  rewrite rev_app_distr, (lstrip_spaces_app _ _ (forallb_rev _ _ Hw)).
  destruct (exists_last (l := c :: b')) as (b0 & x & Hbx); [discriminate|].
  rewrite Hbx in Hb |- *.
  rewrite rev_app_distr. cbn [rev app lstrip].
  rewrite (trimmed_last b0 x Hb). cbn [rev].
  rewrite rev_involutive. reflexivity.
Qed.

Lemma strip_trimmed b : trimmed A b = true -> strip A b = b.
Proof.
  intros H. rewrite <- (app_nil_r b) at 1.
  apply strip_app_spaces; [exact H | reflexivity].
Qed.

(** A text is white space, its trimmed text, and white space again. *)
Lemma strip_decompose l :
  nonempty (strip A l) = true ->
  trimmed A (strip A l) = true
  /\ exists gap trail,
       l = gap ++ strip A l ++ trail
       /\ forallb (whitespace A) gap = true
       /\ forallb (whitespace A) trail = true.
Proof.
  unfold strip, rstrip. intros Hne.
  destruct (lstrip_split l) as (gap & Hl & Hgap).
  pose proof (lstrip_head l) as Hhead.
  remember (lstrip A l) as a eqn:Ea. clear Ea.
  destruct (lstrip_split (rev a)) as (p & Hp & Hsp).
  pose proof (lstrip_head (rev a)) as Hlast.
  remember (lstrip A (rev a)) as b eqn:Eb. clear Eb.
  assert (Ha : a = rev b ++ rev p).
  { rewrite <- (rev_involutive a), Hp, rev_app_distr. reflexivity. }
  split.
  - destruct b as [|x b']; [discriminate|].
    cbn [rev] in *.
    destruct (rev b' ++ [x]) as [|y t] eqn:Hy.
    { destruct (rev b'); discriminate. }
    rewrite Ha in Hhead. cbn [app] in Hhead.
    unfold trimmed. rewrite <- Hy, last_last, Hhead, Hlast. reflexivity.
  - exists gap, (rev p). split; [rewrite Hl at 1; rewrite Ha; reflexivity|].
    split; [exact Hgap | apply forallb_rev, Hsp].
Qed.

(** ** The body of an item *)

Lemma continues_at p : forall c q,
  continues A (p ++ c :: q) = true -> breaks A (c :: q) = false.
Proof.
  induction p as [|x p IH]; intros c q H.
  - cbn [app continues] in H. apply Bool.andb_true_iff in H.
    apply Bool.negb_true_iff, H.
  - cbn [app continues] in H. apply Bool.andb_true_iff in H.
    apply (IH c q), H.
Qed.

(** Inside a trimmed body that continues, the text of the task cannot
    end, whatever white space or end of text follows the body. *)
Lemma body_inner_fails b a1 c a2 X :
  trimmed A b = true ->
  continues A b = true ->
  b = a1 ++ c :: a2 ->
  match X with [] => True | x :: _ => whitespace A x = true end ->
  ends_here A (c :: a2 ++ X) = false.
Proof.
  intros Htrim Hcont Hb HX. cbn [ends_here breaks].
  rewrite Hb in Hcont. pose proof (continues_at a1 c a2 Hcont) as Hat.
  cbn [breaks] in Hat.
  destruct (newline A c) eqn:Hc; [|reflexivity]. cbn [andb] in *.
  destruct a2 as [|c2 a2].
  - exfalso. rewrite Hb in Htrim.
    pose proof (nl_is_space A HA c Hc) as Hsp.
    rewrite (trimmed_last a1 c Htrim) in Hsp. discriminate.
  - cbn [app starts_item starts_nl] in *.
    rewrite (dts_app_stop a2 X HX). exact Hat.
Qed.

(** After the body the text of the task ends at the first place in the
    white space behind it where it can end. *)
Lemma first_stop trail : forall tail,
  ends_here A tail = true ->
  exists w1 w2,
    trail = w1 ++ w2
    /\ ends_here A (w2 ++ tail) = true
    /\ forall a c b, w1 = a ++ c :: b ->
                     ends_here A (c :: b ++ w2 ++ tail) = false.
Proof.
  induction trail as [|x trail IH]; intros tail Htail.
  - exists [], []. split; [reflexivity|]. split; [exact Htail|].
    intros a c b H. destruct a; discriminate.
  - destruct (ends_here A ((x :: trail) ++ tail)) eqn:Hhere.
    + exists [], (x :: trail). split; [reflexivity|]. split; [exact Hhere|].
      intros a c b H. destruct a; discriminate.
    + destruct (IH tail Htail) as (w1 & w2 & -> & Hstop & Hnot).
      exists (x :: w1), w2. split; [reflexivity|]. split; [exact Hstop|].
      intros a c b H. destruct a as [|y a]; cbn [app] in H.
      * injection H as -> ->. cbn [app] in Hhere.
        rewrite <- app_assoc in Hhere. exact Hhere.
      * injection H as -> H. apply (Hnot a c b H).
Qed.

(** ** The match of one item *)

Section OneItem.
Variable pr : option (char A).
Variables (num : list (char A)) (sp : char A).
Variables (gap body w1 rest : list (char A)).

Hypothesis Hbol : at_bol (newline A) (MState pr rest []) = true.
Hypothesis Hnum : nonempty num = true.
Hypothesis Hdigits : forallb (digit A) num = true.
Hypothesis Hsep : separator A sp = true.
Hypothesis Hgap : forallb (whitespace A) gap = true.
Hypothesis Htrim : trimmed A body = true.
Hypothesis Hcont : continues A body = true.
Hypothesis Hw1 : forallb (whitespace A) w1 = true.
Hypothesis Hstop : ends_here A rest = true.
Hypothesis Hnot : forall a c b, w1 = a ++ c :: b ->
                                ends_here A (c :: b ++ rest) = false.

Lemma after_body_stops :
  match w1 ++ rest with [] => True | x :: _ => whitespace A x = true end.
Proof.
  destruct w1 as [|x w]; cbn [app].
  - destruct rest as [|x r]; [exact I|].
    cbn [ends_here breaks] in Hstop. apply Bool.andb_true_iff in Hstop.
    apply (nl_is_space A HA), Hstop.
  - cbn [forallb] in Hw1. apply Bool.andb_true_iff in Hw1. apply Hw1.
Qed.

(** Between the first character of the body and the place where the
    text of the task ends, it cannot end. *)
Lemma inner_fails b1 body' a1 c a2 :
  body = b1 :: body' ->
  body' ++ w1 = a1 ++ c :: a2 ->
  ends_here A (c :: a2 ++ rest) = false.
Proof.
  intros Hbody Hsplit.
  apply app_eq_app in Hsplit. destruct Hsplit as [l [[H1 H2] | [H1 H2]]].
  - destruct l as [|x l]; cbn [app] in H2.
    + apply (Hnot [] c a2). symmetry. exact H2.
    + injection H2 as <- ->. rewrite <- app_assoc.
      apply (body_inner_fails body (b1 :: a1) c l (w1 ++ rest) Htrim Hcont).
      * rewrite Hbody, H1. reflexivity.
      * exact after_body_stops.
  - apply (Hnot l c a2). exact H2.
Qed.

Lemma match_item :
  match_at (newline A) (pattern A) pr (num ++ sp :: gap ++ body ++ w1 ++ rest)
  = Some (MState (prev_after pr (num ++ sp :: gap ++ body ++ w1)) rest
                 [(2, body ++ w1); (1, num)]).
Proof.
  pose proof inner_fails as Hinner.
  destruct num as [|d1 num'] eqn:Enum; [discriminate|].
  destruct body as [|b1 body'] eqn:Ebody; [discriminate|].
  cbn [forallb] in Hdigits. apply Bool.andb_true_iff in Hdigits.
  destruct Hdigits as [Hd1 Hnum'].
  pose proof (trimmed_first b1 body' Htrim) as Hb1.
  set (text := (d1 :: num') ++ sp :: gap ++ (b1 :: body') ++ w1 ++ rest).
  set (z0 := MState pr text []).
  set (G1 := [(1, d1 :: num')]).
  set (z3 := MState (prev_after (Some sp) gap)
                    ((b1 :: body' ++ w1) ++ rest) G1).
  set (pv := prev_after (Some b1) (body' ++ w1)).
  assert (Hfirst : first_is (run (newline A) (pattern A) z0)
                     (MState pv rest ((2, b1 :: body' ++ w1) :: G1))).
  { unfold pattern.
    (* ^ *)
    change (run (newline A) (Seq Bol ?r) z0)
      with (flat_map (run (newline A) r) (run (newline A) Bol z0)).
    apply first_is_flat_map with z0.
    { cbn [run]. unfold at_bol in *. unfold z0 at 1. cbn [prev] in *.
      rewrite Hbol. apply first_is_one. }
    (* (\d+) *)
    change (run (newline A) (Seq ?r1 ?r2) z0)
      with (flat_map (run (newline A) r2) (run (newline A) r1 z0)).
    apply first_is_flat_map
      with (MState (prev_after pr (d1 :: num'))
                   (sp :: gap ++ (b1 :: body') ++ w1 ++ rest) G1).
    { change (run (newline A) (Group 1 ?r) z0)
        with (map (fun z' => MState (prev z') (Re.rest z')
                                    ((1, consumed z0 z') :: groups z'))
                  (run (newline A) r z0)).
      pose proof (first_is_map
        (fun z' => MState (prev z') (Re.rest z')
                          ((1, consumed z0 z') :: groups z'))
        (run (newline A) (plus true (digit A)) z0)
        (MState (prev_after pr (d1 :: num'))
                (sp :: gap ++ (b1 :: body') ++ w1 ++ rest) [])) as Hmap.
      cbn beta in Hmap. cbn [prev Re.rest groups] in Hmap.
      unfold z0, text in Hmap. rewrite consumed_app in Hmap.
      apply Hmap. clear Hmap.
      unfold plus, z0, text. cbn [run Re.rest app prev groups].
      rewrite Hd1. cbn [flat_map]. rewrite app_nil_r.
      apply (first_is_map
               (fun pl => MState (fst pl) (snd pl) [])
               _ (prev_after (Some d1) num',
                  sp :: gap ++ (b1 :: body') ++ w1 ++ rest)).
      apply star_greedy_first; [exact Hnum'|].
      apply (sep_not_digit A HA), Hsep. }
    (* the separator *)
    change (run (newline A) (Seq ?r1 ?r2) ?z)
      with (flat_map (run (newline A) r2) (run (newline A) r1 z)).
    cbn [run Re.rest prev groups]. rewrite Hsep. cbn [flat_map].
    rewrite app_nil_r.
    (* \s* *)
    change (run (newline A) (Seq ?r1 ?r2) ?z)
      with (flat_map (run (newline A) r2) (run (newline A) r1 z)).
    apply first_is_flat_map with z3.
    { cbn [run Re.rest prev groups].
      apply (first_is_map
               (fun pl => MState (fst pl) (snd pl) G1)
               _ (prev_after (Some sp) gap, (b1 :: body' ++ w1) ++ rest)).
      replace ((b1 :: body') ++ w1 ++ rest)
        with ((b1 :: body' ++ w1) ++ rest)
        by (cbn [app]; rewrite <- app_assoc; reflexivity).
      apply star_greedy_first; [exact Hgap|].
      cbn [app]. exact Hb1. }
    (* (.+?) and the lookahead *)
    change (run (newline A) (Seq (Group 2 ?r) ?r2) z3)
      with (flat_map (run (newline A) r2)
              (map (fun z' => MState (prev z') (Re.rest z')
                                     ((2, consumed z3 z') :: groups z'))
                   (run (newline A) r z3))).
    rewrite flat_map_map.
    unfold plus.
    cbn [run any].
    change (Re.rest z3) with (b1 :: (body' ++ w1) ++ rest).
    change (groups z3) with G1.
    cbn [flat_map prev Re.rest groups].
    rewrite app_nil_r, flat_map_map.
    unfold any.
    rewrite star_lazy_skip.
    2:{ intros a1 c a2 Ha. cbn [fst snd prev Re.rest groups].
        match goal with
        | |- context [run (newline A) (lookahead A) (MState ?p ?l ?g)] =>
            pose proof (look_run p l g) as Hlook
        end.
        cbn [run prev Re.rest groups] in Hlook. rewrite Hlook.
        rewrite (Hinner b1 body' a1 c a2 eq_refl Ha). reflexivity. }
    apply first_is_flat_map with (pv, rest); [apply star_lazy_first|].
    cbn [fst snd prev Re.rest groups].
    match goal with
    | |- context [run (newline A) (lookahead A) (MState ?p ?l ?g)] =>
        pose proof (look_run p l g) as Hlook
    end.
    cbn [run prev Re.rest groups] in Hlook. rewrite Hlook, Hstop.
    unfold z3. rewrite consumed_app. apply first_is_one. }
  unfold match_at. fold z0. destruct Hfirst as [others ->].
  cbn [hd_error]. f_equal. f_equal.
  unfold pv. symmetry.
  replace ((d1 :: num') ++ sp :: gap ++ (b1 :: body') ++ w1)
    with (((d1 :: num') ++ sp :: gap) ++ b1 :: (body' ++ w1))
    by (rewrite <- !app_assoc; reflexivity).
  rewrite prev_after_app. reflexivity.
Qed.
End OneItem.

(** ** The scan *)

(** Behind digits that are not followed by a separator, no separator is
    found. *)
Lemma star_digits_no_sep l : forall pr pl,
  digits_then_sep A l = false ->
  In pl (star true (digit A) pr l) ->
  match snd pl with
  | c :: _ => separator A c = false
  | [] => True
  end.
Proof.
  induction l as [|c l IH]; intros pr pl Hdts Hin; cbn [star] in Hin.
  - destruct Hin as [<- | []]. exact I.
  - cbn [digits_then_sep] in Hdts. apply Bool.orb_false_iff in Hdts.
    destruct Hdts as [Hs Hrest].
    assert (Hhere : (pr, c :: l) = pl ->
                    match snd pl with
                    | c :: _ => separator A c = false
                    | [] => True
                    end).
    { intros <-. exact Hs. }
    destruct (digit A c) eqn:Hd.
    + cbn [andb] in Hrest. apply in_app_or in Hin.
      destruct Hin as [Hin | [Hin | []]]; [|exact (Hhere Hin)].
      apply (IH (Some c) pl Hrest Hin).
    + destruct Hin as [Hin | []]. exact (Hhere Hin).
Qed.

(** An item is matched only at the start of a line, where a number and
    a separator stand. *)
Lemma match_at_some pr l z :
  match_at (newline A) (pattern A) pr l = Some z ->
  at_bol (newline A) (MState pr l []) = true /\ starts_item A l = true.
Proof.
  intros Hm. apply match_at_in in Hm. unfold pattern in Hm.
  apply run_seq_in in Hm. destruct Hm as (z1 & Hbol & Hin).
  cbn [run] in Hbol.
  destruct (at_bol (newline A) (MState pr l [])) eqn:Hb; [|contradiction].
  destruct Hbol as [<- | []]. split; [reflexivity|].
  apply run_seq_in in Hin. destruct Hin as (z2 & Hnum & Hin).
  apply run_seq_in in Hin. destruct Hin as (z3 & Hsep & _).
  cbn [run] in Hnum. apply in_map_iff in Hnum.
  destruct Hnum as (z2' & <- & Hplus).
  unfold plus in Hplus. apply run_seq_in in Hplus.
  destruct Hplus as (z1' & Hcls & Hstar).
  cbn [run rest prev groups] in Hcls.
  destruct l as [|c l']; [contradiction|].
  destruct (digit A c) eqn:Hd; [|contradiction].
  destruct Hcls as [<- | []].
  cbn [run rest prev groups] in Hstar. apply in_map_iff in Hstar.
  destruct Hstar as (pl & <- & Hpl).
  cbn [starts_item andb]. rewrite Hd. cbn [andb].
  destruct (digits_then_sep A l') eqn:Hdts; [reflexivity|]. exfalso.
  pose proof (star_digits_no_sep l' (Some c) pl Hdts Hpl) as Hno.
  cbn [run rest prev groups] in Hsep.
  destruct (snd pl) as [|x q]; [contradiction|].
  rewrite Hno in Hsep. contradiction.
Qed.

Lemma match_at_none pr l :
  at_bol (newline A) (MState pr l []) = false \/ starts_item A l = false ->
  match_at (newline A) (pattern A) pr l = None.
Proof.
  intros H. destruct (match_at (newline A) (pattern A) pr l) as [z|] eqn:Hm;
    [|reflexivity].
  destruct (match_at_some pr l z Hm) as [Hb Hi].
  destruct H as [H | H]; congruence.
Qed.

Lemma match_at_end pr : match_at (newline A) (pattern A) pr [] = None.
Proof. apply match_at_none. right. reflexivity. Qed.

Lemma match_at_not_digit pr c l :
  digit A c = false -> match_at (newline A) (pattern A) pr (c :: l) = None.
Proof.
  intros Hc. apply match_at_none. right. cbn [starts_item]. rewrite Hc.
  reflexivity.
Qed.

(** The scan passes over white space. *)
Lemma finditer_spaces ws : forall l pr,
  forallb (whitespace A) ws = true ->
  finditer_from (newline A) (pattern A) pr (ws ++ l) 0
  = finditer_from (newline A) (pattern A) (prev_after pr ws) l 0.
Proof.
  induction ws as [|c ws IH]; intros l pr H; [reflexivity|].
  cbn [forallb] in H. apply Bool.andb_true_iff in H. destruct H as [Hc Hws].
  cbn [app]. rewrite finditer_step.
  - apply (IH l (Some c) Hws).
  - apply match_at_not_digit, space_not_digit, Hc.
Qed.

(** A quiet text that does not start a line holds a line feed. *)
Lemma quiet_nondigit q : forall bol,
  quiet_from A bol q = true -> bol = false ->
  existsb (fun c => negb (digit A c)) q = true.
Proof.
  induction q as [|c q IH]; intros bol H Hbol; cbn [quiet_from] in H.
  - congruence.
  - apply Bool.andb_true_iff in H. destruct H as [_ H].
    cbn [existsb]. destruct (newline A c) eqn:Hc.
    + rewrite (nl_not_digit c Hc). reflexivity.
    + rewrite (IH false H eq_refl). apply Bool.orb_true_r.
Qed.

(** The scan passes over a quiet text and ends at the start of a
    line. *)
Lemma finditer_quiet pre : forall pr l,
  quiet_from A (at_bol (newline A) (MState pr pre [])) pre = true ->
  finditer_from (newline A) (pattern A) pr (pre ++ l) 0
  = finditer_from (newline A) (pattern A) (prev_after pr pre) l 0
  /\ at_bol (newline A) (MState (prev_after pr pre) l []) = true.
Proof.
  induction pre as [|c pre IH]; intros pr l H.
  - cbn [quiet_from] in H. split; [reflexivity | exact H].
  - cbn [quiet_from] in H. apply Bool.andb_true_iff in H.
    destruct H as [Hhere Hrest]. apply Bool.negb_true_iff in Hhere.
    cbn [app]. rewrite finditer_step.
    + apply (IH (Some c) l). exact Hrest.
    + apply match_at_none.
      change (at_bol (newline A) (MState pr (c :: pre ++ l) []))
        with (at_bol (newline A) (MState pr (c :: pre) [])).
      destruct (at_bol (newline A) (MState pr (c :: pre) []));
        [right | left; reflexivity].
      cbn [andb starts_item] in Hhere |- *.
      destruct (digit A c) eqn:Hd; [|reflexivity]. cbn [andb] in *.
      rewrite dts_app_nondigit; [exact Hhere|].
      apply (quiet_nondigit pre (newline A c) Hrest), digit_not_nl, Hd.
Qed.

(** The scan finds nothing in a text without a line that starts with a
    number and a separator. *)
Lemma finditer_silent l : forall pr,
  silent_from A (at_bol (newline A) (MState pr l [])) l = true ->
  finditer_from (newline A) (pattern A) pr l 0 = [].
Proof.
  induction l as [|c l IH]; intros pr H.
  - cbn [finditer_from]. rewrite match_at_end. reflexivity.
  - cbn [silent_from] in H. apply Bool.andb_true_iff in H.
    destruct H as [Hhere Hrest]. apply Bool.negb_true_iff in Hhere.
    rewrite finditer_step.
    + apply (IH (Some c)). exact Hrest.
    + apply match_at_none.
      destruct (at_bol (newline A) (MState pr (c :: l) []));
        [right; exact Hhere | left; reflexivity].
Qed.

Lemma finditer_closing post pr :
  closing A post = true ->
  finditer_from (newline A) (pattern A) pr post 0 = [].
Proof.
  destruct post as [|c q]; intros H.
  - cbn [finditer_from]. rewrite match_at_end. reflexivity.
  - cbn [closing] in H. apply Bool.andb_true_iff in H. destruct H as [H Hq].
    apply Bool.andb_true_iff in H. destruct H as [Hc _].
    rewrite finditer_step.
    + apply finditer_silent. unfold at_bol. cbn [prev]. rewrite Hc. exact Hq.
    + apply match_at_not_digit, nl_not_digit, Hc.
Qed.

Lemma closing_ends post : closing A post = true -> ends_here A post = true.
Proof.
  destruct post as [|c q]; [reflexivity|]. cbn [closing ends_here breaks].
  intros H. apply Bool.andb_true_iff in H. destruct H as [H _].
  apply Bool.andb_true_iff in H. destruct H as [Hc Hq].
  rewrite Hc, Hq. apply Bool.orb_true_r.
Qed.

(** ** A plan of well-formed items *)

Lemma well_formed_parts it :
  well_formed A it = true ->
  nonempty (item_num it) = true
  /\ forallb (digit A) (item_num it) = true
  /\ separator A (item_sep it) = true
  /\ nonempty (strip A (item_body it)) = true
  /\ continues A (strip A (item_body it)) = true
  /\ interlude A (item_after it) = true.
Proof.
  unfold well_formed. intros H.
  repeat (apply Bool.andb_true_iff in H; destruct H as [H ?]).
  repeat split; assumption.
Qed.

Lemma starts_item_text it l :
  well_formed A it = true -> starts_item A (item_text it ++ l) = true.
Proof.
  intros Hit.
  destruct (well_formed_parts it Hit) as (Hne & Hds & Hsp & _).
  unfold item_text. destruct (item_num it) as [|d ds]; [discriminate|].
  cbn [forallb] in Hds. apply Bool.andb_true_iff in Hds.
  destruct Hds as [Hd Hds].
  cbn [app starts_item]. rewrite Hd. rewrite <- app_assoc. cbn [app].
  rewrite (dts_digits ds (item_sep it) _ Hds Hsp). reflexivity.
Qed.

(** What follows the body of an item lets the text of its task end. *)
Lemma ends_after_item it more post :
  interlude A (item_after it) = true ->
  forallb (well_formed A) more = true ->
  closing A post = true ->
  ends_here A match more with
              | [] => post
              | _ :: _ => line_feed A :: item_after it ++ render A more post
              end = true.
Proof.
  intros Hafter Hmore Hpost.
  destruct more as [|it2 more]; [apply closing_ends, Hpost|].
  cbn [forallb] in Hmore. apply Bool.andb_true_iff in Hmore.
  cbn [ends_here breaks]. rewrite (line_feed_is_nl A HA). cbn [andb].
  destruct (item_after it) as [|c q].
  - cbn [app render].
    rewrite (starts_item_text it2 _ (proj1 Hmore)). reflexivity.
  - cbn [interlude] in Hafter. apply Bool.andb_true_iff in Hafter.
    cbn [app starts_nl]. rewrite (proj1 Hafter). apply Bool.orb_true_r.
Qed.

Lemma parse_items items post : forall pr,
  at_bol (newline A) (MState pr [] []) = true ->
  forallb (well_formed A) items = true ->
  closing A post = true ->
  map (task_of_match A)
      (finditer_from (newline A) (pattern A) pr (render A items post) 0)
  = map (expected A) items.
Proof.
  induction items as [|it more IH]; intros pr Hbol Hwf Hpost.
  - cbn [render map]. rewrite (finditer_closing post pr Hpost). reflexivity.
  - cbn [forallb] in Hwf. apply Bool.andb_true_iff in Hwf.
    destruct Hwf as [Hit Hmore].
    destruct (well_formed_parts it Hit)
      as (Hne & Hds & Hsp & Hbody & Hcont & Hafter).
    destruct (strip_decompose (item_body it) Hbody)
      as (Htrim & gap & trail & Hsplit & Hgap & Htrail).
    cbn [render map].
    set (tail := match more with
                 | [] => post
                 | _ :: _ => line_feed A :: item_after it ++ render A more post
                 end).
    pose proof (ends_after_item it more post Hafter Hmore Hpost) as Hends.
    fold tail in Hends.
    destruct (first_stop trail tail Hends) as (w1 & w2 & Hw & Hstop & Hnot).
    rewrite Hw, forallb_app in Htrail. apply Bool.andb_true_iff in Htrail.
    destruct Htrail as [Hw1 Hw2].
    set (core := strip A (item_body it)) in *.
    assert (Htext : item_text it ++ tail
                    = (item_num it ++ item_sep it :: gap ++ core ++ w1)
                      ++ w2 ++ tail).
    { unfold item_text. rewrite Hsplit, Hw.
      rewrite <- !app_assoc. cbn [app]. rewrite <- !app_assoc. reflexivity. }
    pose proof (match_item pr (item_num it) (item_sep it) gap core w1
                  (w2 ++ tail) Hbol Hne Hds Hsp Hgap Htrim Hcont Hw1 Hstop Hnot)
      as Hmatch.
    rewrite Htext.
    assert (Hcons : exists c m,
              item_num it ++ item_sep it :: gap ++ core ++ w1 = c :: m).
    { destruct (item_num it) as [|c m]; [discriminate|].
      cbn [app]. eauto. }
    destruct Hcons as (c & m & Hcm).
    assert (Hmatch' : match_at (newline A) (pattern A) pr
                        ((c :: m) ++ w2 ++ tail)
                      = Some (MState (prev_after pr (c :: m)) (w2 ++ tail)
                                     [(2, core ++ w1); (1, item_num it)])).
    { rewrite <- Hcm, <- Hmatch. f_equal.
      rewrite <- !app_assoc. cbn [app]. rewrite <- !app_assoc. reflexivity. }
    rewrite Hcm.
    rewrite (finditer_match (newline A) (pattern A) pr c m (w2 ++ tail) _
               Hmatch' eq_refl).
    cbn [map]. f_equal.
    + unfold task_of_match, expected, group.
      cbn [groups lookup_group Nat.eqb].
      rewrite (strip_app_spaces core w1 Htrim Hw1). reflexivity.
    + rewrite (finditer_spaces w2 tail _ Hw2).
      subst tail. destruct more as [|it2 more'].
      * rewrite (finditer_closing post _ Hpost). reflexivity.
      * rewrite finditer_step.
        2:{ apply match_at_not_digit, nl_not_digit, (line_feed_is_nl A HA). }
        assert (Hq : quiet_from A
                       (at_bol (newline A)
                          (MState (Some (line_feed A)) (item_after it) []))
                       (item_after it) = true).
        { unfold at_bol. cbn [prev]. rewrite (line_feed_is_nl A HA).
          destruct (item_after it) as [|x q]; [reflexivity|].
          cbn [interlude] in Hafter. apply Bool.andb_true_iff in Hafter.
          apply Hafter. }
        destruct (finditer_quiet (item_after it) (Some (line_feed A))
                    (render A (it2 :: more') post) Hq) as [Hscan Hbol'].
        rewrite Hscan. apply IH; [|exact Hmore | exact Hpost].
        exact Hbol'.
Qed.

(** The parser on a plan: a task for each well-formed item, in the
    order of the plan. *)
Lemma parse_plan pre items post :
  quiet A pre = true ->
  forallb (well_formed A) items = true ->
  closing A post = true ->
  Grammar.parse_tasks A (pre ++ render A items post) = map (expected A) items.
Proof.
  intros Hpre Hwf Hpost. unfold Grammar.parse_tasks, finditer.
  destruct (finditer_quiet pre None (render A items post) Hpre) as [Hscan Hbol].
  rewrite Hscan. apply parse_items; [exact Hbol | exact Hwf | exact Hpost].
Qed.

End Classes.

(** ** The two alphabets *)

Lemma is_sep_cases c :
  Chars.is_sep c = true -> c = "."%char \/ c = ")"%char \/ c = "-"%char.
Proof.
  unfold Chars.is_sep. intros H.
  apply Bool.orb_true_iff in H. destruct H as [H|H].
  - apply Bool.orb_true_iff in H. destruct H as [H|H];
      apply Ascii.eqb_eq in H; auto.
  - apply Ascii.eqb_eq in H. auto.
Qed.

Lemma chars_lawful : Lawful Chars.alphabet.
Proof.
  split; cbn [newline digit whitespace separator line_feed blank Chars.alphabet].
  - intros c H. destruct (is_sep_cases c H) as [-> | [-> | ->]]; reflexivity.
  - intros c H. destruct (is_sep_cases c H) as [-> | [-> | ->]]; reflexivity.
  - intros c. destruct c as [[] [] [] [] [] [] [] []];
      vm_compute; intros H; congruence.
  - intros c H. apply Ascii.eqb_eq in H. subst c. reflexivity.
  - reflexivity.
  - reflexivity.
Qed.

Lemma unicode_sep_cases c :
  Unicode.is_sep c = true -> c = 46%N \/ c = 41%N \/ c = 45%N.
Proof.
  unfold Unicode.is_sep. intros H.
  apply Bool.orb_true_iff in H. destruct H as [H|H].
  - apply Bool.orb_true_iff in H. destruct H as [H|H];
      apply N.eqb_eq in H; auto.
  - apply N.eqb_eq in H. auto.
Qed.

(** No decimal digit is white space: each of the ranges of the digits
    lies outside the ranges of the white space. *)
Lemma unicode_digit_not_space c :
  Unicode.is_digit c = true -> Utils.is_space c = false.
Proof.
  unfold Unicode.is_digit. rewrite existsb_exists.
  intros (zero & Hin & Hrange).
  apply Bool.andb_true_iff in Hrange. destruct Hrange as [Hlo Hhi].
  apply N.leb_le in Hlo, Hhi.
  unfold Utils.is_space.
  unfold Unicode.digit_zeros in Hin. cbn [In] in Hin.
  repeat (destruct Hin as [<- | Hin];
          [repeat (apply Bool.orb_false_iff; split);
           first [ apply N.eqb_neq; lia
                 | apply Bool.andb_false_iff; rewrite !N.leb_gt; lia ]|]).
  contradiction.
Qed.

Lemma unicode_lawful : Lawful Unicode.alphabet.
Proof.
  split;
    cbn [newline digit whitespace separator line_feed blank Unicode.alphabet].
  - intros c H. destruct (unicode_sep_cases c H) as [-> | [-> | ->]];
      vm_compute; reflexivity.
  - intros c H. destruct (unicode_sep_cases c H) as [-> | [-> | ->]];
      vm_compute; reflexivity.
  - exact unicode_digit_not_space.
  - intros c H. apply N.eqb_eq in H. subst c. reflexivity.
  - reflexivity.
  - reflexivity.
Qed.

(** ** The claim *)

(** A text without numbered items has no tasks. *)
Example parse_tasks_nothing :
  Parser.parse_tasks "" = [] /\ Parser.parse_tasks "no numbers here" = [].
Proof. split; reflexivity. Qed.

(** C6, as the specification states it, fails: of the three lines of
    the example only two are extracted.  In [3 - Summarize] a space
    stands between the number and the separator, and the pattern wants
    the separator right after the digits. *)
Lemma parse_example_counterexample :
  ~ (Parser.parse_tasks plan_example
     = [mkTask "1" "Find data - details"; mkTask "2" "Check sources";
        mkTask "3" "Summarize"]).
Proof. vm_compute. discriminate. Qed.

(** C6 (amended): on the example the parser returns the first two tasks,
    in source order.  In general, take a text with numbered items, each
    from the start of a line; before the first of them, between them
    after a blank line, and behind the last after a blank line may stand
    lines that do not start with a number and a separator.  An item is
    one digit or more, at once one of the separators [.], [)], [-], and
    a body: all that follows up to the line feed before the next item,
    to a blank line, or to the end of the text.  When every body holds
    a character that is no white space and, once trimmed, neither a
    blank line nor a later line that starts with a number and a
    separator, the parser returns one task for each item, in the order
    of the text, with the number as written and the body trimmed, its
    lines joined by spaces.  This holds for texts of any code points,
    and so for the texts of the script. *)
Theorem parse_tasks_numbered_items :
  Parser.parse_tasks plan_example
  = [mkTask "1" "Find data - details"; mkTask "2" "Check sources"]
  /\ (forall pre items post,
        quiet Unicode.alphabet pre = true ->
        forallb (well_formed Unicode.alphabet) items = true ->
        closing Unicode.alphabet post = true ->
        Unicode.parse_tasks (pre ++ render Unicode.alphabet items post)
        = map (expected Unicode.alphabet) items)
  /\ (forall pre items post,
        quiet Chars.alphabet pre = true ->
        forallb (well_formed Chars.alphabet) items = true ->
        closing Chars.alphabet post = true ->
        Parser.parse_tasks
          (string_of_list_ascii (pre ++ render Chars.alphabet items post))
        = map (fun it => Parser.task_of (expected Chars.alphabet it)) items).
Proof.
  split; [vm_compute; reflexivity|]. split.
  - intros pre items post Hpre Hwf Hpost.
    apply (parse_plan Unicode.alphabet unicode_lawful pre items post
             Hpre Hwf Hpost).
  - intros pre items post Hpre Hwf Hpost. unfold Parser.parse_tasks.
    rewrite list_ascii_of_string_of_list_ascii.
    rewrite (parse_plan Chars.alphabet chars_lawful pre items post
               Hpre Hwf Hpost).
    apply map_map.
Qed.

(** The example with the separator of its third item next to the number,
    after a line of introduction, with a remark between two items and a
    last line behind them: all three tasks.  And a plan numbered with
    Arabic-Indic digits. *)
Lemma parse_tasks_numbered_items_witness :
  string_of_list_ascii
    (plan_intro ++ render Chars.alphabet plan_items plan_end)
  = ("Here is the plan:" ++ NL ++ NL
     ++ "1. Find data - details  " ++ NL ++ "2) Check sources" ++ NL ++ NL
     ++ "(see the notes)" ++ NL ++ "3- Summarize" ++ NL ++ NL
     ++ "Good luck")%string
  /\ Parser.parse_tasks
       (string_of_list_ascii
          (plan_intro ++ render Chars.alphabet plan_items plan_end))
     = [mkTask "1" "Find data - details"; mkTask "2" "Check sources";
        mkTask "3" "Summarize"]
  /\ Unicode.parse_tasks (render Unicode.alphabet plan_items_unicode [])
     = [([1633%N], Utils.of_string "first 2 more");
        ([1633%N; 1632%N], Utils.of_string "second")].
Proof.
  split; [vm_compute; reflexivity|].
  destruct parse_tasks_numbered_items as (_ & Hunicode & Hchars).
  split.
  - refine (eq_trans (Hchars plan_intro plan_items plan_end _ _ _) _);
      vm_compute; reflexivity.
  - refine (eq_trans (Hunicode [] plan_items_unicode [] _ _ _) _);
      vm_compute; reflexivity.
Defined.

(** The conditions on the body are needed: a body of white space takes
    the next item for its text, and a body ends at its first blank
    line. *)
Example parse_tasks_body_needed :
  Parser.parse_tasks ("1." ++ NL ++ "2. b") = [mkTask "1" "2. b"]
  /\ Parser.parse_tasks ("1. a" ++ NL ++ NL ++ "b") = [mkTask "1" "a"].
Proof. split; vm_compute; reflexivity. Qed.

End ParserFacts.

(* ===================================================================== *)
(** * Further properties of the regular expressions and of parse_tasks    *)
(* ===================================================================== *)

Module ParserLaws.
Import Re Grammar ParserSpec Shapes.

(** ** The matcher *)

Section Matcher.
Variable C : Type.
Variable is_nl : C -> bool.

(** A star reads a stretch of characters of its class. *)
Lemma star_reads greedy (p : C -> bool) l : forall pr pr' l',
  In (pr', l') (star greedy p pr l) ->
  exists a, l = a ++ l' /\ forallb p a = true.
Proof.
  induction l as [|c l IH]; intros pr pr' l' Hin; cbn [star] in Hin.
  - destruct Hin as [Heq | []]. inversion Heq. exists []. split; reflexivity.
  - assert (Hhere : (pr, c :: l) = (pr', l') ->
                    exists a, c :: l = a ++ l' /\ forallb p a = true).
    { intros Heq. inversion Heq. exists []. split; reflexivity. }
    destruct (p c) eqn:Hc.
    + assert (Hdeep : In (pr', l') (star greedy p (Some c) l) ->
                      exists a, c :: l = a ++ l' /\ forallb p a = true).
      { intros H. destruct (IH _ _ _ H) as (a & -> & Ha).
        exists (c :: a). cbn [app forallb]. rewrite Hc, Ha. split; reflexivity. }
      destruct greedy.
      * apply in_app_or in Hin. destruct Hin as [H | [H | []]]; auto.
      * destruct Hin as [H | H]; auto.
    + destruct Hin as [H | []]. auto.
Qed.

(** Matching moves forward in the text: what is left is a suffix. *)
Lemma run_suffix (r : regex C) : forall z z',
  In z' (run is_nl r z) -> exists a, rest z = a ++ rest z'.
Proof.
  induction r as [ | | p | greedy p | r1 IH1 r2 IH2 | r1 IH1 r2 IH2
                 | n r1 IH1 | r1 IH1]; intros z z' Hin; cbn [run] in Hin.
  - destruct (at_bol is_nl z); [|contradiction].
    destruct Hin as [<- | []]. exists []. reflexivity.
  - destruct (rest z) eqn:Hz; [|contradiction].
    destruct Hin as [<- | []]. exists []. rewrite Hz. reflexivity.
  - destruct (rest z) as [|c l] eqn:Hz; [contradiction|].
    destruct (p c); [|contradiction].
    destruct Hin as [<- | []]. exists [c]. reflexivity.
  - apply in_map_iff in Hin. destruct Hin as ([pr' l'] & <- & Hin).
    destruct (star_reads _ _ _ _ _ _ Hin) as (a & Ha & _).
    exists a. exact Ha.
  - apply in_flat_map in Hin. destruct Hin as (z1 & H1 & H2).
    destruct (IH1 _ _ H1) as (a1 & Ha1). destruct (IH2 _ _ H2) as (a2 & Ha2).
    exists (a1 ++ a2). rewrite Ha1, Ha2, app_assoc. reflexivity.
  - apply in_app_or in Hin. destruct Hin as [H | H]; eauto.
  - apply in_map_iff in Hin. destruct Hin as (z1 & <- & H1).
    cbn [rest]. eauto.
  - destruct (run is_nl r1 z) as [|z1 zs]; [contradiction|].
    destruct Hin as [<- | []]. exists []. reflexivity.
Qed.

(** A regular expression without group [n] leaves the capture of group
    [n] as it is. *)
Lemma run_keeps_group n (r : regex C) : forall z z',
  captures n r = false ->
  In z' (run is_nl r z) ->
  lookup_group n (groups z') = lookup_group n (groups z).
Proof.
  induction r as [ | | p | greedy p | r1 IH1 r2 IH2 | r1 IH1 r2 IH2
                 | k r1 IH1 | r1 IH1]; intros z z' Hcap Hin;
    cbn [run] in Hin; cbn [captures] in Hcap.
  - destruct (at_bol is_nl z); [|contradiction].
    destruct Hin as [<- | []]. reflexivity.
  - destruct (rest z); [|contradiction].
    destruct Hin as [<- | []]. reflexivity.
  - destruct (rest z) as [|c l]; [contradiction|].
    destruct (p c); [|contradiction].
    destruct Hin as [<- | []]. reflexivity.
  - apply in_map_iff in Hin. destruct Hin as (pl & <- & _). reflexivity.
  - apply Bool.orb_false_iff in Hcap. destruct Hcap as [Hc1 Hc2].
    apply in_flat_map in Hin. destruct Hin as (z1 & H1 & H2).
    rewrite (IH2 _ _ Hc2 H2). apply (IH1 _ _ Hc1 H1).
  - apply Bool.orb_false_iff in Hcap. destruct Hcap as [Hc1 Hc2].
    apply in_app_or in Hin. destruct Hin as [H | H]; auto.
  - apply Bool.orb_false_iff in Hcap. destruct Hcap as [Hk Hc1].
    apply in_map_iff in Hin. destruct Hin as (z1 & <- & H1).
    cbn [groups lookup_group]. rewrite Hk. apply (IH1 _ _ Hc1 H1).
  - destruct (run is_nl r1 z) as [|z1 zs] eqn:Hrun; [contradiction|].
    destruct Hin as [<- | []]. cbn [groups].
    apply (IH1 z z1 Hcap). rewrite Hrun. left. reflexivity.
Qed.

(** Every match that [finditer] reports is the match at some position. *)
Lemma finditer_from_matches (r : regex C) l : forall pr skip z,
  In z (finditer_from is_nl r pr l skip) ->
  exists pr' l', match_at is_nl r pr' l' = Some z.
Proof.
  induction l as [|c l IH]; intros pr skip z Hin;
    destruct skip as [|k]; cbn [finditer_from] in Hin.
  - destruct (match_at is_nl r pr []) as [z0|] eqn:Hm; [|contradiction].
    destruct Hin as [<- | []]. eauto.
  - contradiction.
  - destruct (match_at is_nl r pr (c :: l)) as [z0|] eqn:Hm.
    + destruct Hin as [<- | Hin]; eauto.
    + eauto.
  - eauto.
Qed.

(** The text of group 1 of a match of a pattern that is one group is
    what the match has read. *)
Lemma match_at_group1 (r0 : regex C) pr l z :
  match_at is_nl (Group 1 r0) pr l = Some z ->
  l = group 1 z ++ rest z /\ length (group 1 z) = length l - length (rest z).
Proof.
  unfold match_at. intros Hm.
  assert (Hin : In z (run is_nl (Group 1 r0) (MState pr l []))).
  { destruct (run is_nl (Group 1 r0) (MState pr l [])); [discriminate|].
    inversion Hm. left. reflexivity. }
  cbn [run] in Hin. apply in_map_iff in Hin. destruct Hin as (z1 & <- & H1).
  destruct (run_suffix r0 _ _ H1) as (a & Ha). cbn [rest] in Ha.
  unfold group, consumed. cbn [groups lookup_group rest Nat.eqb].
  subst l. rewrite length_app, Nat.add_sub.
  rewrite firstn_app, Nat.sub_diag, firstn_all. cbn [firstn].
  rewrite app_nil_r. split; reflexivity.
Qed.

(** [re.split] with such a pattern cuts the text into pieces without
    losing or adding a character. *)
Lemma split_from_concat (r0 : regex C) l : forall pr skip piece,
  skip <= length l ->
  concat (split_from is_nl (Group 1 r0) pr l skip piece)
  = rev piece ++ skipn skip l.
Proof.
  induction l as [|c l IH]; intros pr skip piece Hskip.
  - destruct skip as [|k]; [|cbn [length] in Hskip; lia].
    cbn [split_from concat skipn]. reflexivity.
  - destruct skip as [|k]; cbn [split_from].
    + assert (Hgo : concat (split_from is_nl (Group 1 r0) (Some c) l 0
                                       (c :: piece))
                    = rev piece ++ skipn 0 (c :: l)).
      { rewrite IH by lia. cbn [rev skipn]. rewrite <- app_assoc. reflexivity. }
      destruct (match_at is_nl (Group 1 r0) pr (c :: l)) as [z|] eqn:Hm;
        [|exact Hgo].
      destruct (match_at_group1 r0 pr (c :: l) z Hm) as (Hl & Hlen).
      destruct (length (c :: l) - length (rest z)) as [|k] eqn:Hk; [exact Hgo|].
      cbn [concat]. rewrite IH.
      2:{ assert (length (rest z) <= length (c :: l)).
          { rewrite Hl. rewrite length_app. lia. }
          cbn [length] in *. lia. }
      cbn [rev app skipn]. f_equal.
      assert (Hrest : skipn k l = rest z).
      { change (skipn k l) with (skipn (S k) (c :: l)).
        rewrite Hl at 1. rewrite <- Hlen.
        rewrite skipn_app, Nat.sub_diag, skipn_all. reflexivity. }
      rewrite Hrest. symmetry. exact Hl.
    + cbn [length] in Hskip. rewrite IH by lia. reflexivity.
Qed.

Lemma split_concat (r0 : regex C) l :
  concat (split is_nl (Group 1 r0) l) = l.
Proof.
  unfold split. rewrite split_from_concat by lia. reflexivity.
Qed.

End Matcher.

(** ** The shape of the tasks *)

Section Tasks.
Variable A : Alphabet.
Hypothesis HA : Lawful A.

(** In a match of the pattern, group 1 is one digit or more. *)
Lemma pattern_group1 z0 z :
  groups z0 = [] ->
  In z (run (newline A) (pattern A) z0) ->
  exists d a, group 1 z = d :: a
              /\ digit A d = true /\ forallb (digit A) a = true.
Proof.
  intros Hg Hin. unfold pattern in Hin.
  apply ParserFacts.run_seq_in in Hin. destruct Hin as (z1 & Hbol & Hin).
  cbn [run] in Hbol. destruct (at_bol (newline A) z0); [|contradiction].
  destruct Hbol as [<- | []].
  apply ParserFacts.run_seq_in in Hin. destruct Hin as (z2 & Hnum & Hrest).
  unfold group.
  pose proof (fun H => run_keeps_group (char A) (newline A) 1 _ z2 z H Hrest)
    as Hkeep.
  rewrite Hkeep by reflexivity. clear Hkeep.
  cbn [run] in Hnum. apply in_map_iff in Hnum.
  destruct Hnum as (z' & <- & Hplus). cbn [groups lookup_group Nat.eqb].
  unfold plus in Hplus. apply ParserFacts.run_seq_in in Hplus.
  destruct Hplus as (z'' & Hcls & Hstar).
  cbn [run] in Hcls, Hstar.
  destruct z0 as [pr0 l0 g0]. cbn [Re.rest prev groups] in *.
  destruct l0 as [|d l]; [contradiction|].
  destruct (digit A d) eqn:Hd; [|contradiction].
  destruct Hcls as [<- | []]. cbn [Re.rest prev groups] in Hstar.
  apply in_map_iff in Hstar. destruct Hstar as ([pr' l'] & <- & Hstar).
  destruct (star_reads (char A) _ _ _ _ _ _ Hstar) as (a & -> & Ha).
  cbn [fst snd]. exists d, a. split; [|auto].
  change (d :: a ++ l') with ((d :: a) ++ l').
  apply ParserFacts.consumed_app.
Qed.

(** [strip] leaves no white space at the ends. *)
Lemma strip_no_outer_space l : no_outer_space A (strip A l).
Proof.
  unfold no_outer_space.
  destruct (strip A l) as [|c b] eqn:Hs; [left; reflexivity|right].
  rewrite <- Hs. apply ParserFacts.strip_decompose.
  rewrite Hs. reflexivity.
Qed.

Lemma join_lines_single_line l : single_line A (join_lines A l).
Proof.
  unfold single_line, join_lines.
  induction l as [|c l IH]; [reflexivity|].
  cbn [map forallb]. rewrite IH, Bool.andb_true_r.
  destruct (newline A c) eqn:Hc.
  - rewrite (blank_not_nl A HA). reflexivity.
  - rewrite Hc. reflexivity.
Qed.

Lemma last_of_map {X Y} (f : X -> Y) l : forall d,
  last (map f l) (f d) = f (last l d).
Proof.
  induction l as [|x l IH]; intros d; [reflexivity|].
  destruct l as [|y l]; [reflexivity|].
  change (last (map f (x :: y :: l)) (f d)) with (last (map f (y :: l)) (f d)).
  change (last (x :: y :: l) d) with (last (y :: l) d). apply IH.
Qed.

Lemma trimmed_map (f : char A -> char A) l :
  (forall x, whitespace A x = false -> f x = x) ->
  trimmed A l = true -> trimmed A (map f l) = true.
Proof.
  intros Hf H. unfold trimmed in *. destruct l as [|c l]; [discriminate|].
  apply Bool.andb_true_iff in H. destruct H as [Hc Hlast].
  apply Bool.negb_true_iff in Hc, Hlast.
  cbn [map]. change (f c :: map f l) with (map f (c :: l)).
  rewrite last_of_map, (Hf c Hc), (Hf _ Hlast), Hc, Hlast. reflexivity.
Qed.

Lemma join_lines_no_outer_space l :
  no_outer_space A l -> no_outer_space A (join_lines A l).
Proof.
  intros [-> | H]; [left; reflexivity|right].
  apply trimmed_map; [|exact H].
  intros x Hx. rewrite (ParserFacts.not_space_not_nl A HA x Hx). reflexivity.
Qed.

(** Every task of the parser has the shape of a task. *)
Lemma parse_tasks_shaped text :
  Forall (task_shaped A) (Grammar.parse_tasks A text).
Proof.
  unfold Grammar.parse_tasks, finditer. apply Forall_forall. intros t Ht.
  apply in_map_iff in Ht. destruct Ht as (z & <- & Hz).
  destruct (finditer_from_matches (char A) (newline A) _ _ _ _ _ Hz)
    as (pr & l & Hm).
  apply ParserFacts.match_at_in in Hm.
  destruct (pattern_group1 (MState pr l []) z eq_refl Hm)
    as (d & a & Hg & Hd & Ha).
  unfold task_shaped, task_of_match, digits_only. cbn [fst snd].
  rewrite Hg. cbn [nonempty forallb]. rewrite Hd, Ha.
  split; [split; reflexivity|]. split.
  - apply join_lines_single_line.
  - apply join_lines_no_outer_space, strip_no_outer_space.
Qed.

(** ** The number of tasks *)

Lemma match_at_bol pr l z :
  match_at (newline A) (pattern A) pr l = Some z ->
  at_bol (newline A) (MState pr l []) = true.
Proof.
  unfold match_at, pattern. cbn [run].
  destruct (at_bol (newline A) _); [reflexivity|discriminate].
Qed.

Lemma finditer_from_bound l : forall pr skip,
  length (finditer_from (newline A) (pattern A) pr l skip)
  <= (if at_bol (newline A) (MState pr l []) then 1 else 0)
     + length (filter (newline A) l).
Proof.
  induction l as [|c l IH]; intros pr skip.
  - destruct skip; cbn [finditer_from]; [|cbn; lia].
    rewrite (ParserFacts.match_at_end A). cbn. lia.
  - assert (Hnext : forall k,
      length (finditer_from (newline A) (pattern A) (Some c) l k)
      <= length (filter (newline A) (c :: l))).
    { intros k. specialize (IH (Some c) k).
      unfold at_bol in IH. cbn [prev filter] in *.
      destruct (newline A c); cbn [length]; lia. }
    destruct skip as [|k]; cbn [finditer_from].
    + destruct (match_at (newline A) (pattern A) pr (c :: l)) as [z|] eqn:Hm.
      * apply match_at_bol in Hm. unfold at_bol in *. cbn [prev] in *.
        rewrite Hm.
        specialize (Hnext (length (c :: l) - length (Re.rest z) - 1)).
        cbn [length] in *. lia.
      * specialize (Hnext 0). lia.
    + specialize (Hnext k). lia.
Qed.

End Tasks.

(** X1: For every plan text, of any code points: each task that
    [parse_tasks] returns has a number made of one character or more,
    all of them decimal digits as [\d] reads them (of any script), and a
    description without a line feed and without white space at its
    ends.  The same holds of the tasks the script stores. *)
Theorem parse_tasks_shape :
  (forall plan : Utils.text,
     Forall (task_shaped Unicode.alphabet) (Unicode.parse_tasks plan))
  /\ (forall plan : string,
        Forall (fun t => task_shaped Chars.alphabet
                           (list_ascii_of_string (num t),
                            list_ascii_of_string (text t)))
               (Parser.parse_tasks plan)).
Proof.
  split; intros plan.
  - apply (parse_tasks_shaped Unicode.alphabet ParserFacts.unicode_lawful).
  - unfold Parser.parse_tasks. apply Forall_map.
    eapply Forall_impl;
      [|apply (parse_tasks_shaped Chars.alphabet ParserFacts.chars_lawful)].
    intros [n b] H. unfold Parser.task_of. cbn [num text fst snd].
    rewrite !list_ascii_of_string_of_list_ascii. exact H.
Qed.

(** X2: [parse_tasks] returns at most one task for each line of the text. *)
Theorem parse_tasks_at_most_one_per_line (plan : string) :
  length (Parser.parse_tasks plan) <= S (line_feeds (list_ascii_of_string plan)).
Proof.
  unfold Parser.parse_tasks, Grammar.parse_tasks, finditer.
  rewrite !length_map.
  pose proof (finditer_from_bound Chars.alphabet
                (list_ascii_of_string plan) None 0) as H.
  exact H.
Qed.

End ParserLaws.

(* ===================================================================== *)
(** * Further properties of get_text                                      *)
(* ===================================================================== *)

Module TextLaws.

Lemma append_nil_r (s : string) : (s ++ "")%string = s.
Proof. induction s as [|c s IH]; cbn; [reflexivity | rewrite IH; reflexivity]. Qed.

Lemma append_assoc (a b c : string) :
  ((a ++ b) ++ c)%string = (a ++ b ++ c)%string.
Proof. induction a as [|x a IH]; cbn; [reflexivity | rewrite IH; reflexivity]. Qed.

Lemma concat_cons sep x xs :
  String.concat sep (x :: xs)
  = match xs with [] => x | _ :: _ => (x ++ sep ++ String.concat sep xs)%string end.
Proof. destruct xs; reflexivity. Qed.

Lemma concat_app sep l1 : forall l2,
  String.concat sep (l1 ++ l2)
  = match l1, l2 with
    | [], _ => String.concat sep l2
    | _, [] => String.concat sep l1
    | _ :: _, _ :: _ =>
        (String.concat sep l1 ++ sep ++ String.concat sep l2)%string
    end.
Proof.
  induction l1 as [|x l1 IH]; intros l2; [reflexivity|].
  destruct l2 as [|y l2]; [rewrite app_nil_r; reflexivity|].
  cbn [app]. rewrite concat_cons, IH.
  destruct l1 as [|x' l1]; cbn [app].
  - reflexivity.
  - rewrite (concat_cons sep x (x' :: l1)), !append_assoc. reflexivity.
Qed.

(** The texts that [get_text] joins are not empty. *)
Lemma output_texts_truthy outputs :
  Forall (fun t => truthy t = true) (flat_map output_text outputs).
Proof.
  induction outputs as [|o outputs IH]; cbn [flat_map]; [constructor|].
  apply Forall_app. split; [|exact IH].
  destruct o as [t|]; cbn [output_text]; [|constructor].
  destruct (truthy t) eqn:Ht; repeat constructor. exact Ht.
Qed.

Lemma concat_truthy sep l :
  Forall (fun t => truthy t = true) l ->
  truthy (String.concat sep l) = ParserSpec.nonempty l.
Proof.
  intros H. destruct l as [|x xs]; [reflexivity|].
  inversion H as [|x' xs' Hx _]; subst. rewrite concat_cons.
  destruct x as [|c x]; [discriminate|]. destruct xs; reflexivity.
Qed.

Lemma get_text_joined outputs :
  get_text outputs = String.concat NL (flat_map output_text outputs).
Proof.
  unfold get_text. destruct outputs as [|o outputs]; [reflexivity|].
  cbv zeta. destruct (String.concat NL _); reflexivity.
Qed.

Lemma get_text_truthy outputs :
  truthy (get_text outputs) = existsb truthy_opt outputs.
Proof.
  rewrite get_text_joined, (concat_truthy _ _ (output_texts_truthy outputs)).
  induction outputs as [|o outputs IH]; [reflexivity|].
  cbn [flat_map existsb]. rewrite <- IH.
  destruct o as [t|]; cbn [output_text truthy_opt]; [|reflexivity].
  destruct (truthy t); reflexivity.
Qed.

(** X3: [get_text] is the empty string exactly when no output carries a text
    that is not empty. *)
Theorem get_text_empty_iff outputs :
  get_text outputs = ""%string
  <-> Forall (fun o => truthy_opt o = false) outputs.
Proof.
  assert (Hall : existsb truthy_opt outputs = false
                 <-> Forall (fun o => truthy_opt o = false) outputs).
  { induction outputs as [|o outputs IH]; cbn [existsb].
    - split; intros _; [constructor | reflexivity].
    - split.
      + intros H. apply Bool.orb_false_iff in H. destruct H as [Ho H].
        constructor; [exact Ho | apply IH, H].
      + intros H. inversion H; subst. apply Bool.orb_false_iff.
        split; [assumption | apply IH; assumption]. }
  pose proof (get_text_truthy outputs) as Ht.
  split.
  - intros H. rewrite H in Ht. apply Hall. symmetry. exact Ht.
  - intros H. apply Hall in H. rewrite H in Ht.
    destruct (get_text outputs); [reflexivity | discriminate].
Qed.

(** X4: The text of two lists of outputs one after the other is the two texts
    with a line feed between them, or the one of them that is not empty. *)
Theorem get_text_app a b :
  get_text (a ++ b)
  = if truthy (get_text a) then
      if truthy (get_text b) then (get_text a ++ NL ++ get_text b)%string
      else get_text a
    else get_text b.
Proof.
  pose proof (concat_truthy NL _ (output_texts_truthy a)) as Ha.
  pose proof (concat_truthy NL _ (output_texts_truthy b)) as Hb.
  rewrite !get_text_joined, Ha, Hb, flat_map_app, concat_app.
  destruct (flat_map output_text a), (flat_map output_text b); reflexivity.
Qed.

End TextLaws.

(* ===================================================================== *)
(** * Further properties of wait_for_completion                           *)
(* ===================================================================== *)

Module PollerLaws.
Import Poller PollerSpec PollerFacts.
Local Open Scope Z_scope.

(** The passes that the loop can still make from [elapsed]. *)
Lemma passes_left_step timeout elapsed :
  elapsed < timeout ->
  Z.to_nat (ceil_div (timeout - elapsed) POLLING_INTERVAL)
  = S (Z.to_nat (ceil_div (timeout - (elapsed + POLLING_INTERVAL))
                          POLLING_INTERVAL)).
Proof.
  intros H. unfold ceil_div, POLLING_INTERVAL.
  replace (timeout - elapsed + 3 - 1)
    with ((timeout - (elapsed + 3) + 3 - 1) + 1 * 3) by lia.
  rewrite Z.div_add by lia.
  assert (0 <= (timeout - (elapsed + 3) + 3 - 1) / 3).
  { apply Z.div_pos; lia. }
  lia.
Qed.

Section AnyClient.
Variable client : Client.
Variable job : string.
Variable timeout : Z.

(** Whatever the status client answers, a loop that starts at [elapsed]
    makes at most one query and one wait for each pass that is left. *)
Lemma while_loop_bounds fuel : forall elapsed w,
  let n := Z.to_nat (ceil_div (timeout - elapsed) POLLING_INTERVAL) in
  let r := while_loop fuel client job timeout elapsed w in
  (gets w <= gets (snd r) <= gets w + n)%nat
  /\ clock w <= clock (snd r) <= clock w + POLLING_INTERVAL * Z.of_nat n
  /\ (forall i, fst r = Ret (Some i) -> (gets w < gets (snd r))%nat).
Proof.
  induction fuel as [|fuel IH]; intros elapsed w; cbn zeta; cbn [while_loop];
    destruct (Z.ltb_spec elapsed timeout) as [Hlt|Hge];
    try (cbv [ret]; cbn [fst snd]; unfold POLLING_INTERVAL;
         repeat split; try lia; intros; discriminate).
  rewrite (passes_left_step timeout elapsed Hlt).
  unfold bind.
  destruct (interactions_get client (gets w) (clock w) job) as [i|msg] eqn:Hget.
  - destruct (String.eqb_spec (status i) "in_progress") as [Hst|Hst].
    + rewrite (loop_body_in_progress client job timeout elapsed w i Hget Hst).
      specialize (IH (elapsed + POLLING_INTERVAL) (waited timeout 1 elapsed w)).
      cbn zeta in IH. cbn [waited] in *. cbn [gets clock] in IH.
      destruct IH as (Hg & Hc & Hsome).
      unfold POLLING_INTERVAL in *.
      split; [lia|]. split; [lia|].
      intros i' Hi'. specialize (Hsome i' Hi'). lia.
    + rewrite (loop_body_done client job timeout elapsed w i Hget Hst).
      cbn [ret fst snd gets clock]. unfold POLLING_INTERVAL.
      repeat split; lia.
  - rewrite (loop_body_failed client job timeout elapsed w msg Hget).
    cbn [ret fst snd gets clock]. unfold POLLING_INTERVAL.
    repeat split; try lia; intros; discriminate.
Qed.

(** How the loop can end: with an interaction that has left
    [in_progress], at the timeout, or after a query that failed. *)
Lemma while_loop_exits fuel : forall elapsed w,
  match while_loop fuel client job timeout elapsed w with
  | (Ret (Some i), _) => status i <> "in_progress"%string
  | (Ret None, w') =>
      timeout <= elapsed + (clock w' - clock w)
      \/ exists msg,
           hd_error (ui w')
           = Some (UiError ("Error checking status: " ++ msg)%string)
  | _ => True
  end.
Proof.
  induction fuel as [|fuel IH]; intros elapsed w; cbn [while_loop];
    destruct (Z.ltb_spec elapsed timeout) as [Hlt|Hge];
    try exact I; try (cbn [ret]; left; lia).
  unfold bind at 1.
  destruct (interactions_get client (gets w) (clock w) job) as [i|msg] eqn:Hget.
  - destruct (String.eqb_spec (status i) "in_progress") as [Hst|Hst].
    + rewrite (loop_body_in_progress client job timeout elapsed w i Hget Hst).
      specialize (IH (elapsed + POLLING_INTERVAL) (waited timeout 1 elapsed w)).
      destruct (while_loop fuel client job timeout _ _) as [[[i'|]|e|] w'];
        try exact IH.
      cbn [waited clock] in IH. destruct IH as [IH | IH]; [left; lia | right; exact IH].
    + rewrite (loop_body_done client job timeout elapsed w i Hget Hst).
      cbn [ret]. exact Hst.
  - rewrite (loop_body_failed client job timeout elapsed w msg Hget).
    cbn [ret]. right. exists msg. reflexivity.
Qed.

(** X5: For every status client, well behaved or not, one call of the poller
    makes at least one status query and at most
    [ceil(timeout / 3) + 1] of them, spends at most [3 * ceil(timeout / 3)]
    seconds waiting (none for a timeout that is not positive), and leaves
    the session store as it is. *)
Theorem poller_bounded w :
  let n := Z.to_nat (ceil_div timeout POLLING_INTERVAL) in
  (1 <= queries_made client job timeout w <= n + 1)%nat
  /\ 0 <= time_waited client job timeout w <= POLLING_INTERVAL * Z.of_nat n
  /\ session (snd (wait_for_completion client job timeout w)) = session w.
Proof.
  cbn zeta. split; [|split; [|apply wait_for_completion_session]].
  - pose proof (wait_for_completion_fuel_ok client job timeout w) as Hfuel.
    unfold queries_made. rewrite wait_for_completion_unfold in *.
    pose proof (while_loop_bounds (Z.to_nat timeout) 0 (started w)) as Hb.
    pose proof (while_loop_outcome client job timeout (Z.to_nat timeout) 0
                  (started w)) as Ho.
    cbn zeta in Hb. rewrite Z.sub_0_r in Hb. cbn [started gets clock] in Hb.
    destruct Hb as (Hg & _ & Hsome).
    destruct (while_loop _ _ _ _ _ _) as [[[i|]|e|] w'];
      cbn [fst snd] in *; try contradiction; try congruence.
    + specialize (Hsome i eq_refl). lia.
    + rewrite client_get_answer. cbn [snd gets]. lia.
  - unfold time_waited. rewrite wait_for_completion_unfold.
    pose proof (while_loop_bounds (Z.to_nat timeout) 0 (started w)) as Hb.
    cbn zeta in Hb. rewrite Z.sub_0_r in Hb. cbn [started gets clock] in Hb.
    destruct Hb as (_ & Hc & _).
    destruct (while_loop _ _ _ _ _ _) as [[[i|]|e|] w'];
      cbn [fst snd] in *; try lia.
    rewrite client_get_answer. cbn [snd clock]. lia.
Qed.

(** X6: With a timeout that is not positive the loop is not entered: the
    poller makes its one final query at once and returns its answer or
    raises its failure. *)
Theorem no_timeout_one_query w :
  timeout <= 0 ->
  fst (wait_for_completion client job timeout w)
  = match interactions_get client (gets w) (clock w) job with
    | Ok i => Ret i
    | Failed msg => Raise (Error msg)
    end
  /\ queries_made client job timeout w = 1%nat
  /\ time_waited client job timeout w = 0.
Proof.
  intros H. unfold queries_made, time_waited.
  rewrite wait_for_completion_unfold, while_loop_exit by lia.
  rewrite client_get_answer. cbn [fst snd started gets clock].
  repeat split; lia.
Qed.

(** X7: An interaction that is still [in_progress] is returned only when the
    whole timeout has been waited or after a status query has failed. *)
Theorem in_progress_only_late w i :
  fst (wait_for_completion client job timeout w) = Ret i ->
  status i = "in_progress"%string ->
  timeout <= time_waited client job timeout w
  \/ exists msg,
       hd_error (ui (snd (wait_for_completion client job timeout w)))
       = Some (UiError ("Error checking status: " ++ msg)%string).
Proof.
  unfold time_waited. rewrite wait_for_completion_unfold.
  pose proof (while_loop_exits (Z.to_nat timeout) 0 (started w)) as He.
  destruct (while_loop _ _ _ _ _ _) as [[[i'|]|e|] w'];
    cbn [fst snd]; try discriminate.
  - intros Hi Hst. inversion Hi; subst i'. contradiction.
  - rewrite client_get_answer. cbn [fst snd ui clock]. intros _ _.
    cbn [started clock] in He. destruct He as [He | He]; [left; lia | right; exact He].
Qed.

End AnyClient.

Lemma no_timeout_one_query_witness :
  fst (wait_for_completion (client_done_from 5) "job" 0 world0)
  = Ret job_in_progress
  /\ queries_made (client_done_from 5) "job" 0 world0 = 1%nat.
Proof.
  destruct (no_timeout_one_query (client_done_from 5) "job" 0 world0
              ltac:(lia)) as (Hret & Hq & _).
  split; [exact Hret | exact Hq].
Defined.

Lemma in_progress_only_late_witness :
  TIMEOUT <= time_waited client_never_done "job" TIMEOUT world0
  \/ exists msg,
       hd_error (ui (snd (wait_for_completion client_never_done "job"
                                              TIMEOUT world0)))
       = Some (UiError ("Error checking status: " ++ msg)%string).
Proof.
  exact (in_progress_only_late client_never_done "job" TIMEOUT world0
           job_in_progress
           ltac:(vm_compute; reflexivity) eq_refl).
Defined.

End PollerLaws.

(* ===================================================================== *)
(** * Further properties of the script and of its session store           *)
(* ===================================================================== *)

Module OrchestratorLaws.
Import Poller PollerSpec PollerFacts.
Import Orchestrator OrchestratorSpec OrchestratorFacts StoreShapes.

(** ** The task selection *)

Lemma selected_filter inp tasks : forall acc,
  selected inp tasks acc = acc ++ map listed (filter (ticked inp) tasks).
Proof.
  induction tasks as [|t tasks IH]; intros acc; cbn [selected filter map].
  - symmetry. apply app_nil_r.
  - rewrite IH. unfold ticked at 2.
    destruct (checkbox inp ("t" ++ num t)%string); cbn [map].
    + rewrite <- app_assoc. reflexivity.
    + reflexivity.
Qed.

Lemma existsb_eqb_In key keys :
  existsb (String.eqb key) keys = true <-> In key keys.
Proof.
  rewrite existsb_exists. split.
  - intros (k & Hin & Heq). apply String.eqb_eq in Heq. subst k. exact Hin.
  - intros Hin. exists key. split; [exact Hin | apply String.eqb_refl].
Qed.

(** The check boxes can all be made when no two tasks have the same
    number and no key is taken already. *)
Lemma keys_distinct_spec tasks : forall keys,
  keys_distinct tasks keys = true
  <-> NoDup (map num tasks)
      /\ forall t, In t tasks -> ~ In ("t" ++ num t)%string keys.
Proof.
  induction tasks as [|t tasks IH]; intros keys; cbn [keys_distinct map].
  - split; [intros _; split; [constructor | intros t []] | reflexivity].
  - rewrite Bool.andb_true_iff, Bool.negb_true_iff, IH.
    rewrite <- Bool.not_true_iff_false, existsb_eqb_In.
    split.
    + intros (Hkey & Hnodup & Hfree). split.
      * constructor; [|exact Hnodup].
        intros Hin. apply in_map_iff in Hin. destruct Hin as (t' & Hnum & Hin).
        apply (Hfree t' Hin). left. rewrite Hnum. reflexivity.
      * intros t' [<- | Hin]; [exact Hkey|].
        intros Hk. apply (Hfree t' Hin). right. exact Hk.
    + intros (Hnodup & Hfree). inversion Hnodup as [|x xs Hnotin Hnodup']; subst.
      split; [apply Hfree; left; reflexivity|].
      split; [exact Hnodup'|].
      intros t' Hin [Heq | Hk].
      * apply Hnotin. apply in_map_iff. exists t'. split; [|exact Hin].
        inversion Heq. reflexivity.
      * apply (Hfree t'); [right; exact Hin | exact Hk].
Qed.

Lemma keys_distinct_NoDup tasks :
  keys_distinct tasks [] = true <-> NoDup (map num tasks).
Proof.
  rewrite keys_distinct_spec. split.
  - intros [H _]. exact H.
  - intros H. split; [exact H | intros t _ []].
Qed.

(** X8: The loop over the tasks returns the prompt lines of the ticked tasks
    in the order of the plan when the numbers of the tasks differ from
    each other, and ends with [DuplicateWidgetID] when two tasks have the
    same number; the session store is not touched. *)
Theorem select_tasks_ticked_in_order inp tasks w :
  (NoDup (map num tasks) ->
   fst (select_tasks inp tasks [] [] w)
   = Ret (map listed (filter (ticked inp) tasks)))
  /\ (~ NoDup (map num tasks) ->
      fst (select_tasks inp tasks [] [] w) = Raise (Error "DuplicateWidgetID"))
  /\ session (snd (select_tasks inp tasks [] [] w)) = session w.
Proof.
  destruct (select_tasks_run inp tasks [] [] w) as [shown Hrun].
  rewrite Hrun. cbn [fst snd session].
  rewrite selected_filter. cbn [app].
  pose proof (keys_distinct_NoDup tasks) as Hkeys.
  destruct (keys_distinct tasks []).
  - split; [reflexivity|]. split; [|reflexivity].
    intros Hdup. exfalso. apply Hdup, Hkeys. reflexivity.
  - split; [|split; reflexivity].
    intros Hnodup. apply Hkeys in Hnodup. discriminate.
Qed.

Lemma select_tasks_ticked_witness :
  fst (select_tasks (press BtnStartResearch) (tasks session_planned) [] []
                    (mkWorld session_planned [] 0 0%Z))
  = Ret ["1. Find data - details"%string; "2. Check sources"%string].
Proof.
  refine (proj1 (select_tasks_ticked_in_order (press BtnStartResearch)
                   (tasks session_planned)
                   (mkWorld session_planned [] 0 0%Z)) _).
  cbn [tasks session_planned map num].
  repeat constructor; cbn [In]; intuition discriminate.
Defined.

(** ** Runs that do not reach the phases *)

(** X9: A run started by Reset ends with a rerun at the button: whatever
    the store held, with or without an API key, every field is back at
    its default, nothing that follows the button is shown (of the events
    recorded here, the title alone) and the service has not been
    called. *)
Theorem reset_clears_everything inp client store :
  clicked inp = Some BtnReset ->
  main inp client store
  = (Raise RerunException, mkWorld defaults [UiTitle] 0 0%Z).
Proof.
  intros Hclick. unfold main, script, reset_session_state, st_button.
  rewrite Hclick. cbn [Button_eqb andb negb].
  run_monad. session_fields. reflexivity.
Qed.

Lemma reset_clears_everything_witness :
  main (press BtnReset) service_down (Some session_reported)
  = (Raise RerunException, mkWorld defaults [UiTitle] 0 0%Z).
Proof.
  exact (reset_clears_everything (press BtnReset) service_down
           (Some session_reported) eq_refl).
Defined.

(** X10: Without an API key a run that Reset did not start stops after the
    hint to enter one: the store stays as it was found, no phase runs and
    the outcome does not depend on the service. *)
Theorem no_api_key_stops inp client store :
  truthy (api_key inp) = false ->
  clicked inp <> Some BtnReset ->
  main inp client store
  = (Raise StopException,
     mkWorld (init_session_state store)
             [UiInfo "Enter API key to start"; UiHowItWorks; UiTitle] 0 0%Z).
Proof.
  intros Hkey Hclick. unfold main, script, st_button.
  destruct (clicked inp) as [[]|]; try congruence;
    cbn [Button_eqb andb negb]; run_monad; rewrite Hkey; reflexivity.
Qed.

Lemma no_api_key_stops_witness :
  main (mkInputs "" "goal" (Some BtnGeneratePlan) all_ticked) service_down
       (Some session_planned)
  = (Raise StopException,
     mkWorld session_planned
             [UiInfo "Enter API key to start"; UiHowItWorks; UiTitle] 0 0%Z).
Proof.
  exact (no_api_key_stops
           (mkInputs "" "goal" (Some BtnGeneratePlan) all_ticked) service_down
           (Some session_planned) eq_refl ltac:(discriminate)).
Defined.

(** X11: A run that no button started leaves the store as it found it and
    never calls the service: what it shows and how it ends is the same
    for every client. *)
Theorem idle_run_calls_nothing inp client client' store :
  clicked inp = None ->
  main inp client store = main inp client' store
  /\ run inp client store = init_session_state store.
Proof.
  intros Hclick. split.
  - destruct inp as [key goal click boxes]. cbn [clicked] in Hclick. subst click.
    unfold main, script, phase_plan, phase_research, phase_report, st_button.
    cbn [clicked research_goal api_key]. reflexivity.
  - pose proof (run_effect_holds inp client store) as Heff.
    unfold run_effect in Heff. rewrite Hclick in Heff.
    destruct (truthy (api_key inp)); exact Heff.
Qed.

Lemma idle_run_calls_nothing_witness :
  main (mkInputs "key" "" None all_ticked) service_down (Some session_reported)
  = main (mkInputs "key" "" None all_ticked) (service (Ok image_answer))
         (Some session_reported)
  /\ run (mkInputs "key" "" None all_ticked) service_down
         (Some session_reported)
     = session_reported.
Proof.
  exact (idle_run_calls_nothing (mkInputs "key" "" None all_ticked)
           service_down (service (Ok image_answer)) (Some session_reported)
           eq_refl).
Defined.

(** ** What the buttons write *)

(** X12: Each button writes the fields of its own phase only: a run that
    Reset did not start keeps the plan fields unless Generate Plan
    started it, the research fields unless Start Research started it,
    and the report fields unless Generate Report started it.  So a new
    plan leaves an older research and report in the store. *)
Theorem buttons_write_their_own_fields inp client store :
  clicked inp <> Some BtnReset ->
  let s := init_session_state store in
  let s' := run inp client store in
  (clicked inp <> Some BtnGeneratePlan ->
   plan_id s' = plan_id s /\ plan_text s' = plan_text s /\ tasks s' = tasks s)
  /\ (clicked inp <> Some BtnStartResearch ->
      research_id s' = research_id s /\ research_text s' = research_text s)
  /\ (clicked inp <> Some BtnGenerateReport ->
      synthesis_text s' = synthesis_text s /\ infographic s' = infographic s).
Proof.
  intros Hreset. cbn zeta.
  pose proof (run_effect_holds inp client store) as Heff.
  unfold run_effect in Heff.
  set (s := init_session_state store) in *.
  set (s' := run inp client store) in *. clearbody s s'.
  destruct (clicked inp) as [[]|]; try congruence;
    (destruct (truthy (api_key inp));
     [|subst s'; repeat split; reflexivity]).
  - (* Generate Plan *)
    subst s'. unfold plan_effect.
    destruct (st_button _ _ _); [|repeat split; reflexivity].
    destruct (interactions_create _ _); repeat split; try reflexivity;
      intros; congruence.
  - (* Start Deep Research *)
    destruct Heff as [-> | (_ & _ & _ & _ & i & j & w & _ & _ & ->)];
      repeat split; try reflexivity; intros; congruence.
  - (* Generate Executive Report *)
    subst s'. destruct (widgets_ok s); [|repeat split; reflexivity].
    unfold report_effect.
    destruct (report_pressed inp s); [|repeat split; reflexivity].
    destruct (interactions_create _ _) as [i|msg]; [|repeat split; reflexivity].
    destruct (new_infographic _); repeat split; try reflexivity;
      intros; congruence.
  - subst s'. repeat split; reflexivity.
Qed.

Lemma buttons_write_their_own_fields_witness :
  research_text (run (press BtnGeneratePlan) (service (Ok image_answer))
                     (Some session_reported))
  = Some "findings"%string
  /\ synthesis_text (run (press BtnGeneratePlan) (service (Ok image_answer))
                         (Some session_reported))
     = Some "the report"%string.
Proof.
  destruct (buttons_write_their_own_fields (press BtnGeneratePlan)
              (service (Ok image_answer)) (Some session_reported)
              ltac:(discriminate)) as (_ & Hresearch & Hreport).
  split.
  - exact (proj2 (Hresearch ltac:(discriminate))).
  - exact (proj1 (Hreport ltac:(discriminate))).
Defined.

(** ** The shape of the stored fields *)

Lemma coherent_defaults : coherent defaults.
Proof.
  unfold coherent, is_set. cbn.
  repeat split; intros; congruence.
Qed.

Lemma research_result_truthy i : truthy (research_result i) = true.
Proof.
  unfold research_result. cbv zeta.
  destruct (truthy (get_text (outputs i))) eqn:H; [exact H | reflexivity].
Qed.

Lemma run_effect_coherent inp client s s' :
  coherent s -> run_effect inp client s s' -> coherent s'.
Proof.
  intros Hs Heff. unfold run_effect in Heff.
  destruct (clicked inp) as [[]|];
    try (subst s'; exact coherent_defaults);
    (destruct (truthy (api_key inp)); [|subst s'; exact Hs]).
  - (* Generate Plan *)
    subst s'. unfold plan_effect.
    destruct (st_button _ _ _); [|exact Hs].
    destruct (interactions_create _ _) as [i|msg]; [|exact Hs].
    destruct Hs as (_ & _ & H3 & H4 & H5).
    unfold coherent, is_set in *. session_fields.
    repeat split; try assumption; try (intros; congruence);
      try (apply H3); try (apply H4); try (apply H5).
  - (* Start Deep Research *)
    destruct Heff as [-> | (_ & _ & _ & _ & i & j & w & _ & _ & ->)];
      [exact Hs|].
    destruct Hs as (H1 & H2 & _ & _ & H5).
    unfold coherent, is_set in *.
    cbv [researched]. cbn [plan_id plan_text tasks research_id research_text
                           synthesis_text infographic truthy_opt].
    repeat split; try assumption; try (intros; congruence);
      try (apply H2); try (apply H5).
    intros _. apply research_result_truthy.
  - (* Generate Executive Report *)
    subst s'. destruct (widgets_ok s); [|exact Hs].
    unfold report_effect.
    destruct (report_pressed inp s); [|exact Hs].
    destruct (interactions_create _ _) as [i|msg]; [|exact Hs].
    destruct Hs as (H1 & H2 & H3 & H4 & _).
    unfold coherent, is_set in *.
    destruct (new_infographic _); session_fields;
      repeat split; try assumption; try (intros; congruence);
      try (apply H2); try (apply H3).
  - subst s'. exact Hs.
Qed.

(** X13: Every store that runs of the script produce is coherent: its tasks
    are the tasks of the stored plan text, the id and the text of the
    plan are set together and so are those of the research, a stored
    research text is never empty, and an infographic is stored only
    beside a report. *)
Theorem stored_fields_coherent s : reachable s -> coherent s.
Proof.
  intros Hreach. induction Hreach as [inp client | s inp client Hreach IH].
  - apply (run_effect_coherent inp client (init_session_state None));
      [exact coherent_defaults | apply run_effect_holds].
  - apply (run_effect_coherent inp client (init_session_state (Some s)));
      [exact IH | apply run_effect_holds].
Qed.

Lemma stored_fields_coherent_witness : coherent session_reported.
Proof.
  exact (stored_fields_coherent session_reported reachable_session_reported).
Defined.

(** ** Research that does not come about *)

Lemma filter_none {A} (f : A -> bool) l :
  (forall x, In x l -> f x = false) -> filter f l = [].
Proof.
  induction l as [|x l IH]; intros H; cbn [filter]; [reflexivity|].
  rewrite (H x (or_introl eq_refl)). apply IH.
  intros y Hy. apply H. right. exact Hy.
Qed.

(** When no status query about a job is answered, the poller raises the
    failure of its final query. *)
Lemma failing_poll_raises client job timeout w :
  status_unavailable client job ->
  exists msg,
    fst (wait_for_completion client job timeout w) = Raise (Error msg).
Proof.
  intros Hdown. rewrite wait_for_completion_unfold.
  destruct (Z.ltb_spec 0 timeout) as [Hpos|Hneg].
  - destruct (Z.to_nat timeout) as [|fuel] eqn:Hfuel; [lia|].
    cbn [while_loop]. destruct (Z.ltb_spec 0 timeout) as [_|Hle]; [|lia].
    unfold bind.
    destruct (Hdown (gets (started w)) (clock (started w))) as [msg Hget].
    rewrite (loop_body_failed client job timeout 0%Z (started w) msg Hget).
    cbn [ret]. rewrite client_get_answer. cbn [gets clock fst].
    destruct (Hdown (S (gets (started w))) (clock (started w))) as [msg' ->].
    exists msg'. reflexivity.
  - rewrite while_loop_exit by lia. rewrite client_get_answer. cbn [fst].
    destruct (Hdown (gets (started w)) (clock (started w))) as [msg ->].
    exists msg. reflexivity.
Qed.

(** X14: A run started by Start Deep Research leaves the store as it found
    it when there is no plan, when no task is ticked, when the service
    refuses to create the research job, or when it creates the job but
    answers no status query about it. *)
Theorem failed_research_leaves_session inp client store :
  let s := init_session_state store in
  clicked inp = Some BtnStartResearch ->
  (truthy_opt (plan_text s) = false
   \/ (forall t, In t (tasks s) -> ticked inp t = false)
   \/ (exists msg,
         interactions_create client (research_request inp s) = Failed msg)
   \/ (exists i,
         interactions_create client (research_request inp s) = Ok i
         /\ status_unavailable client (id i))) ->
  run inp client store = s.
Proof.
  cbn zeta. intros Hclick Hwhy.
  pose proof (run_effect_holds inp client store) as Heff.
  unfold run_effect in Heff. rewrite Hclick in Heff.
  destruct (truthy (api_key inp)); [|exact Heff].
  destruct Heff as [Hsame | (_ & Hplan & _ & Hsel & i & j & w & Hcreate & Hwait & _)];
    [exact Hsame|].
  exfalso.
  destruct Hwhy as [Hnoplan | [Hnone | [[msg Hfail] | (i' & Hok & Hdown)]]].
  - congruence.
  - apply Hsel. rewrite selected_filter.
    rewrite (filter_none (ticked inp) (tasks (init_session_state store)) Hnone).
    reflexivity.
  - congruence.
  - assert (i' = i) by congruence. subst i'.
    destruct (failing_poll_raises client (id i) TIMEOUT w Hdown) as [msg Hraise].
    congruence.
Qed.

Lemma failed_research_leaves_session_witness :
  run (press BtnStartResearch) service_down (Some session_planned)
  = session_planned
  /\ run (press BtnStartResearch) service_without_status (Some session_planned)
     = session_planned.
Proof.
  split.
  - refine (failed_research_leaves_session (press BtnStartResearch)
              service_down (Some session_planned) eq_refl _).
    right. right. left. exists "unavailable"%string. reflexivity.
  - refine (failed_research_leaves_session (press BtnStartResearch)
              service_without_status (Some session_planned) eq_refl _).
    right. right. right. exists research_answer.
    split; [reflexivity|].
    intros n t. exists "unavailable"%string. reflexivity.
Defined.

(** ** A plan that repeats a number *)

Lemma phase_research_duplicate inp client w :
  widgets_ok (session w) = false ->
  exists shown,
    phase_research inp client w
    = (Raise (Error "DuplicateWidgetID"),
       mkWorld (session w) shown (gets w) (clock w)).
Proof.
  unfold widgets_ok. intros H. apply Bool.orb_false_iff in H.
  destruct H as [Hplan Hkeys]. apply Bool.negb_false_iff in Hplan.
  unfold phase_research. run_monad. rewrite Hplan.
  match goal with |- context [select_tasks inp ?ts ?k ?a ?w'] =>
    destruct (select_tasks_run inp ts k a w') as [shown Hsel] end.
  rewrite Hsel, Hkeys. run_monad. eauto.
Qed.

(** X15: While the stored plan numbers two of its tasks alike, every run
    with an API key ends at the task selection with the uncaught
    [DuplicateWidgetID] and leaves the store as it is, whatever button
    started it other than Reset and Generate Plan: the research results
    and the report are not shown and cannot be made. *)
Theorem repeated_number_blocks_the_page inp client s :
  truthy (api_key inp) = true ->
  clicked inp <> Some BtnReset ->
  clicked inp <> Some BtnGeneratePlan ->
  truthy_opt (plan_text s) = true ->
  ~ NoDup (map num (tasks s)) ->
  fst (main inp client (Some s)) = Raise (Error "DuplicateWidgetID")
  /\ run inp client (Some s) = s.
Proof.
  intros Hkey Hreset Hplanbtn Hplan Hdup.
  assert (Hw : widgets_ok s = false).
  { unfold widgets_ok. rewrite Hplan. cbn [negb orb].
    apply Bool.not_true_is_false. intros H. apply Hdup, keys_distinct_NoDup, H. }
  unfold run, main, script, st_button. cbn [init_session_state].
  destruct (clicked inp) as [[]|] eqn:Hclick; try congruence;
    cbn [Button_eqb andb negb]; run_monad; rewrite Hkey; cbn [negb];
    run_monad; step_script inp client;
    rewrite (plan_effect_idle inp client s) by congruence;
    match goal with |- context [phase_research inp client ?w] =>
      destruct (phase_research_duplicate inp client w Hw) as [shown' Hr];
      rewrite Hr
    end; cbn [fst snd session]; split; reflexivity.
Qed.

(** Such a store comes about: the parser reads the repeated number as
    it stands. *)
Example session_twins_parsed :
  Parser.parse_tasks (fmt (plan_text session_twins)) = tasks session_twins.
Proof. vm_compute. reflexivity. Qed.

Lemma repeated_number_blocks_the_page_witness :
  fst (main (press BtnStartResearch) (service (Ok image_answer))
            (Some session_twins))
  = Raise (Error "DuplicateWidgetID")
  /\ run (press BtnStartResearch) (service (Ok image_answer))
         (Some session_twins)
     = session_twins.
Proof.
  refine (repeated_number_blocks_the_page (press BtnStartResearch)
            (service (Ok image_answer)) session_twins eq_refl
            ltac:(discriminate) ltac:(discriminate) eq_refl _).
  cbn [tasks session_twins map num]. intros Hnodup.
  inversion Hnodup as [|x xs Hnotin _]. apply Hnotin. left. reflexivity.
Defined.

End OrchestratorLaws.

(* ===================================================================== *)
(** * Further properties of the exporters                                 *)
(* ===================================================================== *)

Module ExportLaws.
Import Utils UtilsSpec UtilsFacts ExportShapes.
Local Open Scope N_scope.

(** ** clean_text *)

(** X16: [clean_text] changes a text exactly when the text cannot be written
    in latin-1, and cleaning twice is cleaning once. *)
Theorem clean_text_fixed_points t :
  (clean_text t = t <-> encodable t)
  /\ clean_text (clean_text t) = clean_text t.
Proof.
  unfold clean_text, encodable. split.
  - induction t as [|c t IH]; cbn [map forallb].
    + split; reflexivity.
    + destruct (latin1 c) eqn:Hc; cbn [andb].
      * split; intros H.
        -- apply IH. injection H as H. exact H.
        -- f_equal. apply IH, H.
      * split; [|discriminate]. intros H. injection H as Hq _.
        rewrite <- Hq in Hc. discriminate.
  - rewrite map_map. apply map_ext. intros c.
    destruct (latin1 c) eqn:Hc; [rewrite Hc|]; reflexivity.
Qed.

(** ** Blank lines *)

(** A line is blank for the exporters when all its characters are white
    space. *)
Lemma blank_spec l : blank l = true <-> forallb is_space l = true.
Proof. apply strip_empty_spec. Qed.

Lemma clean_text_spaces t :
  forallb is_space (clean_text t) = true
  <-> forallb is_space t = true /\ encodable t.
Proof.
  unfold clean_text, encodable.
  induction t as [|c t IH]; cbn [map forallb]; [split; auto|].
  rewrite !Bool.andb_true_iff, IH.
  destruct (latin1 c) eqn:Hc.
  - tauto.
  - change (is_space QUESTION_MARK) with false.
    split; [intros [H _]; discriminate | intros [_ [H _]]; discriminate].
Qed.

(** X17: The DOCX export leaves out a line exactly when all its characters
    are white space.  The PDF export answers a line with an empty line
    exactly when, in addition, the line can be written in latin-1: white
    space beyond latin-1 is cleaned to question marks first and then
    printed. *)
Theorem blank_lines_of_the_exporters line :
  (docx_line line = [] <-> forallb is_space line = true)
  /\ (pdf_line line = [Ln 5]
      <-> forallb is_space line = true /\ encodable line).
Proof.
  split.
  - rewrite <- blank_spec. unfold docx_line.
    change (is_empty (strip line)) with (blank line).
    destruct (blank line); [split; reflexivity|].
    split; [|discriminate].
    unfold add_paragraph.
    repeat match goal with
           | |- context [if ?b then _ else _] => destruct b
           end; discriminate.
  - rewrite <- clean_text_spaces, <- blank_spec. unfold pdf_line. cbv zeta.
    change (is_empty (strip (clean_text line))) with (blank (clean_text line)).
    destruct (blank (clean_text line)); [split; reflexivity|].
    split; [|discriminate].
    repeat match goal with
           | |- context [if ?b then _ else _] => destruct b
           end; discriminate.
Qed.

(** ** The text of a paragraph *)

Lemma startswith_two a b l :
  startswith [a; b] l = true -> exists q, l = a :: b :: q.
Proof.
  destruct l as [|x [|y q]]; cbn [startswith]; try discriminate.
  - rewrite Bool.andb_false_r. discriminate.
  - rewrite Bool.andb_true_r, Bool.andb_true_iff, !N.eqb_eq.
    intros [-> ->]. exists q. reflexivity.
Qed.

Lemma plain_asterisk : plain ASTERISK = false.
Proof. reflexivity. Qed.

(** The run made for a part holds the characters of the part except
    asterisks. *)
Lemma run_of_part_plain part :
  filter plain (run_text (run_of_part part)) = filter plain part.
Proof.
  unfold run_of_part.
  destruct (startswith [ASTERISK; ASTERISK] part
            && endswith [ASTERISK; ASTERISK] part)%bool eqn:H;
    [|reflexivity].
  apply Bool.andb_true_iff in H. destruct H as [Hs He].
  cbn [run_text]. unfold endswith in He. cbn [rev app] in He.
  apply startswith_two in Hs. destruct Hs as [q Hq].
  apply startswith_two in He. destruct He as [q2 Hq2].
  assert (Hpart : part = rev q2 ++ [ASTERISK; ASTERISK]).
  { rewrite <- (rev_involutive part), Hq2. cbn [rev].
    rewrite <- app_assoc. reflexivity. }
  unfold slice_2_m2.
  destruct (rev q2) as [|x [|y m]] eqn:Hm.
  - rewrite Hpart. reflexivity.
  - rewrite Hpart in Hq. cbn [app] in Hq. injection Hq as -> _.
    rewrite Hpart. reflexivity.
  - rewrite Hpart in Hq. cbn [app] in Hq. injection Hq as -> -> _.
    rewrite Hpart. cbn [app length skipn].
    replace (S (S (length (m ++ [ASTERISK; ASTERISK]))) - 2 - 2)%nat
      with (length m)
      by (rewrite length_app; cbn [length]; lia).
    rewrite firstn_app, Nat.sub_diag, firstn_all. cbn [firstn].
    rewrite app_nil_r. cbn [filter]. rewrite plain_asterisk.
    rewrite filter_app. cbn [filter]. rewrite plain_asterisk.
    rewrite app_nil_r. reflexivity.
Qed.

(** X18: The runs of a paragraph that [generate_docx] makes for a line of
    running text hold every character of the line that is not an
    asterisk, in the order of the line, and nothing else but asterisks. *)
Theorem docx_paragraph_keeps_text line runs :
  docx_line line = [Paragraph None runs] ->
  filter plain (runs_text runs) = filter plain line.
Proof.
  unfold docx_line, add_paragraph.
  repeat match goal with
         | |- context [if ?b then _ else _] => destruct b
         end; try discriminate.
  cbv zeta. intros H. injection H as <-.
  unfold runs_text. rewrite <- concat_filter_map, !map_map.
  rewrite (map_ext _ (filter plain) run_of_part_plain).
  rewrite concat_filter_map.
  unfold bold_pattern. rewrite ParserLaws.split_concat. reflexivity.
Qed.

Lemma docx_paragraph_keeps_text_witness :
  filter plain (runs_text [mkRun [] false;
                           mkRun (of_string "bold") true;
                           mkRun (of_string " and plain") false])
  = filter plain (of_string "**bold** and plain").
Proof.
  exact (docx_paragraph_keeps_text (of_string "**bold** and plain")
           [mkRun [] false; mkRun (of_string "bold") true;
            mkRun (of_string " and plain") false]
           ltac:(vm_compute; reflexivity)).
Defined.

(** X19: The cell that [generate_pdf] writes for a line of running text
    holds every character of the cleaned line that is neither asterisk
    nor underscore, in the order of the line, and nothing else but
    asterisks and underscores. *)
Theorem pdf_paragraph_keeps_text line txt :
  pdf_line line = [MultiCell 0 8 txt] ->
  filter unmarked txt = filter unmarked (clean_text line).
Proof.
  unfold pdf_line. cbv zeta.
  repeat match goal with
         | |- context [if ?b then _ else _] => destruct b
         end; try discriminate.
  intros H. injection H as <-.
  rewrite (remove_pairs_filter unmarked UNDERSCORE eq_refl
             (length (remove_pairs ASTERISK (clean_text line))))
    by lia.
  apply (remove_pairs_filter unmarked ASTERISK eq_refl
           (length (clean_text line))).
  lia.
Qed.

Lemma pdf_paragraph_keeps_text_witness :
  filter unmarked (of_string "bold and plain")
  = filter unmarked (clean_text (of_string "**bold** and __plain__")).
Proof.
  exact (pdf_paragraph_keeps_text (of_string "**bold** and __plain__")
           (of_string "bold and plain") ltac:(vm_compute; reflexivity)).
Defined.

(** ** The documents as a whole *)




End ExportLaws.
